(* ===== verification/_CoqProject ===== *)
-Q . S2P
Prelude.v
Config.v
Frame.v
Groupby.v
Cost.v
Transport.v
Extract.v
Chain.v
ChainSpec.v
Scrape.v
Fetch.v
Cli.v
Csv.v
Locality.v
Optimality.v
Scenario.v
