(* ===== verification/Prelude.v ===== *)
(** * A verification library for the cell-by-cell optimal-transport matcher
      of real-time-inequality

    The repository has two Python programs.

    - [src/transport/transport.py] matches three survey micro-files
      (DINA, the national-accounts distribution file; CPS, the labour
      survey; SCF, the wealth survey) for one year.  It splits each file
      into cells with [groupby(['married','old','employed']).groups],
      and for every DINA cell: selects the rows of the cell in the three
      files ([iloc]), builds a city-block cost matrix between DINA and CPS
      ([scipy cdist 'cityblock'] over the columns paired by the dictionary
      [matching_cps]), normalises both weight vectors to sum one, solves
      the transport problem with [ot.emd], and then either
      (no SCF, years before 1989) writes one (dina_id, cps_id, weight)
      row per nonzero plan entry, or (with SCF) turns those entries into
      an intermediate DINA-CPS file carrying the DINA columns of
      [matching_scf], matches it against the SCF cell the same way, and
      writes one (dina_id, cps_id, scf_id, weight) row per nonzero entry
      of the second plan.  Weights are rescaled by the mass of the left
      side (the DINA cell, then the intermediate file).  The per-cell
      tables are concatenated with [pd.concat].
    - [src/programs/01-scrape-forbes.py] lists the month ends from
      January 2020 to today, fetches for each the Wayback Machine
      snapshot of the Forbes real-time list (retrying forever on error,
      with a 10s pause), rewrites the snapshot URL to its raw form by
      inserting ["if_"] at offset 42, and concatenates the tables.

    ** Files, one per component, in dependency order

    - [Prelude] (this file): the [Q] sums shared by every component
      ([qsum] and its algebra, [Proper] instances for [Qeq]), the
      exceptions the Python code can raise ([exn]) and a small error
      monad ([result], [let*] notation in [result_scope]) through which
      every fallible operation is threaded, the [match_db] hint
      database and the tactics of the development.
    - [Config]: the year-dependent choice of input files and the two
      column dictionaries (transport.py lines 13-46).
    - [Frame]: a pandas data frame as the code uses it: rows with an
      [id], a [weight] and a map from column names to values;
      [.loc[:, cols]], [.iloc[positions]], [['weight'].sum()].
    - [Groupby]: [groupby(cells).groups], the partition of a frame into
      cells, keyed by the value tuple, in sorted key order.
    - [Cost]: [cdist(..., 'cityblock')].
    - [Transport]: the normalisation of weights and the interface of the
      external solver [ot.emd] (a type class: what the solver promises,
      and what [transport.py] relies on), with a concrete solver that
      discharges it (the independent coupling), used by the witnesses.
    - [Extract]: [np.nonzero] and the loops that turn a plan into
      correspondence rows and into the intermediate DINA-CPS file.
    - [Chain]: one cell of the main loop (stage 1, optional stage 2) and
      the whole loop over DINA cells with the final [pd.concat].
    - [ChainSpec]: the spec's description of a cell as an abstract
      transition system ([cstep]: couple DINA with CPS, then, with SCF,
      the pairs with SCF, by any coupling of the normalised weights), and
      the proof that [Chain.process_cell] refines it.
    - [Scrape]: the month-end calendar, the URL rewrite and the retry
      loop of [01-scrape-forbes.py].
    - [Fetch]: the body of its [try] block over an interface [Wayback]
      for waybackpy, urllib and json (lines 15-57), with pandas'
      [json_normalize], and the scraper over such a network.
    - [Cli]: [sys.argv] and Python's [int()] on strings, and the two
      scripts as functions of their argument vectors.
    - [Csv]: [pd.read_csv] (C parser) on unquoted comma-separated text,
      with the tokenizer's row width and implicit index, pandas' NA
      strings and dtype inference, [DataFrame.to_csv(index=False)] and
      the table of matches line 184 writes ([matches_table],
      [transport_output]).
    - [Locality]: the cells are independent: the result of a cell
      depends only on the rows of that cell.
    - [Optimality]: what the least-cost contract of [ot.emd] adds: exact
      matches are used whenever the two cells admit them.
    - [Scenario]: the end-to-end example of the spec (section 8) on the
      toy cell, under any solver that answers it optimally.

    ** Numbers

    numpy [float64] values are modelled by exact rationals [Q]; sums are
    compared with [Qeq] ([==]).  Floating-point rounding is therefore not
    modelled: the conservation theorems say what the code computes up to
    rounding.  Division by a zero mass (numpy yields NaN) is excluded by
    the hypotheses of the theorems that need a positive mass.

    ** What the theorems show

    The numbered claims (C1, C2, ...) are stated in the files, each with a
    witness that runs it on small frames ([Frame.Toy], [Chain.ToyCell]).

    - Whole run ([Chain.run_mass], [Chain.run_rows_from_inputs]): on
      input files that fit the program ([Chain.run_inputs_ok]: well
      formed, non-negative weights, the cell and dictionary columns
      present, every DINA cell with positive mass in CPS and, from 1989,
      in SCF) the run completes, its weights add up to the total DINA
      weight, and every row carries ids of the input files (an SCF id
      exactly when the year has an SCF file) and a non-negative weight
      ([Chain.entry_from]).  It is assembled from the per-cell lemma
      [process_cell_mass] (claims [process_cell_mass_stage1] and
      [process_cell_mass_stage2]), the loop lemma [loop_mass] and
      [cell_masses_sum] (the cells partition the DINA mass).
    - Record level ([Chain.process_cell_record_mass_stage1] and
      [_stage2]): with distinct DINA ids, the rows a cell writes for a
      DINA record weigh exactly that record's weight, after one stage and
      through both; built from [Extract.key_mass] (the rows of a key
      weigh the plan rows of that key) and the row marginals of the plans;
      on the other side ([process_cell_cps_record_mass],
      [process_cell_scf_record_mass]), the rows of a CPS or SCF record
      weigh its weight rescaled by the DINA cell mass over its own cell
      mass, from the column marginals ([Extract.key_mass_col_unique]).
    - Error paths: a cell absent from CPS or SCF raises [KeyError] in the
      loop body and aborts the whole run; a declared column absent from a
      frame raises [KeyError] ([cost_matrix_missing_column], and late,
      inside the intermediate loop, [build_inter_missing_column]); an
      all-zero plan makes [np.nditer] raise [ValueError]; a DINA file
      without a cell column raises [KeyError] at [groupby].
    - Optimal solver ([Optimality], [Scenario]): when the solver returns
      a least-cost coupling, every position the first stage extracts
      pairs records with equal matching variables whenever an exact
      coupling exists; on the spec's toy cell the plan is unique and the
      four output rows are determined.  The plan is only known up to
      [Qeq], so the extraction is shown [Proper] for the setoid
      [mat_equiv] (entrywise [Qeq]) with results compared by [res_rel].
    - Refinement ([ChainSpec.process_cell_refines]): on the hypotheses
      of [process_cell_mass], a cell succeeds and its rows are the end of
      a run of [cstep] from its three cell subsets.  The lemma
      [ChainSpec.cstep_rtc_mass] (rule induction on stdpp's [rtc]) shows
      that every run of [cstep] keeps weights non-negative and carries
      the DINA cell mass.  The spec's rows come from the nonzero
      positions of a coupling in the row-major enumeration
      [Extract.nonzero_ref], which [np.nonzero]'s row-by-row routine
      equals ([Extract.nonzero_ref_equiv]).
    - Locality ([Locality.process_cell_local]): two sets of files that
      agree on the rows of a cell give the same result for that cell,
      rows or exception; the spec's claim that cells can be processed
      independently (section 5).
    - Components: [groupby] partitions the rows that have all their cell
      values, with sorted distinct keys, and leaves out the others
      ([groupby_partition]); hence a DINA row with a missing cell value
      is ignored by the whole run, its weight lost without an error
      ([Locality.run_drops_rows_without_key], a finding); the cost matrix
      has the city-block entries and is non-negative; [np.nonzero] lists
      the nonzero entries once each in row-major order
      ([nonzero_row_major]).
    - Command line ([Cli]): [int(sys.argv[1])] reads back any year that
      [str] prints, whitespace around it allowed, and runs that year
      ([transport_main_year], over stdpp's [pretty]); without an argument
      line 13 raises [IndexError], and with a character [int()] refuses
      ([2019.0]) it raises [ValueError], before any file is read
      ([transport_main_bad_argument]).
    - Scraper: the month ends are exactly those of 2020 to today, in
      order; the URL rewrite inserts ["if_"] after the timestamp; the
      retry loop, with fuel, stops at the first success after the failed
      attempts ([retry_spec]); [scrape] returns
      the tagged tables when the fuel exceeds every date's failures.
      Over the network ([Fetch]), when [json.loads] returns Python values
      (the contract [WaybackSpec]), the scraper stops with the flattened
      person lists of the month ends, tagged and in date order, as soon as
      the fuel exceeds every month end's failures
      ([scrape_wayback_tables]); a month end whose nearest snapshot is a
      JSON dictionary without ["personList"] stalls the scraper for ever
      ([scrape_wayback_stuck]); [json_normalize] yields records with
      distinct columns and no nested dictionary ([json_normalize_flat]),
      whose columns are the key paths of leaves of the input row joined
      as Python's [".".join] does, after the leading empty keys
      ([json_normalize_paths]).
    - Files ([Csv]): on input files that fit the program, the text
      written to [match/match-<year>.csv] reads back through
      [pd.read_csv] as the table of matches, with an [scf_id] column
      exactly when the year has an SCF file, and its weights add up to
      the DINA total ([transport_output_roundtrip], from the general
      round trip [read_csv_to_csv] for tables of typed columns whose
      names hold no separator); an empty file raises [ValueError], a line
      after the first data line wider than the header and the first data
      line raises [ParserError], and a first data line wider than the
      header gives an implicit index ([pd_read_csv_errors]).  The float syntax is a class
      ([Csv.FloatText], laws [FloatTextSpec]); [Csv.RatioText] meets the
      laws and runs the witnesses.

    ** The solver and the fuel

    [ot.emd] is a class ([Transport.EMDSolver], contract
    [EMDSolverSpec]); the chained theorems hold for every solver meeting
    the contract, under the hypothesis (a [Section] hypothesis of [Chain])
    that the solver reports [OPTIMAL], which the code never checks (a
    finding: [Chain.process_cell_unchecked_plan] shows that any plan of
    the right shape is turned into rows, whose mass is the DINA mass
    times the plan's total, and [Chain.stalled_solver_loses_mass] exhibits
    a stalled plan that loses a quarter of the mass without error).  [Transport.indep_solver] meets the contract and runs the
    witnesses.  The least-cost half of the contract
    ([Transport.EMDSolverOptimal], [optimal_plan]) is a hypothesis on the
    single call a cell makes, which the witnesses discharge with a solver
    returning the provably optimal plan of the toy cell.  The only unbounded loop is the scraper's retry; it takes
    fuel, and [Scrape.retry_spec] says that fuel one more than the number
    of failed attempts is enough, so no result depends on a fuel bound
    chosen here.  [np.nonzero] and the other loops are structural.

    ** Not modelled

    Quoted CSV fields, duplicate or empty column names, fields with
    surrounding spaces, integers beyond 64 bits and the pandas dtypes
    other than [int64], [float64], [bool] and [object]; the exact text of
    Python's float [repr] (only its laws, the class [Csv.FloatText]);
    the file system and the step from the text of a file to the frame
    the run uses (the run takes the frame of each file as a function
    [read_csv]; [Csv.pd_read_csv] is the reader on the text); printing and timing; the internals of [ot.emd] (only its contract, as a class: POT's
    network simplex is a library the code only calls), the network and
    [json.loads] (a class [Fetch.Wayback] whose answers may change from
    one attempt to the next), the rows of [json_normalize] that are
    themselves lists (pandas builds a positional frame from them; the
    model raises), the column order of the concatenated tables, the
    non-ASCII digits and whitespace that [int()] also accepts, the module
    imports and comments of the two scripts, and floating-point
    rounding. *)

From stdpp Require Export base list strings sets sorting.
From Stdlib Require Export QArith Qabs Lqa.

Declare Scope result_scope.
Delimit Scope result_scope with result.

(** ** Exceptions raised by the modelled Python code *)

Inductive exn : Type :=
  | KeyErrorColumn (c : string)     (** a string key absent: a frame column, a JSON field *)
  | KeyErrorCell (k : list Q)       (** a cell key absent from [.groups] *)
  | IndexError                      (** [.iat]/[.iloc] out of range *)
  | ValueError (msg : string)       (** numpy / pandas argument errors, [JSONDecodeError] *)
  | TypeError (msg : string)        (** indexing a JSON value that is not a dictionary *)
  | NotImplementedError             (** [pd.json_normalize] on a scalar *)
  | OSError (msg : string).         (** network errors ([URLError], waybackpy's errors) *)

(** ** The error monad *)

Inductive result (A : Type) : Type :=
  | Ok (a : A)
  | Err (e : exn).
Arguments Ok {A} a.
Arguments Err {A} e.

Definition rbind {A B} (c : result A) (f : A -> result B) : result B :=
  match c with Ok a => f a | Err e => Err e end.

Notation "'let*' x ':=' c 'in' k" := (rbind c (fun x => k))
  (at level 10, x name, c at level 100, k at level 200) : result_scope.
Open Scope result_scope.

(** [list(map(f, xs))] where [f] may raise: the first error wins. *)
Fixpoint rmapM {A B} (f : A -> result B) (l : list A) : result (list B) :=
  match l with
  | [] => Ok []
  | x :: xs => let* y := f x in let* ys := rmapM f xs in Ok (y :: ys)
  end.

(** [l[i]] on a Python list or numpy vector: [IndexError] out of range. *)
Definition nth_r {A} (l : list A) (i : nat) : result A :=
  match l !! i with Some x => Ok x | None => Err IndexError end.

Lemma rbind_Ok_inv {A B} (c : result A) (f : A -> result B) b :
  rbind c f = Ok b -> exists a, c = Ok a /\ f a = Ok b.
Proof. destruct c; simpl; [eauto | discriminate]. Qed.

Lemma rmapM_Ok_Forall2 {A B} (f : A -> result B) l ys :
  rmapM f l = Ok ys <-> Forall2 (fun x y => f x = Ok y) l ys.
Proof.
  revert ys; induction l as [|x l IH]; intros ys; simpl.
  - split; [intros [= <-]; constructor | intros H; inversion H; done].
  - split.
    + intros H. apply rbind_Ok_inv in H as (y & Hy & H).
      apply rbind_Ok_inv in H as (ys' & Hys & [= <-]).
      constructor; [done | by apply IH].
    + intros H; inversion H; subst. simpl.
      rewrite H2. simpl. by rewrite (proj2 (IH _) H4).
Qed.

Lemma rmapM_Ok_length {A B} (f : A -> result B) l ys :
  rmapM f l = Ok ys -> length ys = length l.
Proof. intros H%rmapM_Ok_Forall2. symmetry. by eapply Forall2_length. Qed.

Lemma rmapM_map {A B} (f : A -> B) l : rmapM (fun x => Ok (f x)) l = Ok (map f l).
Proof. induction l as [|x l IH]; simpl; [done | by rewrite IH]. Qed.

Lemma nth_r_lookup {A} (l : list A) i x : nth_r l i = Ok x <-> l !! i = Some x.
Proof. unfold nth_r. destruct (l !! i); split; congruence. Qed.

Lemma nth_r_lt {A} (l : list A) i : (i < length l)%nat -> exists x, nth_r l i = Ok x.
Proof.
  intros Hi. apply lookup_lt_is_Some_2 in Hi as [x Hx].
  exists x. by apply nth_r_lookup.
Qed.

(** Destructs every successful [rbind] of the hypotheses. *)
Ltac inv_ok :=
  repeat match goal with
  | H : rbind _ _ = Ok _ |- _ =>
      let a := fresh "a" in let Ha := fresh "Ha" in
      apply rbind_Ok_inv in H as (a & Ha & H)
  | H : Ok _ = Ok _ |- _ => injection H as H; subst
  end.

(** ** Sums of rationals: numpy's [.sum()] *)

Open Scope Q_scope.

Definition qsum (l : list Q) : Q := fold_right Qplus 0 l.

Create HintDb match_db.
Create Rewrite HintDb match_rw.

Lemma qsum_nil : qsum [] = 0.
Proof. reflexivity. Qed.

Lemma qsum_cons x l : qsum (x :: l) = x + qsum l.
Proof. reflexivity. Qed.

Lemma qsum_app l1 l2 : qsum (l1 ++ l2) == qsum l1 + qsum l2.
Proof. induction l1 as [|x l IH]; simpl; [lra | rewrite IH; lra]. Qed.

Lemma qsum_concat (ls : list (list Q)) :
  qsum (concat ls) == qsum (map qsum ls).
Proof.
  induction ls as [|l ls IH]; simpl; [lra|].
  rewrite qsum_app, IH. reflexivity.
Qed.

Lemma qsum_scale c l : qsum (map (fun x => c * x) l) == c * qsum l.
Proof. induction l as [|x l IH]; simpl; [lra | rewrite IH; lra]. Qed.

Lemma qsum_div c l : qsum (map (fun x => x / c) l) == qsum l / c.
Proof.
  induction l as [|x l IH]; simpl.
  - unfold Qdiv. lra.
  - rewrite IH. unfold Qdiv. lra.
Qed.

Lemma qsum_map_ext {A} (f g : A -> Q) (l : list A) :
  (forall x, In x l -> f x == g x) -> qsum (map f l) == qsum (map g l).
Proof.
  induction l as [|x l IH]; intros Hfg; simpl; [reflexivity|].
  rewrite (Hfg x (or_introl eq_refl)), IH; [reflexivity|].
  intros y Hy. apply Hfg. by right.
Qed.

Lemma qsum_nonneg l : Forall (fun x => 0 <= x) l -> 0 <= qsum l.
Proof.
  induction 1 as [|x l Hx _ IH]; simpl; [lra|].
  apply (Qplus_le_compat 0 x 0 (qsum l)) in Hx; [lra | done].
Qed.

(** Dropping the indices of exact zeros does not change a sum
    ([np.nonzero]). *)
Lemma qsum_map_filter_nonzero {A} (f : A -> Q) l :
  qsum (map f (List.filter (fun x => negb (Qeq_bool (f x) 0)) l)) == qsum (map f l).
Proof.
  induction l as [|x l IH]; cbn [List.filter map]; [reflexivity|].
  destruct (Qeq_bool (f x) 0) eqn:E; cbn [negb map]; rewrite ?qsum_cons, IH; [|reflexivity].
  apply Qeq_bool_eq in E. rewrite E. lra.
Qed.

(** [qsum] respects pointwise [Qeq]. *)
#[export] Instance qsum_Proper : Proper (Forall2 Qeq ==> Qeq) qsum.
Proof.
  intros l1 l2 H. induction H as [|x y l1 l2 Hxy _ IH]; simpl; [reflexivity|].
  rewrite Hxy, IH. reflexivity.
Qed.

#[export] Hint Rewrite qsum_app qsum_concat qsum_scale qsum_div : match_rw.
#[export] Hint Resolve qsum_nonneg : match_db.

(** Syntactic equality of rationals is decidable; keys of cells are
    compared after [Qred], which makes it coincide with [Qeq]. *)
#[export] Instance Q_eq_dec : EqDecision Q.
Proof. solve_decision. Defined.

(** ** Dense matrices: numpy 2-D arrays as lists of rows *)

Abbreviation Matrix := (list (list Q)).

(** [M[i, j]] when in range. *)
Definition mat_at (M : Matrix) (i j : nat) : option Q := M !! i ≫= (fun row => row !! j).

(** The shape [(n, m)]. *)
Definition has_shape (M : Matrix) (n m : nat) : Prop :=
  length M = n /\ Forall (fun row => length row = m) M.

Lemma mat_at_Some (M : Matrix) i j x :
  mat_at M i j = Some x <-> exists row, M !! i = Some row /\ row !! j = Some x.
Proof.
  unfold mat_at. destruct (M !! i) as [row|]; simpl; split.
  - eauto.
  - by intros (? & [= ->] & ?).
  - discriminate.
  - by intros (? & ? & ?).
Qed.

(** ** Generic helpers shared by the components *)

(** A loop whose every iteration succeeds succeeds. *)
Lemma rmapM_total {A B} (f : A -> result B) (P : A -> B -> Prop) l :
  (forall x, x ∈ l -> exists y, f x = Ok y /\ P x y) ->
  exists ys, rmapM f l = Ok ys /\ Forall2 P l ys.
Proof.
  induction l as [|x l IH]; intros Hf; simpl; [exists []; split; constructor|].
  destruct (Hf x ltac:(by left)) as (y & -> & Hy). simpl.
  destruct IH as (ys & -> & Hys); [intros x' Hx'; apply Hf; by right|].
  exists (y :: ys). split; [done | by constructor].
Qed.

Lemma qsum_Forall2 {A B} (f : A -> Q) (g : B -> Q) l1 l2 :
  Forall2 (fun x y => f x == g y) l1 l2 -> qsum (map f l1) == qsum (map g l2).
Proof. induction 1 as [|x y l1 l2 Hxy _ IH]; simpl; [reflexivity | rewrite Hxy, IH; reflexivity]. Qed.

Lemma qsum_map_scale {A} (c : Q) (f : A -> Q) l :
  qsum (map (fun x => c * f x) l) == c * qsum (map f l).
Proof. rewrite <- qsum_scale, map_map. reflexivity. Qed.

(** A list of values read back by index. *)
Lemma map_lookup_seq {A} (d : A) (l : list A) :
  map (fun j => default d (l !! j)) (seq 0 (length l)) = l.
Proof.
  apply list_eq. intros i. rewrite list_lookup_fmap.
  destruct (decide (i < length l)%nat) as [Hi|Hi].
  - rewrite lookup_seq_lt by done. simpl.
    destruct (lookup_lt_is_Some_2 l i Hi) as [x ->]. done.
  - rewrite lookup_seq_ge by lia. simpl. symmetry. apply lookup_ge_None. lia.
Qed.

Lemma StronglySorted_app {A} (R : A -> A -> Prop) l1 l2 :
  StronglySorted R l1 -> StronglySorted R l2 ->
  (forall x y, x ∈ l1 -> y ∈ l2 -> R x y) -> StronglySorted R (l1 ++ l2).
Proof.
  induction 1 as [|x l1 _ IH Hx]; intros H2 HR; simpl; [done|].
  constructor.
  - apply IH; [done|]. intros a b Ha Hb. apply HR; [by right | done].
  - apply Forall_app. split; [done|]. apply Forall_forall. intros y Hy.
    apply HR; [by left | done].
Qed.

Lemma StronglySorted_map_mono {A B} (R : A -> A -> Prop) (R' : B -> B -> Prop) (f : A -> B) l :
  (forall x y, R x y -> R' (f x) (f y)) -> StronglySorted R l -> StronglySorted R' (map f l).
Proof.
  intros HR. induction 1 as [|x l _ IH Hx]; simpl; constructor; [done|].
  apply Forall_fmap, (Forall_impl _ _ _ Hx). intros y. apply HR.
Qed.

(** The indices kept by a filter over [range(s, s + n)] increase. *)
Lemma StronglySorted_filter_seq (p : nat -> bool) s n :
  StronglySorted lt (List.filter p (seq s n)).
Proof.
  revert s. induction n as [|n IH]; intros s; simpl; [constructor|].
  destruct (p s); [constructor|]; [apply IH| |apply IH].
  apply Forall_forall. intros j Hj%list_elem_of_In.
  apply filter_In in Hj as [Hj%in_seq _]. lia.
Qed.

#[export] Instance exn_eq_dec : EqDecision exn.
Proof. solve_decision. Defined.

#[export] Instance result_eq_dec {A} `{EqDecision A} : EqDecision (result A).
Proof. solve_decision. Defined.

Lemma Forall2_Forall_snd {A B} (P : A -> B -> Prop) (R : B -> Prop) l1 l2 :
  Forall2 P l1 l2 -> (forall x y, P x y -> R y) -> Forall R l2.
Proof. induction 1; constructor; eauto. Qed.

(** A loop with a failing iteration fails. *)
Lemma rmapM_Err_elem {A B} (f : A -> result B) l x :
  x ∈ l -> (exists e, f x = Err e) -> exists e, rmapM f l = Err e.
Proof.
  induction l as [|y l IH]; intros Hx Hf; [by apply not_elem_of_nil in Hx|].
  apply elem_of_cons in Hx as [-> | Hx]; simpl.
  - destruct Hf as [e ->]. by exists e.
  - destruct (f y) as [b|e]; simpl; [|by exists e].
    destruct (IH Hx Hf) as [e ->]. by exists e.
Qed.

#[export] Instance Qle_Decision : RelDecision Qle.
Proof. intros x y. destruct (Qlt_le_dec y x) as [H|H]; [right; lra | left; exact H]. Defined.

#[export] Instance Qlt_Decision : RelDecision Qlt.
Proof. intros x y. destruct (Qlt_le_dec x y) as [H|H]; [left; exact H | right; lra]. Defined.

(** Closes a decidable goal about concrete data by evaluation. *)
Ltac decide_concrete := refine (bool_decide_unpack _ _); vm_compute; exact I.

(** Closes the side conditions of a theorem applied to concrete data. *)
Ltac solve_concrete := first [ vm_compute; reflexivity | decide_concrete ].

#[export] Instance Qeq_Decision : RelDecision Qeq.
Proof. intros x y. apply Qeq_dec. Defined.

(** The value of a successful computation ([d] on error); used to name
    the results of concrete runs. *)
Definition ok_or {A} (d : A) (r : result A) : A := match r with Ok a => a | Err _ => d end.

Lemma StronglySorted_seq s n : StronglySorted lt (seq s n).
Proof.
  revert s; induction n as [|n IH]; intros s; simpl; constructor; [apply IH|].
  apply Forall_forall. intros j Hj%list_elem_of_In. apply in_seq in Hj. lia.
Qed.

(** Concatenating sorted blocks taken in a sorted order. *)
Lemma StronglySorted_flat_map {A B} (RA : A -> A -> Prop) (RB : B -> B -> Prop) (f : A -> list B) l :
  StronglySorted RA l -> (forall x, x ∈ l -> StronglySorted RB (f x)) ->
  (forall x y a b, RA x y -> a ∈ f x -> b ∈ f y -> RB a b) ->
  StronglySorted RB (flat_map f l).
Proof.
  induction 1 as [|x l _ IH Hx]; intros Hf Hcross; simpl; [constructor|].
  apply StronglySorted_app.
  - apply Hf. by left.
  - apply IH; [intros y Hy; apply Hf; by right | done].
  - intros a b Ha Hb. apply list_elem_of_In, in_flat_map in Hb as (y & Hy & Hb).
    rewrite Forall_forall in Hx. apply (Hcross x y); [apply Hx; by apply list_elem_of_In | done |].
    by apply list_elem_of_In.
Qed.

Lemma qsum_map_plus {A} (f g : A -> Q) l :
  qsum (map (fun x => f x + g x) l) == qsum (map f l) + qsum (map g l).
Proof. induction l as [|x l IH]; simpl; [lra | rewrite IH; lra]. Qed.

Lemma qsum_map_zero {A} (l : list A) : qsum (map (fun _ => 0) l) == 0.
Proof. induction l as [|x l IH]; simpl; [lra | rewrite IH; lra]. Qed.

(** Among distinct keys, exactly one equals [k0]. *)
Lemma qsum_single_key {B} `{EqDecision B} (K : list B) (k0 : B) (c : Q) :
  NoDup K -> k0 ∈ K -> qsum (map (fun k => if bool_decide (k0 = k) then c else 0) K) == c.
Proof.
  induction K as [|k K IH]; intros Hnd Hin; [by apply not_elem_of_nil in Hin|].
  apply NoDup_cons in Hnd as [Hk Hnd]. simpl. case_bool_decide as Heq.
  - subst k0. rewrite (qsum_map_ext _ (fun _ => 0)); [rewrite qsum_map_zero; lra|].
    intros k' Hk'. rewrite bool_decide_eq_false_2; [reflexivity|].
    intros ->. apply Hk. by apply list_elem_of_In.
  - apply elem_of_cons in Hin as [-> | Hin]; [done|]. rewrite IH by done. lra.
Qed.

(** Summing the per-key sums over distinct keys that cover every element
    sums the whole list. *)
Lemma qsum_partition {A B} `{EqDecision B} (key : A -> B) (w : A -> Q) (K : list B) (l : list A) :
  NoDup K -> (forall x, x ∈ l -> key x ∈ K) ->
  qsum (map (fun k => qsum (map w (List.filter (fun x => bool_decide (key x = k)) l))) K)
    == qsum (map w l).
Proof.
  intros Hnd. induction l as [|x l IH]; intros Hkeys; simpl.
  - apply qsum_map_zero.
  - rewrite (qsum_map_ext _ (fun k => (if bool_decide (key x = k) then w x else 0) +
        qsum (map w (List.filter (fun y => bool_decide (key y = k)) l)))).
    + rewrite qsum_map_plus, qsum_single_key, IH; [reflexivity | | done | apply Hkeys; by left].
      intros y Hy. apply Hkeys. by right.
    + intros k _. case_bool_decide; simpl; lra.
Qed.

Lemma NoDup_map_inj {A B} (f : A -> B) (l : list A) :
  (forall x y, f x = f y -> x = y) -> NoDup l -> NoDup (map f l).
Proof.
  intros Hinj. induction 1 as [|x l Hx _ IH]; simpl; constructor; [|done].
  intros (y & Hxy & Hy)%list_elem_of_fmap. apply Hinj in Hxy as ->. done.
Qed.

(** ** Results up to a relation on values

    [res_rel R] relates two computations that fail with the same
    exception or succeed with values related by [R]; with [R] an
    equivalence coarser than [=] (for instance [Qeq] on entries) it is the
    setoid on which the operations of the development are [Proper]. *)
Definition res_rel {A B} (R : A -> B -> Prop) (r1 : result A) (r2 : result B) : Prop :=
  match r1, r2 with
  | Ok a, Ok b => R a b
  | Err e1, Err e2 => e1 = e2
  | _, _ => False
  end.

Lemma res_rel_refl {A} (R : A -> A -> Prop) r : (forall a, R a a) -> res_rel R r r.
Proof. destruct r; simpl; auto. Qed.

Lemma rbind_res_rel {A B C D} (R : A -> B -> Prop) (S : C -> D -> Prop) c1 c2
    (f : A -> result C) (g : B -> result D) :
  res_rel R c1 c2 -> (forall a b, R a b -> res_rel S (f a) (g b)) ->
  res_rel S (rbind c1 f) (rbind c2 g).
Proof. destruct c1, c2; simpl; intros; subst; auto; done. Qed.

Lemma rmapM_res_rel {A B C} (R : B -> C -> Prop) (f : A -> result B) (g : A -> result C) l :
  (forall x, x ∈ l -> res_rel R (f x) (g x)) -> res_rel (Forall2 R) (rmapM f l) (rmapM g l).
Proof.
  induction l as [|x l IH]; intros Hfg; simpl; [constructor|].
  apply (rbind_res_rel R); [apply Hfg; by left|]. intros a b Hab.
  apply (rbind_res_rel (Forall2 R)); [apply IH; intros y Hy; apply Hfg; by right|].
  intros. simpl. by constructor.
Qed.

(** Two related lists have related entries at the same positions, or
    none. *)
Lemma Forall2_lookup_cases {A B} (R : A -> B -> Prop) l1 l2 i :
  Forall2 R l1 l2 ->
  (l1 !! i = None /\ l2 !! i = None) \/ exists x y, l1 !! i = Some x /\ l2 !! i = Some y /\ R x y.
Proof.
  intros H. destruct (l1 !! i) as [x|] eqn:E1.
  - right. destruct (Forall2_lookup_l _ _ _ _ _ H E1) as (y & Hy & Hxy). eauto.
  - left. split; [done|]. apply lookup_ge_None in E1. apply lookup_ge_None.
    by rewrite <- (Forall2_length _ _ _ H).
Qed.

(** Matrices equal entrywise up to [Qeq]. *)
Definition mat_equiv (M1 M2 : Matrix) : Prop := Forall2 (Forall2 Qeq) M1 M2.

#[export] Instance mat_equiv_Equivalence : Equivalence mat_equiv.
Proof. exact (_ : Equivalence (Forall2 (Forall2 Qeq))). Qed.

Lemma mat_at_equiv M1 M2 i j :
  mat_equiv M1 M2 ->
  (mat_at M1 i j = None /\ mat_at M2 i j = None) \/
  exists x y, mat_at M1 i j = Some x /\ mat_at M2 i j = Some y /\ x == y.
Proof.
  intros H. unfold mat_at.
  destruct (Forall2_lookup_cases _ _ _ i H) as [[-> ->] | (r1 & r2 & -> & -> & Hr)]; [by left|].
  simpl. apply (Forall2_lookup_cases _ _ _ j Hr).
Qed.

(** ** Sums of non-negative terms *)

Lemma qsum_zero_nonneg l :
  Forall (fun x => 0 <= x) l -> qsum l == 0 -> Forall (fun x => x == 0) l.
Proof.
  induction 1 as [|x l Hx Hl IH]; simpl; intros Hs; constructor;
    pose proof (qsum_nonneg _ Hl); [lra | apply IH; lra].
Qed.

Lemma qsum_all_zero l : Forall (fun x => x == 0) l -> qsum l == 0.
Proof. induction 1 as [|x l Hx _ IH]; simpl; lra. Qed.

Lemma Forall_zip_with {A B C} (f : A -> B -> C) (P : A -> Prop) (P' : B -> Prop) (R : C -> Prop) l k :
  (forall x y, P x -> P' y -> R (f x y)) -> Forall P l -> Forall P' k -> Forall R (zip_with f l k).
Proof.
  intros Hf Hl. revert k. induction Hl as [|x l Hx _ IH]; intros k Hk; [constructor|].
  destruct Hk as [|y k Hy Hk]; simpl; constructor; auto.
Qed.

Lemma qsum_zero_iff l :
  Forall (fun x => 0 <= x) l -> qsum l == 0 <-> forall i x, l !! i = Some x -> x == 0.
Proof.
  intros Hl. split.
  - intros H0%qsum_zero_nonneg; [|done]. intros i x Hx. exact (Forall_lookup_1 _ _ _ _ H0 Hx).
  - intros H. by apply qsum_all_zero, Forall_lookup.
Qed.

Lemma products_nonneg (u v : list Q) :
  Forall (fun x => 0 <= x) u -> Forall (fun x => 0 <= x) v -> Forall (fun x => 0 <= x) (zip_with Qmult u v).
Proof. apply Forall_zip_with. intros x y. apply Qmult_le_0_compat. Qed.

Lemma combine_map_fst_snd {A B} (l : list (A * B)) : combine (map fst l) (map snd l) = l.
Proof. induction l as [|[x y] l IH]; simpl; [done | by rewrite IH]. Qed.

(** Summing over the elements two related lists keep. *)
Lemma Forall2_filter_sum {A B} (p : A -> bool) (q : B -> bool) (f : A -> Q) (g : B -> Q) l1 l2 :
  Forall2 (fun x y => p x = q y /\ f x == g y) l1 l2 ->
  qsum (map f (List.filter p l1)) == qsum (map g (List.filter q l2)).
Proof.
  induction 1 as [|x y l1 l2 [Hpq Hfg] _ IH]; [reflexivity|]. cbn [List.filter].
  rewrite Hpq. destruct (q y); cbn [map]; rewrite ?qsum_cons, IH, ?Hfg; reflexivity.
Qed.

Lemma NoDup_map_filter {A B} (f : A -> B) (p : A -> bool) l :
  NoDup (map f l) -> NoDup (map f (List.filter p l)).
Proof.
  induction l as [|x l IH]; intros Hnd; [constructor|]. cbn [map] in Hnd.
  apply NoDup_cons in Hnd as [Hx Hnd]. cbn [List.filter]. destruct (p x); cbn [map]; [|by apply IH].
  constructor; [|by apply IH]. intros (y & Hy & Hin)%list_elem_of_fmap. apply Hx.
  apply list_elem_of_fmap. exists y. split; [done|].
  apply list_elem_of_In. apply list_elem_of_In, filter_In in Hin. tauto.
Qed.

(** Exchanging two finite sums. *)
Lemma qsum_map_swap {A B} (f : A -> B -> Q) (rs : list A) (js : list B) :
  qsum (map (fun r => qsum (map (f r) js)) rs) == qsum (map (fun j => qsum (map (fun r => f r j) rs)) js).
Proof.
  induction rs as [|r rs IH]; cbn [map].
  - rewrite qsum_nil. symmetry. apply qsum_map_zero.
  - rewrite qsum_cons, IH, <- qsum_map_plus. apply qsum_map_ext. intros j _. reflexivity.
Qed.

(** Among distinct positions, one is selected. *)
Lemma qsum_select_one {B} `{EqDecision B} (c : B -> Q) (l : list B) x :
  NoDup l -> x ∈ l -> qsum (map (fun j => if bool_decide (j = x) then c j else 0) l) == c x.
Proof.
  induction l as [|y l IH]; intros Hnd Hin; [by apply not_elem_of_nil in Hin|].
  apply NoDup_cons in Hnd as [Hy Hnd]. cbn [map]. rewrite qsum_cons. case_bool_decide as Heq.
  - subst y. rewrite (qsum_map_ext _ (fun _ => 0)); [rewrite qsum_map_zero; lra|].
    intros j Hj. rewrite bool_decide_eq_false_2; [reflexivity|]. intros ->. by apply Hy, list_elem_of_In.
  - apply elem_of_cons in Hin as [-> | Hin]; [done|]. rewrite IH by done. lra.
Qed.
