(* ===== verification/Config.v ===== *)
(** * Config: the run parameters of transport.py (lines 13-46)

    The year chooses the input files: DINA files stop in 2019, the SCF is
    matched only from 1989 on.  The cell columns and the two column
    dictionaries are module constants in the code; Python dictionaries
    keep insertion order, so they are association lists here, and
    [paired_columns] is the comprehension
    [[matching[col] for col in list(matching.keys())]]. *)

From S2P Require Import Prelude.
From stdpp Require Import pretty.

(** [dina_file], [cps_file], [scf_file] (lines 16-21). *)
Definition dina_file (year : Z) : string :=
  "dina/usdina" +:+ pretty (Z.min year 2019) +:+ ".csv".

Definition cps_file (year : Z) : string :=
  "cps/cps" +:+ pretty year +:+ ".csv".

Definition scf_file (year : Z) : option string :=
  if (1989 <=? year)%Z then Some ("scf/scf" +:+ pretty (Z.min year 2019) +:+ ".csv")
  else None.

(** Line 184: the output file. *)
Definition match_file (year : Z) : string :=
  "match/match-" +:+ pretty year +:+ ".csv".

(** Line 24. *)
Definition cells : list string := ["married"; "old"; "employed"].

(** Lines 27-36. *)
Definition matching_cps : list (string * string) :=
  [("dina_wage", "cps_wage"); ("dina_pens", "cps_pens"); ("dina_bus", "cps_bus");
   ("dina_int", "cps_int"); ("dina_drt", "cps_drt"); ("dina_gov", "cps_gov");
   ("dina_ss", "cps_ss"); ("dina_welfr", "cps_welfr")].

(** Lines 37-46. *)
Definition matching_scf : list (string * string) :=
  [("dina_wage", "scf_wage"); ("dina_pens_ss", "scf_pens_ss"); ("dina_bus", "scf_bus");
   ("dina_intdivrt", "scf_intdivrt"); ("dina_kg", "scf_kg");
   ("dina_wfinbus", "scf_wfinbus"); ("dina_whou", "scf_whou"); ("dina_wdeb", "scf_wdeb")].

(** [d[k]] on a dictionary. *)
Fixpoint dict_get (d : list (string * string)) (k : string) : result string :=
  match d with
  | [] => Err (KeyErrorColumn k)
  | (k', v) :: d' => if decide (k = k') then Ok v else dict_get d' k
  end.

(** [dina_cols = list(d.keys())] and [other_cols = [d[c] for c in dina_cols]]
    (lines 83-84 and 125-126). *)
Definition paired_columns (d : list (string * string)) : result (list string * list string) :=
  let dina_cols := map fst d in
  let* other := rmapM (dict_get d) dina_cols in
  Ok (dina_cols, other).

Lemma dict_get_first d k v :
  (k, v) ∈ d -> NoDup (map fst d) -> dict_get d k = Ok v.
Proof.
  induction d as [|[k' v'] d IH]; simpl; intros Hin Hnd; [by apply not_elem_of_nil in Hin|].
  apply NoDup_cons in Hnd as [Hk' Hnd].
  apply elem_of_cons in Hin as [[= -> ->] | Hin]; case_decide; subst; try done.
  - exfalso. apply Hk'. apply list_elem_of_fmap. by exists (k', v).
  - by apply IH.
Qed.

Lemma matching_cps_keys_NoDup : NoDup (map fst matching_cps).
Proof. apply (bool_decide_unpack _ (dec := NoDup_dec _)). vm_compute. reflexivity. Qed.

Lemma matching_scf_keys_NoDup : NoDup (map fst matching_scf).
Proof. apply (bool_decide_unpack _ (dec := NoDup_dec _)). vm_compute. reflexivity. Qed.

(** For a dictionary with distinct keys, [list(d.keys())] and the
    comprehension [[d[c] for c in dina_cols]] never raise, and pair every
    key with its own value, in insertion order. *)
Lemma paired_columns_ok d :
  NoDup (map fst d) -> paired_columns d = Ok (map fst d, map snd d).
Proof.
  intros Hnd. unfold paired_columns.
  assert (forall l, (forall kv, kv ∈ l -> kv ∈ d) ->
            rmapM (dict_get d) (map fst l) = Ok (map snd l)) as Hl.
  { induction l as [|[k v] l IH]; intros Hsub; simpl; [done|].
    rewrite (dict_get_first d k v) by (done || apply Hsub; set_solver). simpl.
    rewrite IH by (intros kv Hkv; apply Hsub; set_solver). done. }
  by rewrite Hl.
Qed.
