(* ===== verification/Frame.v ===== *)
(** * Frame: the pandas data frames of transport.py

    A frame read by [pd.read_csv] has a list of column names and a list of
    rows; every row carries the [id] and [weight] columns the code reads
    with [df['id'].iat[i]] and [df['weight'].to_numpy()], and a map from
    the other column names to their values.  A missing value of a declared
    column (NaN) is outside the loader's contract (spec, section 6): the
    well-formedness predicate [frame_wf] says every row has every column.

    Operations: [loc_matrix] is [df.loc[:, cols].to_numpy()] (a
    [KeyError] when a column is absent, raised before any row is read),
    [iloc] is [df.iloc[positions, :]], [weights], [ids], [col_iat]. *)

From S2P Require Import Prelude.
From stdpp Require Import gmap.

Record Row := mkRow {
  row_id : Z;
  row_weight : Q;
  row_vals : gmap string Q
}.

Record Frame := mkFrame {
  columns : list string;
  rows : list Row
}.

(** Every row has a value for every declared column. *)
Definition frame_wf (f : Frame) : Prop :=
  Forall (fun r => forall c, c ∈ columns f -> is_Some (row_vals r !! c)) (rows f).

(** [df[c]] on a single row: the value of the column, [KeyError] if the
    row has none. *)
Definition row_get (r : Row) (c : string) : result Q :=
  match row_vals r !! c with
  | Some v => Ok v
  | None => Err (KeyErrorColumn c)
  end.

(** pandas checks the requested labels against the columns first. *)
Definition check_columns (f : Frame) (cols : list string) : result unit :=
  match List.find (fun c => negb (bool_decide (c ∈ columns f))) cols with
  | Some c => Err (KeyErrorColumn c)
  | None => Ok tt
  end.

(** [df.loc[:, cols].to_numpy()]: one vector per row, in [cols] order. *)
Definition loc_matrix (f : Frame) (cols : list string) : result (list (list Q)) :=
  let* _ := check_columns f cols in
  rmapM (fun r => rmapM (row_get r) cols) (rows f).

(** [df.iloc[positions, :]]: the rows at the given positions, in order. *)
Definition iloc (f : Frame) (ps : list nat) : result Frame :=
  let* rs := rmapM (nth_r (rows f)) ps in
  Ok (mkFrame (columns f) rs).

(** [df['weight'].to_numpy()] and [df['id']]. *)
Definition weights (f : Frame) : list Q := map row_weight (rows f).
Definition ids (f : Frame) : list Z := map row_id (rows f).

(** [df[c].iat[i]]: [KeyError] for an unknown column, [IndexError] out of
    range. *)
Definition col_iat (f : Frame) (c : string) (i : nat) : result Q :=
  if bool_decide (c ∈ columns f) then
    let* r := nth_r (rows f) i in row_get r c
  else Err (KeyErrorColumn c).

(** ** Lemmas *)

Lemma check_columns_Ok f cols :
  check_columns f cols = Ok tt <-> Forall (fun c => c ∈ columns f) cols.
Proof.
  unfold check_columns. rewrite Forall_forall.
  destruct (List.find _ cols) as [c|] eqn:E.
  - apply find_some in E as [Hin Hc]. apply negb_true_iff, bool_decide_eq_false in Hc.
    split; [discriminate | intros H; exfalso; apply Hc, H, list_elem_of_In, Hin].
  - split; [|done]. intros _ c Hc%list_elem_of_In.
    pose proof (find_none _ _ E c Hc) as Hn.
    apply negb_false_iff, bool_decide_eq_true in Hn. exact Hn.
Qed.

Lemma check_columns_Err f cols c :
  check_columns f cols = Err (KeyErrorColumn c) ->
  c ∈ cols /\ c ∉ columns f.
Proof.
  unfold check_columns. destruct (List.find _ cols) as [c'|] eqn:E; [|discriminate].
  intros [= <-]. apply find_some in E as [Hin Hc].
  apply negb_true_iff, bool_decide_eq_false in Hc.
  split; [by apply list_elem_of_In | done].
Qed.

Lemma row_get_Some r c (Hc : is_Some (row_vals r !! c)) :
  exists v, row_vals r !! c = Some v /\ row_get r c = Ok v.
Proof. destruct Hc as [v Hv]. exists v. unfold row_get. by rewrite Hv. Qed.

(** On a well-formed frame, selecting present columns succeeds and yields
    one vector of [length cols] values per row. *)
Lemma loc_matrix_wf f cols :
  frame_wf f -> Forall (fun c => c ∈ columns f) cols ->
  exists X, loc_matrix f cols = Ok X /\ length X = length (rows f) /\
    Forall2 (fun r x => Forall2 (fun c v => row_vals r !! c = Some v) cols x) (rows f) X.
Proof.
  intros Hwf Hcols. unfold loc_matrix.
  rewrite (proj2 (check_columns_Ok f cols) Hcols). simpl.
  unfold frame_wf in Hwf. induction Hwf as [|r rs Hr _ IH]; simpl.
  - exists []. repeat split; constructor.
  - assert (exists x, rmapM (row_get r) cols = Ok x /\
              Forall2 (fun c v => row_vals r !! c = Some v) cols x) as (x & Hx & Hxs).
    { clear IH. induction Hcols as [|c cols Hc _ IHc]; simpl.
      - exists []. split; constructor.
      - destruct (row_get_Some r c (Hr c Hc)) as (v & Hv & ->). simpl.
        destruct IHc as (x & -> & Hx). exists (v :: x). split; [done | by constructor]. }
    destruct IH as (X & HX & Hlen & HX2). rewrite Hx. simpl. rewrite HX. simpl.
    exists (x :: X). repeat split; [simpl; lia | by constructor].
Qed.

Lemma loc_matrix_row_length f cols X :
  loc_matrix f cols = Ok X -> Forall (fun x => length x = length cols) X.
Proof.
  unfold loc_matrix. intros H. inv_ok.
  apply rmapM_Ok_Forall2 in H. induction H as [|r x rs X Hx _ IH]; constructor; [|done].
  by apply rmapM_Ok_length in Hx.
Qed.

(** A position list within range selects exactly those rows. *)
Lemma iloc_in_range f ps :
  Forall (fun p => p < length (rows f))%nat ps ->
  exists g, iloc f ps = Ok g /\ columns g = columns f /\
    Forall2 (fun p r => rows f !! p = Some r) ps (rows g).
Proof.
  intros Hps. unfold iloc.
  assert (exists rs, rmapM (nth_r (rows f)) ps = Ok rs /\
            Forall2 (fun p r => rows f !! p = Some r) ps rs) as (rs & -> & Hrs).
  { induction Hps as [|p ps Hp _ IH]; simpl.
    - exists []. split; constructor.
    - destruct (nth_r_lt _ _ Hp) as [r Hr]. rewrite Hr. simpl.
      destruct IH as (rs & -> & Hrs). exists (r :: rs). split; [done|].
      constructor; [by apply nth_r_lookup | done]. }
  simpl. eexists. split; [reflexivity | split; [done | exact Hrs]].
Qed.

Lemma iloc_wf f ps g : frame_wf f -> iloc f ps = Ok g -> frame_wf g.
Proof.
  unfold iloc, frame_wf. intros Hwf H. inv_ok. simpl.
  apply rmapM_Ok_Forall2 in Ha. rewrite Forall_forall. intros r Hr.
  apply list_elem_of_lookup in Hr as [i Hi].
  destruct (Forall2_lookup_r _ _ _ _ _ Ha Hi) as (p & _ & Hp).
  apply nth_r_lookup, list_elem_of_lookup_2 in Hp.
  rewrite Forall_forall in Hwf. by apply Hwf.
Qed.

#[export] Hint Resolve iloc_wf : match_db.

(** [df[c].iat[i]] on a well-formed frame reads the row's value. *)
Lemma col_iat_wf f c i r :
  frame_wf f -> c ∈ columns f -> rows f !! i = Some r ->
  exists v, row_vals r !! c = Some v /\ col_iat f c i = Ok v.
Proof.
  intros Hwf Hc Hr. unfold frame_wf in Hwf. rewrite Forall_lookup in Hwf.
  destruct (row_get_Some r c (Hwf i r Hr c Hc)) as (v & Hv & Hget).
  exists v. split; [done|]. unfold col_iat. rewrite bool_decide_eq_true_2 by done.
  rewrite (proj2 (nth_r_lookup _ _ _) Hr). simpl. exact Hget.
Qed.

(** The only error [df[c].iat[i]] raises at an in-range row is [KeyError]. *)
Lemma col_iat_in_range f c i :
  (i < length (rows f))%nat ->
  (exists v, col_iat f c i = Ok v) \/ col_iat f c i = Err (KeyErrorColumn c).
Proof.
  intros Hi. unfold col_iat. case_bool_decide; [|by right].
  destruct (nth_r_lt _ _ Hi) as [r ->]. simpl. unfold row_get.
  destruct (row_vals r !! c); [left; by eexists | by right].
Qed.

(** [frame_wf] is decidable, so concrete frames are checked by [decide]. *)
Lemma frame_wf_alt f :
  frame_wf f <-> Forall (fun r => Forall (fun c => is_Some (row_vals r !! c)) (columns f)) (rows f).
Proof.
  unfold frame_wf. split; intros H; eapply Forall_impl; try exact H; simpl;
    intros r Hr; [apply Forall_forall; auto | intros c Hc; by apply (proj1 (Forall_forall _ _) Hr)].
Qed.

#[export] Instance frame_wf_dec f : Decision (frame_wf f).
Proof. destruct (decide (Forall (fun r => Forall (fun c => is_Some (row_vals r !! c)) (columns f)) (rows f)));
  [left | right]; by rewrite frame_wf_alt. Defined.

(** ** Toy frames (spec, section 8)

    DINA has three records of weights [1, 1, 2] and matching variable
    [0, 1, 2], CPS two of weights [2, 1] and variable [0, 2], SCF two of
    weights [1, 2] and variable [1, 2], all in the cell
    (married, old, employed) = (1, 0, 1).  [dina2] adds a DINA record in
    the cell (0, 0, 1), which neither survey has.  The witnesses of the
    theorems run on them. *)
Module Toy.
Local Open Scope Q_scope.

Definition row (id : Z) (w : Q) (vals : list (string * Q)) : Row := mkRow id w (list_to_map vals).
Definition cell101 : list (string * Q) := [("married", 1); ("old", 0); ("employed", 1)].
Definition cell001 : list (string * Q) := [("married", 0); ("old", 0); ("employed", 1)].

Definition dina : Frame := mkFrame ["married"; "old"; "employed"; "dina_v"]
  [row 1 1 (("dina_v", 0) :: cell101); row 2 1 (("dina_v", 1) :: cell101);
   row 3 2 (("dina_v", 2) :: cell101)].
Definition dina2 : Frame := mkFrame (columns dina) (rows dina ++ [row 4 5 (("dina_v", 1) :: cell001)]).
Definition cps : Frame := mkFrame ["married"; "old"; "employed"; "cps_v"]
  [row 11 2 (("cps_v", 0) :: cell101); row 12 1 (("cps_v", 2) :: cell101)].
Definition scf : Frame := mkFrame ["married"; "old"; "employed"; "scf_v"]
  [row 21 1 (("scf_v", 1) :: cell101); row 22 2 (("scf_v", 2) :: cell101)].

End Toy.
