(* ===== verification/Groupby.v ===== *)
(** * Groupby: [df.groupby(cells).groups] (transport.py lines 61-64)

    [.groups] is a dictionary from the tuple of cell values to the row
    labels of the rows that have it; frames read by [read_csv] have the
    default integer index, so the labels are the positions that the code
    then passes to [iloc] (lines 70-73).  pandas sorts the keys
    ([sort=True]) and lists the positions of a group in increasing order.
    A key is the list of the cell values; values are compared as numbers,
    so each is stored in its [Qred] normal form, where [Qeq] is [=].

    The model: [row_key] reads the cell columns of a row ([None] when a
    value is missing, a NaN in pandas), [groupby] checks the columns
    ([KeyError] for an absent one), computes all keys, sorts the distinct
    keys lexicographically ([key_le], stdpp's [merge_sort]) and pairs
    every key with its positions ([group_dict]); a row without a key lies
    in no group, pandas' default [dropna=True].  [groups_get] is the dictionary lookup
    [groups[key]], which raises [KeyError] for an absent key. *)

From S2P Require Import Prelude Config Frame.
From stdpp Require Import sorting.

Definition Key := list Q.

(** The key of a row: its values in the cell columns, or [None] when one
    of them is missing (a NaN in pandas). *)
Definition row_key (cells : list string) (r : Row) : option Key :=
  mapM (fun c => Qred <$> row_vals r !! c) cells.

(** Lexicographic order on tuples of numbers. *)
Fixpoint key_leb (k1 k2 : Key) : bool :=
  match k1, k2 with
  | [], _ => true
  | _ :: _, [] => false
  | x :: xs, y :: ys =>
      if Qlt_le_dec x y then true
      else if Qeq_bool x y then key_leb xs ys else false
  end.

Definition key_le (k1 k2 : Key) : Prop := key_leb k1 k2 = true.

#[export] Instance key_le_dec : RelDecision key_le.
Proof. intros k1 k2. unfold key_le. apply _. Defined.

Definition Groups := list (Key * list nat).

(** The positions whose key is [k], in increasing order. *)
Definition group_positions (keys : list (option Key)) (k : Key) : list nat :=
  List.filter (fun i => bool_decide (keys !! i = Some (Some k))) (seq 0 (length keys)).

(** The dictionary [.groups]: the distinct keys in sorted order, each
    with its positions; a row without a key lies in no group (pandas'
    default [dropna=True]). *)
Definition group_dict (keys : list (option Key)) : Groups :=
  map (fun k => (k, group_positions keys k)) (merge_sort key_le (remove_dups (omap id keys))).

Definition groupby (f : Frame) (cells : list string) : result Groups :=
  let* _ := check_columns f cells in
  Ok (group_dict (map (row_key cells) (rows f))).

(** [groups[k]]. *)
Fixpoint groups_get (g : Groups) (k : Key) : result (list nat) :=
  match g with
  | [] => Err (KeyErrorCell k)
  | (k', ps) :: g' => if decide (k = k') then Ok ps else groups_get g' k
  end.

(** ** The order on keys *)

Lemma key_le_total : Total key_le.
Proof.
  unfold key_le. intros k1; induction k1 as [|x xs IH]; intros [|y ys]; simpl; auto.
  destruct (Qlt_le_dec x y) as [Hxy|Hxy]; [by left|].
  destruct (Qlt_le_dec y x) as [Hyx|Hyx]; [by right|].
  assert (x == y) as Heq by lra.
  rewrite (Qeq_eq_bool _ _ Heq), (Qeq_eq_bool y x) by lra. apply IH.
Qed.

(** ** Lemmas on the computed keys and positions *)

Lemma group_positions_spec keys k i :
  i ∈ group_positions keys k <-> keys !! i = Some (Some k).
Proof.
  unfold group_positions. rewrite list_elem_of_In, filter_In, in_seq.
  rewrite bool_decide_eq_true. split; [tauto|].
  intros Hi. split; [|done]. apply lookup_lt_Some in Hi. lia.
Qed.

Lemma group_positions_sorted keys k : StronglySorted lt (group_positions keys k).
Proof. apply StronglySorted_filter_seq. Qed.

Lemma groupby_Ok f cells g :
  groupby f cells = Ok g ->
  Forall (fun c => c ∈ columns f) cells /\ g = group_dict (map (row_key cells) (rows f)).
Proof.
  unfold groupby. rewrite <- check_columns_Ok.
  destruct (check_columns f cells) as [[]|e]; simpl; [by intros [= <-] | discriminate].
Qed.

Lemma group_dict_fst keys :
  map fst (group_dict keys) = merge_sort key_le (remove_dups (omap id keys)).
Proof. unfold group_dict. rewrite map_map. apply map_id. Qed.

Lemma group_dict_key keys k :
  k ∈ merge_sort key_le (remove_dups (omap id keys)) <-> Some k ∈ keys.
Proof.
  rewrite (merge_sort_Permutation _ _), elem_of_remove_dups, list_elem_of_omap.
  split; [intros (x & Hx & Hxk); unfold id in Hxk; by subst | intros Hk; by exists (Some k)].
Qed.

Lemma group_dict_elem keys k ps :
  (k, ps) ∈ group_dict keys <-> Some k ∈ keys /\ ps = group_positions keys k.
Proof.
  unfold group_dict. rewrite list_elem_of_fmap, <- group_dict_key. split.
  - by intros (k' & [= <- <-] & Hk).
  - intros [Hk ->]. by exists k.
Qed.

Lemma groupby_keys_NoDup keys : NoDup (merge_sort key_le (remove_dups (omap id keys))).
Proof. rewrite (merge_sort_Permutation _ _). apply NoDup_remove_dups. Qed.

Lemma groups_get_elem (g : Groups) k ps :
  NoDup (map fst g) -> (k, ps) ∈ g -> groups_get g k = Ok ps.
Proof.
  induction g as [|[k' ps'] g IH]; simpl; intros Hnd Hin; [by apply not_elem_of_nil in Hin|].
  apply NoDup_cons in Hnd as [Hk' Hnd].
  apply elem_of_cons in Hin as [[= -> ->] | Hin]; case_decide; subst; try done.
  - exfalso. apply Hk'. apply list_elem_of_fmap. by exists (k', ps).
  - by apply IH.
Qed.

Lemma groups_get_none (g : Groups) k :
  k ∉ map fst g -> groups_get g k = Err (KeyErrorCell k).
Proof.
  induction g as [|[k' ps'] g IH]; simpl; intros Hk; [done|].
  case_decide as Heq; [subst; exfalso; apply Hk; by left|].
  apply IH. intros Hin. apply Hk. by right.
Qed.

Lemma groups_get_Ok (g : Groups) k ps :
  groups_get g k = Ok ps -> (k, ps) ∈ g.
Proof.
  induction g as [|[k' ps'] g IH]; simpl; [discriminate|].
  case_decide; subst; [intros [= ->]; by left | intros Hg; right; auto].
Qed.

(** The keys computed for the rows, position by position. *)
Lemma row_keys_lookup (rs : list Row) cells i k :
  map (row_key cells) rs !! i = Some (Some k) <-> exists r, rs !! i = Some r /\ row_key cells r = Some k.
Proof.
  rewrite list_lookup_fmap. destruct (rs !! i) as [r|]; simpl; split.
  - intros [= Hk]. by exists r.
  - by intros (r' & [= <-] & ->).
  - discriminate.
  - by intros (r' & ? & _).
Qed.

(** C20: [groupby] partitions the rows that have a key: the keys are
    distinct and sorted; each group is a nonempty increasing list of
    positions, exactly those of the rows whose cell values form its key;
    every row with all its cell values lies in the group of its key, and a
    row with a missing cell value lies in no group ([dropna=True]). *)
Theorem groupby_partition f cells g :
  groupby f cells = Ok g ->
  NoDup (map fst g) /\ Sorted key_le (map fst g) /\
  (forall k ps, (k, ps) ∈ g ->
     ps <> [] /\ StronglySorted lt ps /\
     forall i, i ∈ ps <-> exists r, rows f !! i = Some r /\ row_key cells r = Some k) /\
  (forall i r k, rows f !! i = Some r -> row_key cells r = Some k -> exists ps, (k, ps) ∈ g /\ i ∈ ps) /\
  (forall i r, rows f !! i = Some r -> row_key cells r = None -> forall k ps, (k, ps) ∈ g -> i ∉ ps).
Proof.
  intros (_ & ->)%groupby_Ok. rewrite group_dict_fst.
  split; [apply groupby_keys_NoDup|]. split; [apply Sorted_merge_sort, key_le_total|].
  split_and!.
  - intros k ps [Hk ->]%group_dict_elem. apply list_elem_of_lookup in Hk as [i Hi].
    split_and!; [| apply group_positions_sorted | intros j; by rewrite group_positions_spec, row_keys_lookup].
    intros Hnil. assert (i ∈ group_positions (map (row_key cells) (rows f)) k) as Hin
      by by apply group_positions_spec. rewrite Hnil in Hin. by apply not_elem_of_nil in Hin.
  - intros i r k Hr Hk. exists (group_positions (map (row_key cells) (rows f)) k).
    rewrite group_dict_elem, group_positions_spec, row_keys_lookup, list_elem_of_lookup.
    split_and!; [exists i; apply row_keys_lookup | done |]; eauto.
  - intros i r Hr Hn k ps [_ ->]%group_dict_elem Hin.
    apply group_positions_spec, row_keys_lookup in Hin as (r' & Hr' & Hk). congruence.
Qed.

(** [groupby] fails exactly on a missing cell column, before reading rows. *)
Lemma groupby_missing_column f cells c :
  c ∈ cells -> c ∉ columns f ->
  exists c', groupby f cells = Err (KeyErrorColumn c') /\ c' ∈ cells /\ c' ∉ columns f.
Proof.
  intros Hc Hnc. unfold groupby, check_columns.
  destruct (List.find _ cells) as [c'|] eqn:E.
  { exists c'. apply find_some in E as [Hin Hp]. apply negb_true_iff, bool_decide_eq_false in Hp.
    split_and!; [done | by apply list_elem_of_In | done]. }
  apply list_elem_of_In in Hc. apply (find_none _ _ E) in Hc.
  apply negb_false_iff, bool_decide_eq_true in Hc. contradiction.
Qed.

Lemma row_key_wf f cells r :
  frame_wf f -> r ∈ rows f -> Forall (fun c => c ∈ columns f) cells ->
  exists k, row_key cells r = Some k.
Proof.
  intros Hwf Hr Hcells. unfold frame_wf in Hwf. rewrite Forall_forall in Hwf.
  specialize (Hwf r Hr). unfold row_key.
  induction Hcells as [|c cells Hc _ IH]; simpl; [by eexists|].
  destruct (Hwf c Hc) as [v ->]. destruct IH as [k ->]. by eexists.
Qed.

(** Once the cell columns are present, [groupby] succeeds. *)
Lemma groupby_wf f cells :
  Forall (fun c => c ∈ columns f) cells -> exists g, groupby f cells = Ok g.
Proof. intros Hcells. unfold groupby. rewrite (proj2 (check_columns_Ok _ _) Hcells). by eexists. Qed.

(** In a well-formed frame every row has a key: no row is dropped. *)
Lemma groupby_all_keys f cells g :
  frame_wf f -> groupby f cells = Ok g -> forall r, r ∈ rows f -> exists k, row_key cells r = Some k.
Proof. intros Hwf (Hc & _)%groupby_Ok r Hr. by apply (row_key_wf f). Qed.

(** The DINA file of [Frame.Toy] with one more row that has no [old]
    value. *)
Definition dina_na : Frame :=
  mkFrame (columns Toy.dina2) (rows Toy.dina2 ++ [Toy.row 5 1 [("married", 0%Q); ("employed", 1%Q); ("dina_v", 0%Q)]]).

Lemma groupby_partition_witness :
  exists g, groupby dina_na cells = Ok g /\
  NoDup (map fst g) /\ Sorted key_le (map fst g) /\
  (forall k ps, (k, ps) ∈ g ->
     ps <> [] /\ StronglySorted lt ps /\
     forall i, i ∈ ps <-> exists r, rows dina_na !! i = Some r /\ row_key cells r = Some k) /\
  (forall i r k, rows dina_na !! i = Some r -> row_key cells r = Some k -> exists ps, (k, ps) ∈ g /\ i ∈ ps) /\
  (forall i r, rows dina_na !! i = Some r -> row_key cells r = None -> forall k ps, (k, ps) ∈ g -> i ∉ ps).
Proof.
  exists (ok_or [] (groupby dina_na cells)).
  assert (groupby dina_na cells = Ok (ok_or [] (groupby dina_na cells))) as Hg by (vm_compute; reflexivity).
  split; [exact Hg | exact (groupby_partition _ _ _ Hg)].
Defined.
