(* ===== verification/Cost.v ===== *)
(** * Cost: the city-block cost matrix (transport.py lines 83-91, 142-148)

    [cdist(XA, XB, 'cityblock')] returns the matrix whose entry [(i, j)]
    is the sum over the columns of [|XA[i,k] - XB[j,k]|]; scipy raises
    [ValueError] when the two arrays have different numbers of columns.
    [cost_matrix] composes it with the two [.loc] selections as the code
    does, so a missing column raises [KeyError] before any entry is
    computed.  [.astype(np.float64)] is the identity on the model. *)

From S2P Require Import Prelude Frame.

Definition cityblock (u v : list Q) : Q :=
  qsum (zip_with (fun a b => Qabs (a - b)) u v).

Definition cdist_cityblock (XA XB : Matrix) (da db : nat) : result Matrix :=
  if decide (da = db) then Ok (map (fun u => map (cityblock u) XB) XA)
  else Err (ValueError "XA and XB must have the same number of columns").

(** [cdist(fa.loc[:, cols_a].to_numpy(), fb.loc[:, cols_b].to_numpy(),
    'cityblock')]. *)
Definition cost_matrix (fa fb : Frame) (cols_a cols_b : list string) : result Matrix :=
  let* XA := loc_matrix fa cols_a in
  let* XB := loc_matrix fb cols_b in
  cdist_cityblock XA XB (length cols_a) (length cols_b).

(** The specification of an entry (spec, section 4.2): the sum over the
    declared column pairs of the absolute differences. *)
Definition pair_dist (ra rb : Row) (pairs : list (string * string)) : Q :=
  qsum (map (fun '(ca, cb) =>
    Qabs (default 0 (row_vals ra !! ca) - default 0 (row_vals rb !! cb))) pairs).

(** Two rows agree on the declared column pairs. *)
Definition same_values (pairs : list (string * string)) (ra rb : Row) : Prop :=
  Forall (fun '(ca, cb) => default 0 (row_vals ra !! ca) == default 0 (row_vals rb !! cb)) pairs.

(** ** Algebra of the city-block distance *)

Lemma cityblock_nil_l v : cityblock [] v = 0.
Proof. reflexivity. Qed.

Lemma cityblock_cons a u b v : cityblock (a :: u) (b :: v) = Qabs (a - b) + cityblock u v.
Proof. reflexivity. Qed.

Lemma cityblock_nonneg u v : 0 <= cityblock u v.
Proof.
  revert v; induction u as [|a u IH]; intros [|b v]; try (unfold cityblock; simpl; lra).
  rewrite cityblock_cons. specialize (IH v). pose proof (Qabs_nonneg (a - b)). lra.
Qed.

Lemma cityblock_refl u : cityblock u u == 0.
Proof.
  induction u as [|a u IH]; [reflexivity|].
  rewrite cityblock_cons, IH. setoid_replace (a - a) with 0 using relation Qeq by lra. reflexivity.
Qed.

Lemma cityblock_comm u v : cityblock u v == cityblock v u.
Proof.
  revert v; induction u as [|a u IH]; intros [|b v]; try reflexivity.
  rewrite !cityblock_cons, IH, Qabs_Qminus. reflexivity.
Qed.

Lemma cityblock_app p1 p2 u v :
  length p1 = length p2 -> cityblock (p1 ++ u) (p2 ++ v) == cityblock p1 p2 + cityblock u v.
Proof.
  revert p2; induction p1 as [|a p1 IH]; intros [|b p2] Hlen; simpl in Hlen; try lia.
  - rewrite cityblock_nil_l. simpl. lra.
  - simpl app. rewrite !cityblock_cons, IH by lia. lra.
Qed.

Lemma cityblock_triangle u v w :
  length u = length v -> length v = length w ->
  cityblock u w <= cityblock u v + cityblock v w.
Proof.
  revert v w; induction u as [|a u IH]; intros [|b v] [|c w] H1 H2; simpl in *; try lia.
  - unfold cityblock; simpl; lra.
  - rewrite !cityblock_cons.
    pose proof (Qabs_triangle (a - b) (b - c)) as T.
    setoid_replace (a - b + (b - c)) with (a - c) using relation Qeq in T by lra.
    specialize (IH v w ltac:(lia) ltac:(lia)). lra.
Qed.

#[export] Hint Resolve cityblock_nonneg : match_db.

(** ** The cost matrix *)

Lemma cdist_cityblock_Ok XA XB d :
  cdist_cityblock XA XB d d = Ok (map (fun u => map (cityblock u) XB) XA).
Proof. unfold cdist_cityblock. by rewrite decide_True. Qed.

Lemma cdist_at XA XB i j c :
  mat_at (map (fun u => map (cityblock u) XB) XA) i j = Some c <->
  exists u v, XA !! i = Some u /\ XB !! j = Some v /\ c = cityblock u v.
Proof.
  rewrite mat_at_Some. setoid_rewrite list_lookup_fmap. split.
  - intros (row & Hrow & Hc). destruct (XA !! i) as [u|]; [|discriminate].
    injection Hrow as <-. rewrite list_lookup_fmap in Hc.
    destruct (XB !! j) as [v|]; [|discriminate]. injection Hc as <-. eauto.
  - intros (u & v & -> & Hv & ->). eexists. split; [reflexivity|].
    by rewrite list_lookup_fmap, Hv.
Qed.

Lemma cdist_shape XA XB n m :
  length XA = n -> length XB = m -> has_shape (map (fun u => map (cityblock u) XB) XA) n m.
Proof.
  intros <- <-. split; [by rewrite length_map|]. apply Forall_forall. intros row Hrow.
  apply list_elem_of_fmap in Hrow as (u & -> & _). by rewrite length_map.
Qed.

Lemma cost_matrix_Ok fa fb cols_a cols_b C :
  cost_matrix fa fb cols_a cols_b = Ok C ->
  exists XA XB, loc_matrix fa cols_a = Ok XA /\ loc_matrix fb cols_b = Ok XB /\
    length cols_a = length cols_b /\ C = map (fun u => map (cityblock u) XB) XA.
Proof.
  unfold cost_matrix, cdist_cityblock. intros H. inv_ok.
  case_decide; [|discriminate]. injection H as <-. eauto 7.
Qed.

(** The values read for a column pair, entry by entry. *)
Lemma zip_with_pair_dist ra rb cols_a cols_b x y :
  Forall2 (fun c v => row_vals ra !! c = Some v) cols_a x ->
  Forall2 (fun c v => row_vals rb !! c = Some v) cols_b y ->
  length cols_a = length cols_b ->
  cityblock x y = pair_dist ra rb (combine cols_a cols_b).
Proof.
  intros Hx. revert cols_b y.
  induction Hx as [|ca va cols_a x Hva _ IH]; intros cols_b y Hy Hlen.
  - reflexivity.
  - destruct Hy as [|cb vb cols_b y Hvb Hy]; simpl in Hlen; [lia|].
    unfold pair_dist in *. simpl. rewrite Hva, Hvb. simpl.
    rewrite cityblock_cons, (IH cols_b y Hy) by lia. reflexivity.
Qed.

(** On well-formed frames with the columns present and paired one to
    one, the builder succeeds with a matrix of the shape of the two
    frames. *)
Lemma cost_matrix_ok fa fb cols_a cols_b :
  frame_wf fa -> frame_wf fb ->
  Forall (fun c => c ∈ columns fa) cols_a -> Forall (fun c => c ∈ columns fb) cols_b ->
  length cols_a = length cols_b ->
  exists C, cost_matrix fa fb cols_a cols_b = Ok C /\
    has_shape C (length (rows fa)) (length (rows fb)).
Proof.
  intros Hwa Hwb Hca Hcb Hlen.
  destruct (loc_matrix_wf fa cols_a Hwa Hca) as (XA & HXA & HlA & _).
  destruct (loc_matrix_wf fb cols_b Hwb Hcb) as (XB & HXB & HlB & _).
  exists (map (fun u => map (cityblock u) XB) XA).
  split; [by unfold cost_matrix; rewrite HXA, HXB, Hlen; apply cdist_cityblock_Ok|].
  apply cdist_shape; congruence.
Qed.

(** The entries of a cost matrix the builder returned. *)
Lemma cost_matrix_at fa fb cols_a cols_b C i j ra rb :
  frame_wf fa -> frame_wf fb ->
  Forall (fun c => c ∈ columns fa) cols_a -> Forall (fun c => c ∈ columns fb) cols_b ->
  cost_matrix fa fb cols_a cols_b = Ok C -> rows fa !! i = Some ra -> rows fb !! j = Some rb ->
  mat_at C i j = Some (pair_dist ra rb (combine cols_a cols_b)).
Proof.
  intros Hwa Hwb Hca Hcb (XA & XB & HXA & HXB & Hlen & ->)%cost_matrix_Ok Hra Hrb.
  destruct (loc_matrix_wf fa cols_a Hwa Hca) as (XA' & HXA' & _ & HA).
  destruct (loc_matrix_wf fb cols_b Hwb Hcb) as (XB' & HXB' & _ & HB).
  rewrite HXA in HXA'. rewrite HXB in HXB'. injection HXA' as <-. injection HXB' as <-.
  apply cdist_at.
  destruct (Forall2_lookup_l _ _ _ _ _ HA Hra) as (u & Hu & Hux).
  destruct (Forall2_lookup_l _ _ _ _ _ HB Hrb) as (v & Hv & Hvy).
  exists u, v. split_and!; [done | done|]. symmetry. by apply zip_with_pair_dist.
Qed.

Lemma Qabs_zero x : Qabs x == 0 <-> x == 0.
Proof. apply Qabs_case; intros; lra. Qed.

(** The distance of two rows is zero exactly when they agree on every
    declared pair. *)
Lemma pair_dist_zero ra rb pairs : pair_dist ra rb pairs == 0 <-> same_values pairs ra rb.
Proof.
  unfold pair_dist, same_values. induction pairs as [|[ca cb] ps IH]; cbn [map].
  - split; [constructor | reflexivity].
  - rewrite qsum_cons, Forall_cons, <- IH.
    set (r := qsum _). assert (0 <= r) by (apply qsum_nonneg, Forall_fmap, Forall_true; intros [? ?]; apply Qabs_nonneg).
    set (d1 := default 0 (row_vals ra !! ca)). set (d2 := default 0 (row_vals rb !! cb)).
    assert (Qabs (d1 - d2) == 0 <-> d1 == d2) as Hz by (rewrite Qabs_zero; split; intros; lra).
    pose proof (Qabs_nonneg (d1 - d2)).
    split; [intros; split; [apply Hz|]; lra | intros [Hd Hr]; apply Hz in Hd; lra].
Qed.

Lemma cost_matrix_nonneg_all fa fb cols_a cols_b C :
  cost_matrix fa fb cols_a cols_b = Ok C -> Forall (Forall (fun x => 0 <= x)) C.
Proof.
  intros (XA & XB & _ & _ & _ & ->)%cost_matrix_Ok.
  apply Forall_fmap, Forall_true. intros u. apply Forall_fmap, Forall_true. intros v. apply cityblock_nonneg.
Qed.

(** C21: on well-formed frames with the declared columns present and paired
    one to one, the builder returns an [|source| x |target|] matrix whose
    entry [(i, j)] is the sum over the column pairs of the absolute
    differences of row [i] of the source and row [j] of the target. *)
Theorem cost_matrix_spec fa fb cols_a cols_b :
  frame_wf fa -> frame_wf fb ->
  Forall (fun c => c ∈ columns fa) cols_a -> Forall (fun c => c ∈ columns fb) cols_b ->
  length cols_a = length cols_b ->
  exists C, cost_matrix fa fb cols_a cols_b = Ok C /\
    has_shape C (length (rows fa)) (length (rows fb)) /\
    forall i j ra rb, rows fa !! i = Some ra -> rows fb !! j = Some rb ->
      mat_at C i j = Some (pair_dist ra rb (combine cols_a cols_b)).
Proof.
  intros Hwa Hwb Hca Hcb Hlen.
  destruct (loc_matrix_wf fa cols_a Hwa Hca) as (XA & HXA & HlA & HA).
  destruct (loc_matrix_wf fb cols_b Hwb Hcb) as (XB & HXB & HlB & HB).
  assert (cost_matrix fa fb cols_a cols_b = Ok (map (fun u => map (cityblock u) XB) XA)) as HC
    by (unfold cost_matrix; rewrite HXA, HXB, Hlen; apply cdist_cityblock_Ok).
  eexists. split; [exact HC|]. split; [by apply cdist_shape|].
  intros i j ra rb. by apply cost_matrix_at.
Qed.

(** C26: every entry of a cost matrix is non-negative. *)
Theorem cost_matrix_nonneg fa fb cols_a cols_b C i j c :
  cost_matrix fa fb cols_a cols_b = Ok C -> mat_at C i j = Some c -> 0 <= c.
Proof.
  intros (XA & XB & _ & _ & _ & ->)%cost_matrix_Ok (u & v & _ & _ & ->)%cdist_at.
  apply cityblock_nonneg.
Qed.

(** C22: a declared column absent from either frame raises [KeyError]
    naming an absent column, whatever the rows hold: the selection fails
    before any distance is computed. *)
Theorem cost_matrix_missing_column fa fb cols_a cols_b c :
  frame_wf fa ->
  (c ∈ cols_a /\ c ∉ columns fa) \/ (c ∈ cols_b /\ c ∉ columns fb) ->
  exists c', cost_matrix fa fb cols_a cols_b = Err (KeyErrorColumn c') /\
    ((c' ∈ cols_a /\ c' ∉ columns fa) \/ (c' ∈ cols_b /\ c' ∉ columns fb)).
Proof.
  intros Hwa Hc. unfold cost_matrix, loc_matrix.
  destruct (check_columns fa cols_a) as [[]|e] eqn:Ea; simpl.
  - pose proof (proj1 (check_columns_Ok _ _) Ea) as Hca.
    destruct (loc_matrix_wf fa cols_a Hwa Hca) as (XA & HXA & _).
    unfold loc_matrix in HXA. rewrite Ea in HXA. simpl in HXA. rewrite HXA. simpl.
    destruct (check_columns fb cols_b) as [[]|e] eqn:Eb; simpl.
    + exfalso. pose proof (proj1 (check_columns_Ok _ _) Eb) as Hcb.
      rewrite Forall_forall in Hca, Hcb. destruct Hc as [[H1 H2]|[H1 H2]]; eauto.
    + unfold check_columns in Eb. destruct (List.find _ cols_b) as [c'|] eqn:F; [|discriminate].
      injection Eb as <-. exists c'. split; [done|]. right.
      apply (check_columns_Err fb). unfold check_columns. by rewrite F.
  - unfold check_columns in Ea. destruct (List.find _ cols_a) as [c'|] eqn:F; [|discriminate].
    injection Ea as <-. exists c'. split; [done|]. left.
    apply (check_columns_Err fa). unfold check_columns. by rewrite F.
Qed.

Lemma cost_matrix_spec_witness :
  exists C, cost_matrix Toy.dina Toy.cps ["dina_v"] ["cps_v"] = Ok C /\
    has_shape C (length (rows Toy.dina)) (length (rows Toy.cps)) /\
    forall i j ra rb, rows Toy.dina !! i = Some ra -> rows Toy.cps !! j = Some rb ->
      mat_at C i j = Some (pair_dist ra rb (combine ["dina_v"] ["cps_v"])).
Proof. apply cost_matrix_spec; solve_concrete. Defined.

Lemma cost_matrix_nonneg_witness :
  exists C c, cost_matrix Toy.dina Toy.cps ["dina_v"] ["cps_v"] = Ok C /\ mat_at C 2 0 = Some c /\ 0 <= c.
Proof.
  set (C := ok_or [] (cost_matrix Toy.dina Toy.cps ["dina_v"] ["cps_v"])).
  exists C, (default 0 (mat_at C 2 0)).
  assert (cost_matrix Toy.dina Toy.cps ["dina_v"] ["cps_v"] = Ok C) as HC by (vm_compute; reflexivity).
  assert (mat_at C 2 0 = Some (default 0 (mat_at C 2 0))) as Hc by (vm_compute; reflexivity).
  split; [exact HC|]. split; [exact Hc|]. exact (cost_matrix_nonneg _ _ _ _ _ _ _ _ HC Hc).
Defined.

Lemma cost_matrix_missing_column_witness :
  exists c', cost_matrix Toy.dina Toy.cps ["dina_x"] ["cps_v"] = Err (KeyErrorColumn c') /\
    ((c' ∈ ["dina_x"] /\ c' ∉ columns Toy.dina) \/ (c' ∈ ["cps_v"] /\ c' ∉ columns Toy.cps)).
Proof. apply (cost_matrix_missing_column _ _ _ _ "dina_x"); solve_concrete. Defined.
