(* ===== verification/Transport.v ===== *)
(** * Transport: marginals and the contract of [ot.emd]

    Lines 93-104 (and 150-161 for the second stage) read the weights,
    compute the masses [w.sum()], divide the weights by them in place and
    call [ot.emd(a, b, M, numItermax=1e9)].  [normalize] is the division.

    [ot.emd] is POT's network-simplex solver, a library the code only
    calls.  Its contract is the class [EMDSolverSpec]: given two marginals
    (non-negative, summing to one) and a cost matrix of the right shape,
    when the solver reports [OPTIMAL] its plan is a coupling ([is_plan]):
    the right shape, non-negative entries, row sums [a] and column sums
    [b].  POT returns the plan whatever the status (it only warns when the
    iteration cap is hit); the code calls [ot.emd] without [log=True], so
    [ot_emd] drops the status, as the code does.

    [indep_solver] is a solver that meets the contract (the independent
    coupling [a_i * b_j]); the witnesses of the chained theorems run the
    whole cell computation with it. *)

From S2P Require Import Prelude.

(** [w /= w.sum()]. *)
Definition normalize (w : list Q) : list Q := map (fun x => x / qsum w) w.

Definition marginal (a : list Q) : Prop :=
  Forall (fun x => 0 <= x) a /\ qsum a == 1.

(** Column [j] of a plan, summed. *)
Definition col_sum (G : Matrix) (j : nat) : Q := qsum (map (fun row => default 0 (row !! j)) G).

Definition is_plan (a b : list Q) (G : Matrix) : Prop :=
  has_shape G (length a) (length b) /\
  Forall (Forall (fun x => 0 <= x)) G /\
  Forall2 (fun row ai => qsum row == ai) G a /\
  Forall2 (fun j bj => col_sum G j == bj) (seq 0 (length b)) b.

(** POT's result codes. *)
Inductive emd_status := OPTIMAL | INFEASIBLE | UNBOUNDED | MAX_ITER_REACHED.

Class EMDSolver := emd_solve : list Q -> list Q -> Matrix -> Z -> Matrix * emd_status.

Class EMDSolverSpec `{EMDSolver} := {
  emd_solve_plan a b M it :
    marginal a -> marginal b -> has_shape M (length a) (length b) ->
    snd (emd_solve a b M it) = OPTIMAL -> is_plan a b (fst (emd_solve a b M it))
}.

(** The objective of the transport problem, [sum(G * M)]. *)
Definition total_cost (M G : Matrix) : Q :=
  qsum (zip_with (fun mrow grow => qsum (zip_with Qmult mrow grow)) M G).

(** A coupling of least total cost among all couplings. *)
Definition optimal_plan (a b : list Q) (M G : Matrix) : Prop :=
  is_plan a b G /\ forall P, is_plan a b P -> total_cost M G <= total_cost M P.

(** The full contract of a network-simplex solver: at status [OPTIMAL] the
    plan is a least-cost coupling. *)
Class EMDSolverOptimal `{EMDSolver} := {
  emd_solve_optimal a b M it :
    marginal a -> marginal b -> has_shape M (length a) (length b) ->
    snd (emd_solve a b M it) = OPTIMAL -> optimal_plan a b M (fst (emd_solve a b M it))
}.

(** [ot.emd(a, b, M, numItermax=it)] as the code calls it. *)
Definition ot_emd `{EMDSolver} (a b : list Q) (M : Matrix) (it : Z) : Matrix :=
  fst (emd_solve a b M it).

(** [numItermax=1e9]. *)
Definition numItermax : Z := 1000000000.

(** ** The total cost *)

Lemma row_costs_nonneg (M G : Matrix) :
  Forall (Forall (fun x => 0 <= x)) M -> Forall (Forall (fun x => 0 <= x)) G ->
  Forall (fun x => 0 <= x) (zip_with (fun mrow grow => qsum (zip_with Qmult mrow grow)) M G).
Proof.
  apply Forall_zip_with. intros mrow grow Hm Hg. by apply qsum_nonneg, products_nonneg.
Qed.

Lemma total_cost_nonneg M G :
  Forall (Forall (fun x => 0 <= x)) M -> Forall (Forall (fun x => 0 <= x)) G -> 0 <= total_cost M G.
Proof. intros HM HG. by apply qsum_nonneg, row_costs_nonneg. Qed.

(** On non-negative matrices, the total cost is zero exactly when every
    entry of the plan is zero or sits on a zero cost. *)
Lemma total_cost_zero M G :
  Forall (Forall (fun x => 0 <= x)) M -> Forall (Forall (fun x => 0 <= x)) G ->
  total_cost M G == 0 <->
  forall i j m g, mat_at M i j = Some m -> mat_at G i j = Some g -> m * g == 0.
Proof.
  intros HM HG. unfold total_cost. rewrite qsum_zero_iff by (by apply row_costs_nonneg). split.
  - intros H i j m g (mr & Hmr & Hm)%mat_at_Some (gr & Hgr & Hg)%mat_at_Some.
    assert (qsum (zip_with Qmult mr gr) == 0) as Hrow
      by (apply (H i); apply lookup_zip_with_Some; eauto).
    rewrite qsum_zero_iff in Hrow
      by (apply products_nonneg; [exact (Forall_lookup_1 _ _ _ _ HM Hmr) | exact (Forall_lookup_1 _ _ _ _ HG Hgr)]).
    apply (Hrow j). apply lookup_zip_with_Some. eauto.
  - intros H i r (mr & gr & -> & Hmr & Hgr)%lookup_zip_with_Some.
    apply qsum_zero_iff;
      [apply products_nonneg; [exact (Forall_lookup_1 _ _ _ _ HM Hmr) | exact (Forall_lookup_1 _ _ _ _ HG Hgr)]|].
    intros j x (m & g & -> & Hm & Hg)%lookup_zip_with_Some.
    apply (H i j); apply mat_at_Some; eauto.
Qed.

(** An optimal plan, when a coupling of zero cost exists, has zero cost. *)
Lemma optimal_plan_zero a b M G P :
  Forall (Forall (fun x => 0 <= x)) M -> optimal_plan a b M G -> is_plan a b P -> total_cost M P == 0 ->
  total_cost M G == 0.
Proof.
  intros HM [HG Hopt] HP HP0. pose proof (Hopt P HP). pose proof (total_cost_nonneg M G HM (proj1 (proj2 HG))).
  lra.
Qed.

(** A coupling of zero cost is optimal. *)
Lemma zero_cost_optimal a b M G :
  Forall (Forall (fun x => 0 <= x)) M -> is_plan a b G -> total_cost M G == 0 -> optimal_plan a b M G.
Proof.
  intros HM HG H0. split; [done|]. intros P HP. rewrite H0. apply total_cost_nonneg; [done | apply HP].
Qed.

(** ** A solver meeting the contract *)

Definition indep_plan (a b : list Q) : Matrix := map (fun ai => map (fun bj => ai * bj) b) a.

#[export] Instance indep_solver : EMDSolver := fun a b _ _ => (indep_plan a b, OPTIMAL).

(** ** Normalisation *)

Lemma qsum_normalize w : ~ qsum w == 0 -> qsum (normalize w) == 1.
Proof.
  intros H. unfold normalize. rewrite qsum_div. unfold Qdiv. by apply Qmult_inv_r.
Qed.

Lemma normalize_is_marginal w :
  Forall (fun x => 0 <= x) w -> 0 < qsum w -> marginal (normalize w).
Proof.
  intros Hw Hpos. split.
  - unfold normalize. apply Forall_fmap, (Forall_impl _ _ _ Hw). intros x Hx. simpl.
    apply Qle_shift_div_l; lra.
  - apply qsum_normalize. lra.
Qed.

Lemma length_normalize w : length (normalize w) = length w.
Proof. apply length_map. Qed.

(** Selecting entries of a normalised vector by key. *)
Lemma select_normalize (K : list Z) (w : list Q) d :
  qsum (zip_with (fun kk x => if bool_decide (kk = d) then x else 0) K (normalize w)) ==
  qsum (zip_with (fun kk x => if bool_decide (kk = d) then x else 0) K w) / qsum w.
Proof.
  unfold normalize. generalize (qsum w) as c. intros c. revert K.
  induction w as [|x w IH]; intros [|kk K]; simpl; try (unfold Qdiv; ring).
  rewrite IH. case_bool_decide; unfold Qdiv; ring.
Qed.

(** ** Plans *)

Lemma is_plan_total a b G : is_plan a b G -> qsum (map qsum G) == qsum a.
Proof.
  intros (_ & _ & Hrows & _). induction Hrows as [|row ai G a Hr _ IH]; simpl; [reflexivity|].
  rewrite Hr, IH. reflexivity.
Qed.

(** A coupling of a marginal has total mass one. *)
Lemma is_plan_total_one a b G : is_plan a b G -> marginal a -> qsum (map qsum G) == 1.
Proof. intros HG [_ Ha]. rewrite (is_plan_total _ _ _ HG). exact Ha. Qed.

Lemma qsum_map_scale_rows c (G : Matrix) :
  qsum (map qsum (map (map (fun x => c * x)) G)) == c * qsum (map qsum G).
Proof.
  induction G as [|row G IH]; simpl; [lra|]. rewrite qsum_scale, IH. lra.
Qed.

Lemma indep_col_sum a b j bj :
  b !! j = Some bj -> col_sum (indep_plan a b) j == qsum a * bj.
Proof.
  intros Hj. unfold col_sum, indep_plan. rewrite map_map.
  rewrite (qsum_map_ext _ (fun ai => bj * ai)).
  - rewrite qsum_scale. lra.
  - intros ai _. simpl. rewrite list_lookup_fmap, Hj. simpl. lra.
Qed.

(** An optimal solver meets the coupling contract. *)
#[export] Instance optimal_solver_spec `{EMDSolverOptimal} : EMDSolverSpec.
Proof. constructor. intros a b M it Ha Hb HM Hs. by apply emd_solve_optimal. Qed.

(** The independent coupling meets the solver contract. *)
#[export] Instance indep_solver_spec : EMDSolverSpec.
Proof.
  constructor. intros a b M it [Ha Hsa] [Hb Hsb] _ _. simpl.
  split; [split|split; [|split]].
  - unfold indep_plan. by rewrite length_map.
  - unfold indep_plan. apply Forall_fmap, Forall_true. intros ai. simpl. by rewrite length_map.
  - unfold indep_plan. apply Forall_fmap, (Forall_impl _ _ _ Ha). intros ai Hai. simpl.
    apply Forall_fmap, (Forall_impl _ _ _ Hb). intros bj Hbj. simpl.
    by apply Qmult_le_0_compat.
  - unfold indep_plan. apply Forall2_fmap_l, Forall_Forall2_diag, Forall_true.
    intros ai. unfold compose. rewrite qsum_scale, Hsb. lra.
  - apply Forall2_same_length_lookup. rewrite length_seq. split; [done|].
    intros j j' bj Hj Hbj. apply lookup_seq in Hj as [-> _].
    rewrite (indep_col_sum _ _ _ _ Hbj), Hsa. lra.
Qed.

