(* ===== verification/Extract.v ===== *)
(** * Extract: from a transport plan to correspondence rows

    [np.nonzero(G)] lists the positions of the nonzero entries of [G] in
    row-major order; [np.nditer] over the pair of index arrays visits them
    in that order and raises [ValueError] when they are empty (numpy
    refuses zero-sized operands unless [zerosize_ok] is given).  Three
    loops of transport.py consume the positions:

    - lines 110-120 ([extract_matches]): one (dina_id, cps_id, weight) row
      per position, weight [dina_mass * G[i, j]];
    - lines 127-139 ([build_inter]): the same rows, plus the values of the
      DINA columns of [matching_scf] of DINA row [i], read with
      [dina_subset[c].iat[i]];
    - lines 166-177 ([extract_matches2]): one (dina_id, cps_id, scf_id,
      weight) row per position of the second plan, the first two ids
      taken from row [k] of the intermediate file, weight
      [dina_cps_mass * G2[k, l]].

    The pre-sized data frame filled by position is a list built in the
    order of the loop. *)

From S2P Require Import Prelude Frame Transport.

(** A row of the output table; [e_scf] is [None] in a run without SCF. *)
Record Entry := mkEntry {
  e_dina : Z;
  e_cps : Z;
  e_scf : option Z;
  e_weight : Q
}.

(** A row of the intermediate DINA-CPS frame [dina_cps_subset]. *)
Record InterRow := mkInter {
  ir_dina : Z;
  ir_cps : Z;
  ir_weight : Q;
  ir_vals : list Q
}.

(** [np.nonzero]: the columns of one row, then the rows in order. *)
Definition row_nonzero (row : list Q) : list nat :=
  List.filter (fun j => negb (Qeq_bool (default 0 (row !! j)) 0)) (seq 0 (length row)).

Fixpoint nonzero_from (i : nat) (G : Matrix) : list (nat * nat) :=
  match G with
  | [] => []
  | row :: G' => map (fun j => (i, j)) (row_nonzero row) ++ nonzero_from (S i) G'
  end.

Definition nonzero (G : Matrix) : list (nat * nat) := nonzero_from 0 G.

(** [np.nditer(nonzero_entries)]. *)
Definition nditer (ps : list (nat * nat)) : result (list (nat * nat)) :=
  match ps with
  | [] => Err (ValueError "Iteration of zero-sized operands is not enabled")
  | _ => Ok ps
  end.

(** [ot_map[entry]]. *)
Definition plan_get (G : Matrix) (i j : nat) : result Q :=
  match mat_at G i j with Some g => Ok g | None => Err IndexError end.

(** One iteration of lines 117-119. *)
Definition match_row (dina cps : Frame) (mass : Q) (G : Matrix) (ij : nat * nat) : result Entry :=
  let* d := nth_r (ids dina) ij.1 in
  let* c := nth_r (ids cps) ij.2 in
  let* g := plan_get G ij.1 ij.2 in
  Ok (mkEntry d c None (mass * g)).

Definition extract_matches (dina cps : Frame) (mass : Q) (G : Matrix) : result (list Entry) :=
  let* ps := nditer (nonzero G) in
  rmapM (match_row dina cps mass G) ps.

(** One iteration of lines 134-139. *)
Definition inter_row (dina cps : Frame) (mass : Q) (G : Matrix) (dina_cols : list string)
    (ij : nat * nat) : result InterRow :=
  let* d := nth_r (ids dina) ij.1 in
  let* c := nth_r (ids cps) ij.2 in
  let* g := plan_get G ij.1 ij.2 in
  let* vs := rmapM (fun col => col_iat dina col ij.1) dina_cols in
  Ok (mkInter d c (mass * g) vs).

Definition build_inter (dina cps : Frame) (mass : Q) (G : Matrix) (dina_cols : list string)
    : result (list InterRow) :=
  let* ps := nditer (nonzero G) in
  rmapM (inter_row dina cps mass G dina_cols) ps.

(** One iteration of lines 173-176. *)
Definition match_row2 (inter : list InterRow) (scf : Frame) (mass : Q) (G : Matrix)
    (kl : nat * nat) : result Entry :=
  let* r := nth_r inter kl.1 in
  let* s := nth_r (ids scf) kl.2 in
  let* g := plan_get G kl.1 kl.2 in
  Ok (mkEntry (ir_dina r) (ir_cps r) (Some s) (mass * g)).

Definition extract_matches2 (inter : list InterRow) (scf : Frame) (mass : Q) (G : Matrix)
    : result (list Entry) :=
  let* ps := nditer (nonzero G) in
  rmapM (match_row2 inter scf mass G) ps.

(** ** The positions of [np.nonzero] *)

Lemma row_nonzero_spec row j :
  j ∈ row_nonzero row <-> exists g, row !! j = Some g /\ ~ g == 0.
Proof.
  unfold row_nonzero. rewrite list_elem_of_In, filter_In, in_seq, negb_true_iff.
  split.
  - intros [[_ Hj] Hz]. assert (is_Some (row !! j)) as [g Hg] by (apply lookup_lt_is_Some_2; lia).
    exists g. split; [done|]. rewrite Hg in Hz. simpl in Hz.
    intros Hg0. apply Qeq_eq_bool in Hg0. congruence.
  - intros (g & Hg & Hg0). split; [apply lookup_lt_Some in Hg; lia|].
    rewrite Hg. simpl. destruct (Qeq_bool g 0) eqn:E; [|done].
    by apply Qeq_bool_eq in E.
Qed.

Lemma nonzero_from_spec (P G : Matrix) i j :
  (i, j) ∈ nonzero_from (length P) G <->
  (length P <= i)%nat /\ exists g, mat_at (P ++ G) i j = Some g /\ ~ g == 0.
Proof.
  revert P. induction G as [|row G IH]; intros P; simpl.
  - split; [by intros ?%not_elem_of_nil|]. intros (Hi & g & Hg & _).
    apply mat_at_Some in Hg as (row & Hrow & _). rewrite app_nil_r in Hrow.
    apply lookup_lt_Some in Hrow. lia.
  - rewrite elem_of_app, list_elem_of_fmap.
    replace (S (length P)) with (length (P ++ [row])) by (rewrite length_app; simpl; lia).
    rewrite IH, <- app_assoc, length_app. simpl. split.
    + intros [(j' & [= -> ->] & Hj) | [Hi H]]; [|split; [lia | exact H]].
      apply row_nonzero_spec in Hj as (g & Hg & Hg0). split; [lia|]. exists g. split; [|done].
      apply mat_at_Some. exists row. split; [|done].
      rewrite lookup_app_r, Nat.sub_diag by lia. done.
    + intros [Hi H]. destruct (decide (i = length P)) as [->|Hne]; [left|right; split; [lia | exact H]].
      destruct H as (g & Hg & Hg0). apply mat_at_Some in Hg as (row' & Hrow & Hg).
      rewrite lookup_app_r, Nat.sub_diag in Hrow by lia. injection Hrow as <-.
      exists j. split; [done|]. apply row_nonzero_spec. eauto.
Qed.

(** The positions are exactly those of the nonzero entries. *)
Lemma nonzero_spec (G : Matrix) i j :
  (i, j) ∈ nonzero G <-> exists g, mat_at G i j = Some g /\ ~ g == 0.
Proof. rewrite (nonzero_from_spec []). simpl. split; [tauto | split; [lia | done]]. Qed.

(** The entry at a position, [0] out of range. *)
Definition plan_val (G : Matrix) (ij : nat * nat) : Q := default 0 (mat_at G ij.1 ij.2).

(** Row-major order of positions. *)
Definition pos_lt (p q : nat * nat) : Prop :=
  (p.1 < q.1)%nat \/ (p.1 = q.1 /\ (p.2 < q.2)%nat).

Lemma qsum_row_nonzero row :
  qsum (map (fun j => default 0 (row !! j)) (row_nonzero row)) == qsum row.
Proof.
  unfold row_nonzero. rewrite (qsum_map_filter_nonzero (fun j => default 0 (row !! j))).
  by rewrite map_lookup_seq.
Qed.

Lemma nonzero_from_sum (P G : Matrix) :
  qsum (map (plan_val (P ++ G)) (nonzero_from (length P) G)) == qsum (map qsum G).
Proof.
  revert P; induction G as [|row G IH]; intros P; simpl; [reflexivity|].
  rewrite map_app, qsum_app, map_map.
  replace (S (length P)) with (length (P ++ [row])) by (rewrite length_app; simpl; lia).
  specialize (IH (P ++ [row])). rewrite <- app_assoc in IH. simpl in IH. rewrite IH.
  rewrite (qsum_map_ext _ (fun j => default 0 (row !! j))); [rewrite qsum_row_nonzero; reflexivity|].
  intros j _. unfold plan_val, mat_at. simpl. by rewrite list_lookup_middle.
Qed.

(** Summing the entries at the nonzero positions sums the whole plan. *)
Lemma nonzero_sum (G : Matrix) : qsum (map (plan_val G) (nonzero G)) == qsum (map qsum G).
Proof. apply (nonzero_from_sum []). Qed.

(** ** Sums over the rows of a plan *)

Lemma filter_map_pair_fst (sel : nat -> bool) i (js : list nat) :
  List.filter (fun ij : nat * nat => sel ij.1) (map (fun j => (i, j)) js) =
  if sel i then map (fun j => (i, j)) js else [].
Proof. induction js as [|j js IH]; simpl; [by destruct (sel i)|]. rewrite IH. by destruct (sel i). Qed.

(** Summing the entries at the nonzero positions of the selected rows sums
    those rows. *)
Lemma nonzero_from_sum_rows (sel : nat -> bool) (P G : Matrix) :
  qsum (map (plan_val (P ++ G)) (List.filter (fun ij => sel ij.1) (nonzero_from (length P) G))) ==
  qsum (zip_with (fun i row => if sel i then qsum row else 0) (seq (length P) (length G)) G).
Proof.
  revert P; induction G as [|row G IH]; intros P; simpl; [reflexivity|].
  rewrite List.filter_app, map_app, qsum_app, filter_map_pair_fst.
  replace (S (length P)) with (length (P ++ [row])) by (rewrite length_app; simpl; lia).
  specialize (IH (P ++ [row])). rewrite <- app_assoc in IH. simpl in IH. rewrite IH.
  destruct (sel (length P)); [|simpl; lra]. rewrite map_map.
  rewrite (qsum_map_ext _ (fun j => default 0 (row !! j))); [rewrite qsum_row_nonzero; reflexivity|].
  intros j _. unfold plan_val, mat_at. simpl. by rewrite list_lookup_middle.
Qed.

(** The rows of a table written from the nonzero positions of a plan,
    each carrying the key [K !! i] of its plan row [i] and the weight
    [mass * G[i, j]]: the rows with key [d] weigh [mass] times the total of
    the plan rows whose key is [d]. *)
Lemma key_mass {E} (key : E -> Z) (w : E -> Q) (K : list Z) (G : Matrix) mass es d :
  Forall2 (fun ij e => K !! ij.1 = Some (key e) /\ w e = mass * plan_val G ij) (nonzero G) es ->
  qsum (map w (List.filter (fun e => bool_decide (key e = d)) es)) ==
  mass * qsum (zip_with (fun i row => if bool_decide (K !! i = Some d) then qsum row else 0)
                 (seq 0 (length G)) G).
Proof.
  intros H.
  rewrite <- (Forall2_filter_sum (fun ij => bool_decide (K !! ij.1 = Some d)) _
    (fun ij => mass * plan_val G ij) w (nonzero G) es).
  - rewrite qsum_map_scale. unfold nonzero.
    pose proof (nonzero_from_sum_rows (fun i => bool_decide (K !! i = Some d)) [] G) as Hs.
    cbn [app length] in Hs. by rewrite Hs.
  - apply (Forall2_impl _ _ _ _ H). intros ij e [HK Hw]. rewrite HK, Hw. split; [|reflexivity].
    apply bool_decide_ext. split; congruence.
Qed.

Lemma qsum_zip_seq_none (G : Matrix) s i0 :
  (i0 < s)%nat ->
  qsum (zip_with (fun i row => if bool_decide (i = i0) then qsum row else 0) (seq s (length G)) G) == 0.
Proof.
  revert s; induction G as [|row G IH]; intros s Hs; simpl; [reflexivity|].
  rewrite bool_decide_eq_false_2 by lia. rewrite IH by lia. lra.
Qed.

Lemma qsum_zip_seq_at (G : Matrix) s i0 row0 :
  (s <= i0)%nat -> G !! (i0 - s)%nat = Some row0 ->
  qsum (zip_with (fun i row => if bool_decide (i = i0) then qsum row else 0) (seq s (length G)) G) == qsum row0.
Proof.
  revert s; induction G as [|row G IH]; intros s Hs Hrow; [done|]. simpl.
  destruct (decide (i0 = s)) as [->|Hne].
  - rewrite bool_decide_eq_true_2 by done. rewrite Nat.sub_diag in Hrow. injection Hrow as ->.
    rewrite qsum_zip_seq_none by lia. lra.
  - rewrite bool_decide_eq_false_2 by lia. rewrite (IH (S s)); [lra | lia |].
    by replace (i0 - s)%nat with (S (i0 - S s)) in Hrow by lia.
Qed.

(** With distinct keys, the rows with key [d] weigh [mass] times the total
    of the one plan row with that key. *)
Lemma key_mass_unique {E} (key : E -> Z) (w : E -> Q) (K : list Z) (G : Matrix) mass es d i0 row0 :
  NoDup K -> K !! i0 = Some d -> G !! i0 = Some row0 ->
  Forall2 (fun ij e => K !! ij.1 = Some (key e) /\ w e = mass * plan_val G ij) (nonzero G) es ->
  qsum (map w (List.filter (fun e => bool_decide (key e = d)) es)) == mass * qsum row0.
Proof.
  intros Hnd HK Hrow H. rewrite (key_mass key w K G mass es d H).
  rewrite (zip_with_ext _ (fun i row => if bool_decide (i = i0) then qsum row else 0)
    (seq 0 (length G)) (seq 0 (length G)) G G); [| |done|done].
  { rewrite (qsum_zip_seq_at _ 0 i0 row0); [reflexivity | lia | by rewrite Nat.sub_0_r]. }
  intros i row. assert (K !! i = Some d <-> i = i0) as Hiff
    by (split; [intros Hi; by apply (NoDup_lookup K i i0 d) | by intros ->]).
  by rewrite (bool_decide_ext _ _ Hiff).
Qed.

(** The same sums, with the keys zipped with the plan rows. *)
Lemma key_select_index (K : list Z) (G : Matrix) d :
  length K = length G ->
  qsum (zip_with (fun i row => if bool_decide (K !! i = Some d) then qsum row else 0) (seq 0 (length G)) G) ==
  qsum (zip_with (fun kk row => if bool_decide (kk = d) then qsum row else 0) K G).
Proof.
  revert K; induction G as [|row G IH]; intros [|kk K] HK; simpl in HK; try discriminate; [reflexivity|].
  cbn [length seq zip_with]. rewrite <- seq_shift, zip_with_fmap_l, !qsum_cons.
  cbn [lookup list_lookup].
  assert (bool_decide (Some kk = Some d) = bool_decide (kk = d)) as ->
    by (apply bool_decide_ext; split; congruence).
  rewrite IH by lia. reflexivity.
Qed.

(** Selecting plan rows by key selects their marginals. *)
Lemma plan_rows_select (K : list Z) (G : Matrix) a d :
  Forall2 (fun row ai => qsum row == ai) G a ->
  qsum (zip_with (fun kk row => if bool_decide (kk = d) then qsum row else 0) K G) ==
  qsum (zip_with (fun kk x => if bool_decide (kk = d) then x else 0) K a).
Proof.
  intros H. revert K. induction H as [|row ai G a Hr _ IH]; intros [|kk K]; simpl; try reflexivity.
  rewrite IH. case_bool_decide; [rewrite Hr|]; reflexivity.
Qed.

Lemma select_filter {A} (key : A -> Z) (wt : A -> Q) (l : list A) d :
  qsum (zip_with (fun kk x => if bool_decide (kk = d) then x else 0) (map key l) (map wt l)) ==
  qsum (map wt (List.filter (fun x => bool_decide (key x = d)) l)).
Proof.
  induction l as [|x l IH]; simpl; [reflexivity|]. rewrite IH.
  case_bool_decide; simpl; rewrite ?qsum_cons; lra.
Qed.

(** ** Sums over the columns of a plan *)

Lemma filter_map_pair_snd (sel : nat -> bool) i (js : list nat) :
  List.filter (fun ij : nat * nat => sel ij.2) (map (fun j => (i, j)) js) =
  map (fun j => (i, j)) (List.filter sel js).
Proof. induction js as [|j js IH]; simpl; [done|]. rewrite IH. by destruct (sel j). Qed.

Lemma qsum_filter_nonzero_select (f : nat -> Q) (sel : nat -> bool) l :
  qsum (map f (List.filter sel (List.filter (fun j => negb (Qeq_bool (f j) 0)) l))) ==
  qsum (map (fun j => if sel j then f j else 0) l).
Proof.
  induction l as [|x l IH]; [reflexivity|]. cbn [List.filter map].
  destruct (Qeq_bool (f x) 0) eqn:E; cbn [negb List.filter map];
    destruct (sel x); cbn [List.filter map]; rewrite ?qsum_cons, IH; try reflexivity; try lra.
  apply Qeq_bool_eq in E. rewrite E. lra.
Qed.

(** Summing the entries at the nonzero positions of the selected columns
    sums those columns, row by row. *)
Lemma nonzero_from_sum_cols (sel : nat -> bool) (P G : Matrix) :
  qsum (map (plan_val (P ++ G)) (List.filter (fun ij => sel ij.2) (nonzero_from (length P) G))) ==
  qsum (map (fun row => qsum (map (fun j => if sel j then default 0 (row !! j) else 0) (seq 0 (length row)))) G).
Proof.
  revert P; induction G as [|row G IH]; intros P; simpl; [reflexivity|].
  rewrite List.filter_app, map_app, qsum_app, filter_map_pair_snd.
  replace (S (length P)) with (length (P ++ [row])) by (rewrite length_app; simpl; lia).
  specialize (IH (P ++ [row])). rewrite <- app_assoc in IH. simpl in IH. rewrite IH, map_map.
  rewrite (qsum_map_ext _ (fun j => default 0 (row !! j))).
  - unfold row_nonzero.
    pose proof (qsum_filter_nonzero_select (fun j => default 0 (row !! j)) sel (seq 0 (length row))) as Hq.
    cbn beta in Hq. by rewrite Hq.
  - intros j _. unfold plan_val, mat_at. simpl. by rewrite list_lookup_middle.
Qed.

(** On a rectangular plan, the selected columns, summed row by row, are
    the selected column sums. *)
Lemma plan_cols_select (sel : nat -> bool) (G : Matrix) m :
  Forall (fun row => length row = m) G ->
  qsum (map (fun row => qsum (map (fun j => if sel j then default 0 (row !! j) else 0) (seq 0 (length row)))) G) ==
  qsum (map (fun j => if sel j then col_sum G j else 0) (seq 0 m)).
Proof.
  intros Hm. rewrite (qsum_map_ext _ (fun row => qsum (map (fun j => if sel j then default 0 (row !! j) else 0) (seq 0 m)))).
  - rewrite (qsum_map_swap (fun row j => if sel j then default 0 (row !! j) else 0)).
    apply qsum_map_ext. intros j _. unfold col_sum. destruct (sel j); [reflexivity|]. apply qsum_map_zero.
  - intros row Hrow. apply list_elem_of_In in Hrow. by rewrite (proj1 (Forall_forall _ _) Hm row Hrow).
Qed.

(** The rows of a table written from the nonzero positions of a
    rectangular plan, each carrying the key [K !! j] of its plan column
    [j]: with distinct keys, the rows with key [d] weigh [mass] times the
    sum of the one column with that key. *)
Lemma key_mass_col_unique {E B} `{EqDecision B} (key : E -> B) (w : E -> Q) (K : list B) (G : Matrix) m mass es d j0 :
  Forall (fun row => length row = m) G -> NoDup K -> K !! j0 = Some d -> (j0 < m)%nat ->
  Forall2 (fun ij e => K !! ij.2 = Some (key e) /\ w e = mass * plan_val G ij) (nonzero G) es ->
  qsum (map w (List.filter (fun e => bool_decide (key e = d)) es)) == mass * col_sum G j0.
Proof.
  intros Hm Hnd HK Hj0 H.
  rewrite <- (Forall2_filter_sum (fun ij => bool_decide (K !! ij.2 = Some d)) _
    (fun ij => mass * plan_val G ij) w (nonzero G) es).
  - rewrite qsum_map_scale. unfold nonzero.
    pose proof (nonzero_from_sum_cols (fun j => bool_decide (K !! j = Some d)) [] G) as Hs.
    cbn [app length] in Hs. rewrite Hs, (plan_cols_select _ G m Hm).
    rewrite (qsum_map_ext _ (fun j => if bool_decide (j = j0) then col_sum G j else 0)).
    + rewrite qsum_select_one; [reflexivity | apply NoDup_seq | apply list_elem_of_In, in_seq; lia].
    + intros j _. assert (K !! j = Some d <-> j = j0) as Hiff
        by (split; [intros Hj; by apply (NoDup_lookup K j j0 d) | by intros ->]).
      by rewrite (bool_decide_ext _ _ Hiff).
  - apply (Forall2_impl _ _ _ _ H). intros ij e [HK' Hw]. rewrite HK', Hw. split; [|reflexivity].
    apply bool_decide_ext. split; congruence.
Qed.

Lemma nonzero_from_ge i G p : p ∈ nonzero_from i G -> (i <= p.1)%nat.
Proof.
  revert i; induction G as [|row G IH]; intros i; simpl; [by intros ?%not_elem_of_nil|].
  rewrite elem_of_app, list_elem_of_fmap. intros [(j & -> & _) | Hp]; simpl; [lia|].
  apply IH in Hp. lia.
Qed.

(** C23: [np.nonzero] yields the positions of the nonzero entries, each
    once, in row-major order. *)
Theorem nonzero_row_major (G : Matrix) :
  StronglySorted pos_lt (nonzero G) /\
  forall i j, (i, j) ∈ nonzero G <-> exists g, mat_at G i j = Some g /\ ~ g == 0.
Proof.
  split; [|apply nonzero_spec]. unfold nonzero. generalize 0%nat as i.
  induction G as [|row G IH]; intros i; simpl; [constructor|].
  apply StronglySorted_app; [| apply IH |].
  - apply (StronglySorted_map_mono lt); [|apply StronglySorted_filter_seq].
    intros x y Hxy. right. simpl. done.
  - intros p q (j & -> & _)%list_elem_of_fmap Hq%nonzero_from_ge. left. simpl. lia.
Qed.

(** A nonzero position lies inside the plan. *)
Lemma nonzero_in_shape (G : Matrix) n m i j :
  has_shape G n m -> (i, j) ∈ nonzero G ->
  (i < n)%nat /\ (j < m)%nat /\ exists g, mat_at G i j = Some g /\ plan_val G (i, j) = g.
Proof.
  intros [Hn Hm] (g & Hg & _)%nonzero_spec.
  pose proof Hg as (row & Hrow & Hj)%mat_at_Some.
  split; [apply lookup_lt_Some in Hrow; lia|]. split.
  - apply lookup_lt_Some in Hj. rewrite Forall_lookup in Hm. rewrite <- (Hm _ _ Hrow). done.
  - exists g. unfold plan_val. simpl. by rewrite Hg.
Qed.

(** A plan of nonzero total mass has a nonzero entry. *)
Lemma nonzero_not_nil (G : Matrix) : ~ qsum (map qsum G) == 0 -> nonzero G <> [].
Proof. intros H Hnil. apply H. rewrite <- nonzero_sum, Hnil. reflexivity. Qed.

(** ** [np.nonzero] against a reference enumeration

    The reference walks the whole [n x m] grid in row-major order
    ([list_prod (seq 0 n) (seq 0 m)]) and keeps the positions of nonzero
    entries; [nonzero] walks each row's own columns. *)

Definition nonzero_ref (G : Matrix) (m : nat) : list (nat * nat) :=
  List.filter (fun ij => negb (Qeq_bool (plan_val G ij) 0)) (list_prod (seq 0 (length G)) (seq 0 m)).

Lemma filter_map_pair (p : nat * nat -> bool) i (js : list nat) :
  List.filter p (map (fun j => (i, j)) js) = map (fun j => (i, j)) (List.filter (fun j => p (i, j)) js).
Proof. induction js as [|j js IH]; simpl; [done|]. rewrite IH. by destruct (p (i, j)). Qed.

Lemma nonzero_from_ref (P G : Matrix) m :
  Forall (fun row => length row = m) G ->
  nonzero_from (length P) G =
  List.filter (fun ij => negb (Qeq_bool (plan_val (P ++ G) ij) 0)) (list_prod (seq (length P) (length G)) (seq 0 m)).
Proof.
  revert P; induction G as [|row G IH]; intros P Hm; [done|]. apply Forall_cons in Hm as [Hrow Hm].
  cbn [nonzero_from length seq list_prod]. rewrite List.filter_app, filter_map_pair. f_equal.
  - unfold row_nonzero. rewrite Hrow. f_equal. apply filter_ext. intros j.
    unfold plan_val, mat_at. simpl. by rewrite list_lookup_middle.
  - replace (S (length P)) with (length (P ++ [row])) by (rewrite length_app; simpl; lia).
    rewrite (IH _ Hm), <- app_assoc. done.
Qed.

(** ** The extraction loops *)

Lemma nditer_nonzero (G : Matrix) : nonzero G <> [] -> nditer (nonzero G) = Ok (nonzero G).
Proof. by destruct (nonzero G). Qed.

Lemma plan_get_val (G : Matrix) i j g : mat_at G i j = Some g -> plan_get G i j = Ok g.
Proof. unfold plan_get. by intros ->. Qed.

(** The weights of rows built from the nonzero positions, rescaled by
    [mass], add up to [mass] times the plan total. *)
Lemma rescaled_weights_sum {A} (w : A -> Q) (G : Matrix) mass (xs : list A) :
  Forall2 (fun ij x => w x = mass * plan_val G ij) (nonzero G) xs ->
  qsum (map w xs) == mass * qsum (map qsum G).
Proof.
  intros H. rewrite <- (qsum_Forall2 (fun ij => mass * plan_val G ij) w (nonzero G) xs).
  - rewrite qsum_map_scale, nonzero_sum. reflexivity.
  - apply (Forall2_impl _ _ _ _ H). intros ij x ->. reflexivity.
Qed.

Lemma ids_lookup_lt f i : (i < length (rows f))%nat -> exists d, ids f !! i = Some d.
Proof. intros Hi. apply lookup_lt_is_Some_2. unfold ids. by rewrite length_map. Qed.

(** On a plan of the shape of the two cells with nonzero total, the
    loop of lines 110-120 succeeds and writes, for each nonzero position
    [(i, j)] in row-major order, the ids of DINA row [i] and CPS row [j]
    and the weight [dina_mass * G[i, j]]; the weights add up to
    [dina_mass] times the plan total. *)
Lemma extract_matches_ok dina cps mass G :
  has_shape G (length (rows dina)) (length (rows cps)) -> ~ qsum (map qsum G) == 0 ->
  exists es, extract_matches dina cps mass G = Ok es /\
    Forall2 (fun ij e => ids dina !! ij.1 = Some (e_dina e) /\ ids cps !! ij.2 = Some (e_cps e) /\
                         e_scf e = None /\ e_weight e = mass * plan_val G ij) (nonzero G) es /\
    qsum (map e_weight es) == mass * qsum (map qsum G).
Proof.
  intros Hshape Hpos. unfold extract_matches.
  rewrite nditer_nonzero by (by apply nonzero_not_nil). simpl.
  edestruct (rmapM_total (match_row dina cps mass G)) as (es & Hes & H2);
    [|exists es; split; [exact Hes | split; [exact H2 | eapply rescaled_weights_sum, Forall2_impl; [exact H2 | intros ij e Hij; apply Hij]]]].
  intros [i j] Hij. destruct (nonzero_in_shape G _ _ i j Hshape Hij) as (Hi & Hj & g & Hg & Hv).
  destruct (ids_lookup_lt dina i Hi) as [d Hd]. destruct (ids_lookup_lt cps j Hj) as [c Hc].
  unfold match_row. simpl. rewrite (proj2 (nth_r_lookup _ _ _) Hd), (proj2 (nth_r_lookup _ _ _) Hc).
  simpl. rewrite (plan_get_val _ _ _ _ Hg). simpl. eexists. split; [reflexivity|].
  simpl. by rewrite Hv.
Qed.

(** C24: an all-zero plan makes [np.nditer] raise [ValueError]: the code
    has no empty-cell path. *)
Theorem extract_matches_zero_plan dina cps mass G :
  Forall (Forall (fun x => x == 0)) G ->
  extract_matches dina cps mass G =
    Err (ValueError "Iteration of zero-sized operands is not enabled").
Proof.
  intros Hz. unfold extract_matches.
  replace (nonzero G) with (@nil (nat * nat)); [reflexivity|]. symmetry.
  apply elem_of_nil_inv. intros [i j] (g & Hg & Hg0)%nonzero_spec. apply Hg0.
  apply mat_at_Some in Hg as (row & Hrow & Hj).
  rewrite Forall_lookup in Hz. specialize (Hz _ _ Hrow). rewrite Forall_lookup in Hz.
  exact (Hz _ _ Hj).
Qed.

(** Reading the DINA columns of an in-range row of a well-formed frame. *)
Lemma read_cols_wf f cols i r :
  frame_wf f -> Forall (fun c => c ∈ columns f) cols -> rows f !! i = Some r ->
  exists vs, rmapM (fun col => col_iat f col i) cols = Ok vs /\
    Forall2 (fun c v => row_vals r !! c = Some v) cols vs.
Proof.
  intros Hwf Hcols Hr. apply rmapM_total. intros c Hc.
  rewrite Forall_forall in Hcols. destruct (col_iat_wf f c i r Hwf (Hcols c Hc) Hr) as (v & Hv & ->).
  eauto.
Qed.

(** An iteration of lines 134-139 at an in-shape position reads the ids
    and the plan entry, then the DINA columns. *)
Lemma inter_row_at dina cps mass G dina_cols i j :
  has_shape G (length (rows dina)) (length (rows cps)) -> (i, j) ∈ nonzero G ->
  exists d c g, ids dina !! i = Some d /\ ids cps !! j = Some c /\ plan_val G (i, j) = g /\
    inter_row dina cps mass G dina_cols (i, j) =
      rbind (rmapM (fun col => col_iat dina col i) dina_cols) (fun vs => Ok (mkInter d c (mass * g) vs)).
Proof.
  intros Hshape Hij. destruct (nonzero_in_shape G _ _ i j Hshape Hij) as (Hi & Hj & g & Hg & Hv).
  destruct (ids_lookup_lt dina i Hi) as [d Hd]. destruct (ids_lookup_lt cps j Hj) as [c Hc].
  exists d, c, g. do 3 (split; [done|]). unfold inter_row. cbn [fst snd].
  rewrite (proj2 (nth_r_lookup _ _ _) Hd), (proj2 (nth_r_lookup _ _ _) Hc), (plan_get_val _ _ _ _ Hg).
  reflexivity.
Qed.

(** On a well-formed DINA cell holding the [matching_scf] columns, the
    loop of lines 127-139 builds one intermediate row per nonzero position
    of the first plan, with the two ids, the rescaled weight and the DINA
    row's values of those columns; the weights add up to [dina_mass] times
    the plan total. *)
Lemma build_inter_ok dina cps mass G dina_cols :
  frame_wf dina -> Forall (fun c => c ∈ columns dina) dina_cols ->
  has_shape G (length (rows dina)) (length (rows cps)) -> ~ qsum (map qsum G) == 0 ->
  exists inter, build_inter dina cps mass G dina_cols = Ok inter /\
    Forall2 (fun ij r => ids dina !! ij.1 = Some (ir_dina r) /\ ids cps !! ij.2 = Some (ir_cps r) /\
      ir_weight r = mass * plan_val G ij /\
      exists dr, rows dina !! ij.1 = Some dr /\
        Forall2 (fun c v => row_vals dr !! c = Some v) dina_cols (ir_vals r)) (nonzero G) inter /\
    qsum (map ir_weight inter) == mass * qsum (map qsum G).
Proof.
  intros Hwf Hcols Hshape Hpos. unfold build_inter.
  rewrite nditer_nonzero by (by apply nonzero_not_nil). simpl.
  edestruct (rmapM_total (inter_row dina cps mass G dina_cols)) as (inter & Hinter & H2).
  2:{ exists inter. split; [exact Hinter|]. split; [exact H2|].
      eapply rescaled_weights_sum, Forall2_impl; [exact H2|]. intros ij r Hr. apply Hr. }
  intros [i j] Hij. destruct (inter_row_at dina cps mass G dina_cols i j Hshape Hij)
    as (d & c & g & Hd & Hc & Hv & ->).
  destruct (nonzero_in_shape G _ _ i j Hshape Hij) as (Hi & _).
  destruct (lookup_lt_is_Some_2 (rows dina) i Hi) as [dr Hdr].
  destruct (read_cols_wf dina dina_cols i dr Hwf Hcols Hdr) as (vs & -> & Hvals).
  eexists. split; [reflexivity|]. simpl. rewrite Hv. eauto 10.
Qed.

(** C25: a [matching_scf] column absent from the DINA frame raises
    [KeyError] in the loop of lines 133-139, that is only after the first
    transport problem of the cell has been solved. *)
Theorem build_inter_missing_column dina cps mass G dina_cols c :
  c ∈ dina_cols -> c ∉ columns dina ->
  has_shape G (length (rows dina)) (length (rows cps)) -> ~ qsum (map qsum G) == 0 ->
  exists c', build_inter dina cps mass G dina_cols = Err (KeyErrorColumn c').
Proof.
  intros Hc Hnc Hshape Hpos. unfold build_inter.
  pose proof (nonzero_not_nil G Hpos) as Hnil.
  rewrite nditer_nonzero by done. simpl.
  destruct (nonzero G) as [|[i j] ps] eqn:E; [done|].
  assert ((i, j) ∈ nonzero G) as Hij by (rewrite E; by left).
  destruct (nonzero_in_shape G _ _ i j Hshape Hij) as (Hi & _).
  destruct (inter_row_at dina cps mass G dina_cols i j Hshape Hij) as (d & c0 & g & _ & _ & _ & Hrow).
  cbn [rmapM]. rewrite Hrow.
  assert (exists c', rmapM (fun col => col_iat dina col i) dina_cols = Err (KeyErrorColumn c'))
    as [c' ->]; [|by exists c'].
  clear E Hrow. induction dina_cols as [|c1 cols IH]; [by apply not_elem_of_nil in Hc|].
  cbn [rmapM]. destruct (col_iat_in_range dina c1 i Hi) as [[v Hv] | ->]; [|by eexists].
  rewrite Hv. simpl. apply elem_of_cons in Hc as [-> | Hc].
  - unfold col_iat in Hv. rewrite bool_decide_eq_false_2 in Hv by done. discriminate.
  - destruct (IH Hc) as [c' ->]. by eexists.
Qed.

(** On a second plan of the shape of (intermediate file, SCF cell)
    with nonzero total, the loop of lines 166-177 writes, for each nonzero
    position [(k, l)], the DINA and CPS ids of intermediate row [k], the id
    of SCF row [l] and the weight [dina_cps_mass * G2[k, l]]; the weights
    add up to [dina_cps_mass] times the plan total. *)
Lemma extract_matches2_ok inter scf mass G :
  has_shape G (length inter) (length (rows scf)) -> ~ qsum (map qsum G) == 0 ->
  exists es, extract_matches2 inter scf mass G = Ok es /\
    Forall2 (fun kl e => (exists r, inter !! kl.1 = Some r /\ e_dina e = ir_dina r /\ e_cps e = ir_cps r) /\
      (exists s, ids scf !! kl.2 = Some s /\ e_scf e = Some s) /\
      e_weight e = mass * plan_val G kl) (nonzero G) es /\
    qsum (map e_weight es) == mass * qsum (map qsum G).
Proof.
  intros Hshape Hpos. unfold extract_matches2.
  rewrite nditer_nonzero by (by apply nonzero_not_nil). simpl.
  edestruct (rmapM_total (match_row2 inter scf mass G)) as (es & Hes & H2).
  2:{ exists es. split; [exact Hes|]. split; [exact H2|].
      eapply rescaled_weights_sum, Forall2_impl; [exact H2|]. intros kl e He. apply He. }
  intros [k l] Hkl. destruct (nonzero_in_shape G _ _ k l Hshape Hkl) as (Hk & Hl & g & Hg & Hv).
  destruct (lookup_lt_is_Some_2 inter k Hk) as [r Hr]. destruct (ids_lookup_lt scf l Hl) as [s Hs].
  unfold match_row2. simpl. rewrite (proj2 (nth_r_lookup _ _ _) Hr), (proj2 (nth_r_lookup _ _ _) Hs).
  simpl. rewrite (plan_get_val _ _ _ _ Hg). simpl. eexists. split; [reflexivity|]. simpl.
  rewrite Hv. eauto 10.
Qed.

Lemma plan_val_nonneg (G : Matrix) ij :
  Forall (Forall (fun x => 0 <= x)) G -> 0 <= plan_val G ij.
Proof.
  intros HG. unfold plan_val, mat_at. destruct (G !! ij.1) as [row|] eqn:Hrow; simpl; [|lra].
  destruct (row !! ij.2) as [x|] eqn:Hx; simpl; [|lra].
  rewrite Forall_lookup in HG. specialize (HG _ _ Hrow). rewrite Forall_lookup in HG. eauto.
Qed.

(** ** Plans equal up to [Qeq] give the same rows

    The solver's plan is only known up to [Qeq] (a coupling is determined
    by equations over [Q]); the extraction is [Proper] for [mat_equiv]:
    the same positions, the same ids and weights equal up to [Qeq]. *)

Definition entry_equiv (e1 e2 : Entry) : Prop :=
  e_dina e1 = e_dina e2 /\ e_cps e1 = e_cps e2 /\ e_scf e1 = e_scf e2 /\ e_weight e1 == e_weight e2.

#[export] Instance entry_equiv_Equivalence : Equivalence entry_equiv.
Proof.
  split.
  - intros e. split_and!; reflexivity.
  - intros e1 e2 (? & ? & ? & ?). split_and!; by symmetry.
  - intros e1 e2 e3 (? & ? & ? & Hw1) (? & ? & ? & Hw2). split_and!; try congruence. by rewrite Hw1.
Qed.

#[export] Instance entry_equiv_dec : RelDecision entry_equiv.
Proof. intros e1 e2. unfold entry_equiv. apply _. Defined.

Lemma row_nonzero_equiv r1 r2 : Forall2 Qeq r1 r2 -> row_nonzero r1 = row_nonzero r2.
Proof.
  intros H. unfold row_nonzero. rewrite (Forall2_length _ _ _ H). apply filter_ext_in. intros j _.
  destruct (Forall2_lookup_cases _ _ _ j H) as [[-> ->] | (x & y & -> & -> & Hxy)]; [done|].
  simpl. f_equal. apply Bool.eq_iff_eq_true. rewrite !Qeq_bool_iff, Hxy. done.
Qed.

#[export] Instance nonzero_from_Proper i : Proper (mat_equiv ==> eq) (nonzero_from i).
Proof.
  intros G1 G2 H. revert i. induction H as [|r1 r2 G1 G2 Hr _ IH]; intros i; simpl; [done|].
  by rewrite (row_nonzero_equiv _ _ Hr), IH.
Qed.

Lemma plan_get_equiv G1 G2 i j : mat_equiv G1 G2 -> res_rel Qeq (plan_get G1 i j) (plan_get G2 i j).
Proof.
  intros H. unfold plan_get.
  by destruct (mat_at_equiv _ _ i j H) as [[-> ->] | (x & y & -> & -> & Hxy)].
Qed.

Lemma extract_matches_equiv dina cps m1 m2 G1 G2 :
  m1 == m2 -> mat_equiv G1 G2 ->
  res_rel (Forall2 entry_equiv) (extract_matches dina cps m1 G1) (extract_matches dina cps m2 G2).
Proof.
  intros Hm HG. unfold extract_matches, nonzero. rewrite HG.
  destruct (nditer _) as [ps|e]; simpl; [|done]. apply rmapM_res_rel. intros [i j] _.
  unfold match_row. simpl. destruct (nth_r (ids dina) i) as [d|e]; simpl; [|done].
  destruct (nth_r (ids cps) j) as [c|e]; simpl; [|done].
  apply (rbind_res_rel Qeq); [by apply plan_get_equiv|]. intros g1 g2 Hg. simpl.
  split_and!; [done.. |]. simpl. by rewrite Hm, Hg.
Qed.

(** Equivalence of [np.nonzero] with the reference enumeration: on
    a rectangular plan of [m] columns, the row-by-row walk of
    [nonzero_from] yields exactly the positions of the grid, in
    row-major order, whose entry is nonzero. *)
Theorem nonzero_ref_equiv (G : Matrix) m :
  Forall (fun row => length row = m) G -> nonzero G = nonzero_ref G m.
Proof. apply (nonzero_from_ref []). Qed.

Lemma extract_matches_zero_plan_witness :
  extract_matches Toy.dina Toy.cps 4 [[0; 0]; [0; 0]; [0; 0]] =
    Err (ValueError "Iteration of zero-sized operands is not enabled").
Proof. apply extract_matches_zero_plan. solve_concrete. Defined.

Lemma build_inter_missing_column_witness :
  exists c', build_inter Toy.dina Toy.cps 4 [[1#3; 1#6]; [1#6; 1#12]; [1#3; 1#6]] ["dina_x"] = Err (KeyErrorColumn c').
Proof. apply (build_inter_missing_column _ _ _ _ _ "dina_x"); solve_concrete. Defined.

Lemma nonzero_ref_equiv_witness :
  nonzero [[0; 1#2]; [1#4; 0]; [0; 0]] = nonzero_ref [[0; 1#2]; [1#4; 0]; [0; 0]] 2.
Proof. apply nonzero_ref_equiv. decide_concrete. Defined.
