(* ===== verification/Chain.v ===== *)
(** * Chain: one cell of the main loop and the whole run (transport.py
      lines 52-184)

    [process_cell] is the body of [for group in dina_groups] (lines 68-179):
    select the rows of the cell in each file ([cell_subset], lines 70-73;
    a cell absent from CPS or SCF raises [KeyError] there), solve the
    DINA-CPS problem ([stage1], lines 82-105), then either extract the
    three-column rows (no SCF, lines 107-120) or run the second stage
    ([stage2], lines 121-177).  [run] reads the files named by the year
    (lines 13-21, 53-57, with [read_csv] a parameter), groups them (lines
    60-64), processes the DINA cells in key order and concatenates
    ([pd_concat], line 183; pandas raises [ValueError] on an empty list).

    The section is parameterised by the solver ([EMDSolver]); the
    theorems that need its contract take [EMDSolverSpec] and the
    hypothesis that it reports [OPTIMAL], which the code never checks
    ([process_cell_unchecked_plan] states what happens otherwise).

    The theorems: per cell, [process_cell_mass] (no error, rows from the
    input files, the DINA cell mass); over the loop, [loop_mass] and
    [run_ok], with the claims [run_mass] and [run_rows_from_inputs]; the
    error paths of a missing cell or cell column; the toy frames of
    [ToyCell] for the witnesses. *)

From S2P Require Import Prelude Config Frame Groupby Cost Transport Extract.
From stdpp Require Import gmap.
Local Open Scope Q_scope.

Section Chain.
Context `{EMDSolver}.

(** Lines 70-73: [f.iloc[groups[k], :]]. *)
Definition cell_subset (f : Frame) (g : Groups) (k : Key) : result Frame :=
  let* ps := groups_get g k in iloc f ps.

(** Lines 82-105: cost matrix, masses, marginals, first plan. *)
Definition stage1 (dina_subset cps_subset : Frame) (mcps : list (string * string))
    : result (Matrix * Q) :=
  let* cols := paired_columns mcps in
  let* cost := cost_matrix dina_subset cps_subset cols.1 cols.2 in
  let dw := weights dina_subset in
  let cw := weights cps_subset in
  Ok (ot_emd (normalize dw) (normalize cw) cost numItermax, qsum dw).

(** Lines 122-177: the intermediate file, the second plan, the rows. *)
Definition stage2 (dina_subset cps_subset scf_subset : Frame) (mscf : list (string * string))
    (G : Matrix) (dina_mass : Q) : result (list Entry) :=
  let* cols := paired_columns mscf in
  let* inter := build_inter dina_subset cps_subset dina_mass G cols.1 in
  let* XS := loc_matrix scf_subset cols.2 in
  let* cost := cdist_cityblock (map ir_vals inter) XS (length cols.1) (length cols.2) in
  let iw := map ir_weight inter in
  let sw := weights scf_subset in
  let G2 := ot_emd (normalize iw) (normalize sw) cost numItermax in
  extract_matches2 inter scf_subset (qsum iw) G2.

(** Lines 69-179, for the cell [k]. *)
Definition process_cell (dina cps : Frame) (dg cg : Groups) (scf : option (Frame * Groups))
    (mcps mscf : list (string * string)) (k : Key) : result (list Entry) :=
  let* dina_subset := cell_subset dina dg k in
  let* cps_subset := cell_subset cps cg k in
  let* scf_subset :=
    match scf with
    | Some (f, g) => let* s := cell_subset f g k in Ok (Some s)
    | None => Ok None
    end in
  let* r := stage1 dina_subset cps_subset mcps in
  match scf_subset with
  | None => extract_matches dina_subset cps_subset r.2 r.1
  | Some s => stage2 dina_subset cps_subset s mscf r.1 r.2
  end.

(** Line 183: [pd.concat(matches)]. *)
Definition pd_concat (tables : list (list Entry)) : result (list Entry) :=
  match tables with
  | [] => Err (ValueError "No objects to concatenate")
  | _ => Ok (concat tables)
  end.

(** Lines 16-21 and 53-183, with [read_csv] the CSV loader. *)
Definition run (read_csv : string -> Frame) (year : Z) : result (list Entry) :=
  let dina := read_csv (dina_file year) in
  let cps := read_csv (cps_file year) in
  let scf := option_map read_csv (scf_file year) in
  let* dg := groupby dina cells in
  let* cg := groupby cps cells in
  let* sg :=
    match scf with
    | Some f => let* g := groupby f cells in Ok (Some (f, g))
    | None => Ok None
    end in
  let* tables := rmapM (process_cell dina cps dg cg sg matching_cps matching_scf) (map fst dg) in
  pd_concat tables.

End Chain.

(** ** The rows of a cell *)

(** The rows of [f] whose cell values form the key [k]. *)
Definition cell_rows (f : Frame) (cells : list string) (k : Key) : list Row :=
  List.filter (fun r => bool_decide (row_key cells r = Some k)) (rows f).

Definition cell_mass (f : Frame) (cells : list string) (k : Key) : Q :=
  qsum (map row_weight (cell_rows f cells k)).

Lemma filter_map_S (p : nat -> bool) l :
  List.filter p (map S l) = map S (List.filter (fun i => p (S i)) l).
Proof. induction l as [|i l IH]; simpl; [done|]. destruct (p (S i)); simpl; by rewrite IH. Qed.

Lemma group_positions_cons (kk : option Key) keys k :
  group_positions (kk :: keys) k =
  (if bool_decide (kk = Some k) then [0%nat] else []) ++ map S (group_positions keys k).
Proof.
  unfold group_positions. simpl length. rewrite <- cons_seq, <- seq_shift. cbn [List.filter].
  rewrite filter_map_S. simpl.
  destruct (decide (kk = Some k)) as [->|Hne].
  - rewrite !bool_decide_eq_true_2 by done. done.
  - rewrite !bool_decide_eq_false_2 by congruence. done.
Qed.

Lemma rmapM_nth_r_shift {A} (x : A) l ps :
  rmapM (nth_r (x :: l)) (map S ps) = rmapM (nth_r l) ps.
Proof. induction ps as [|p ps IH]; simpl; [done|]. by rewrite IH. Qed.

(** [iloc] at the positions of a group reads the rows with that key. *)
Lemma rmapM_group_positions cells (l : list Row) k :
  rmapM (nth_r l) (group_positions (map (row_key cells) l) k) =
    Ok (List.filter (fun r => bool_decide (row_key cells r = Some k)) l).
Proof.
  induction l as [|r l IH]; [done|].
  cbn [map]. rewrite group_positions_cons. cbn [List.filter].
  destruct (decide (row_key cells r = Some k)) as [Hk|Hne].
  - rewrite !bool_decide_eq_true_2 by done. simpl.
    rewrite rmapM_nth_r_shift, IH. done.
  - rewrite !bool_decide_eq_false_2 by done. simpl.
    by rewrite rmapM_nth_r_shift, IH.
Qed.

(** For a key of the grouped frame, [f.iloc[groups[k], :]] selects
    exactly the rows of [f] with that key, in file order, and keeps the
    columns. *)
Lemma cell_subset_rows f cells g k :
  groupby f cells = Ok g -> k ∈ map fst g ->
  exists s, cell_subset f g k = Ok s /\ columns s = columns f /\ rows s = cell_rows f cells k.
Proof.
  intros (_ & ->)%groupby_Ok Hk. rewrite group_dict_fst in Hk. unfold cell_subset.
  rewrite (groups_get_elem _ k (group_positions (map (row_key cells) (rows f)) k)).
  - simpl. unfold iloc. rewrite rmapM_group_positions. simpl. by eexists.
  - rewrite group_dict_fst. apply groupby_keys_NoDup.
  - apply group_dict_elem. split; [by apply group_dict_key | done].
Qed.

Lemma cell_rows_wf f cells k s :
  frame_wf f -> columns s = columns f -> rows s = cell_rows f cells k -> frame_wf s.
Proof.
  unfold frame_wf, cell_rows. intros Hwf Hc Hr. rewrite Hr, Hc.
  apply Forall_forall. intros r Hin%list_elem_of_In. apply filter_In in Hin as [Hin _].
  rewrite Forall_forall in Hwf. apply Hwf. by apply list_elem_of_In.
Qed.

Lemma cell_rows_weights f cells k :
  Forall (fun r => 0 <= row_weight r) (rows f) ->
  Forall (fun x => 0 <= x) (map row_weight (cell_rows f cells k)).
Proof.
  intros Hw. apply Forall_fmap. unfold cell_rows. rewrite Forall_forall in Hw |- *.
  intros r Hin%list_elem_of_In. apply filter_In in Hin as [Hin _]. apply Hw. by apply list_elem_of_In.
Qed.

(** The cell of a grouped frame, with everything the matching needs. *)
Lemma cell_subset_ok f cells g k :
  frame_wf f -> Forall (fun r => 0 <= row_weight r) (rows f) ->
  groupby f cells = Ok g -> k ∈ map fst g ->
  exists s, cell_subset f g k = Ok s /\ frame_wf s /\ columns s = columns f /\
    Forall (fun x => 0 <= x) (weights s) /\ qsum (weights s) = cell_mass f cells k /\
    ids s ⊆ ids f.
Proof.
  intros Hwf Hw Hg Hk. destruct (cell_subset_rows f cells g k Hg Hk) as (s & Hs & Hc & Hr).
  exists s. split; [done|]. split; [by eapply cell_rows_wf|]. split; [done|].
  unfold weights, cell_mass. rewrite Hr. split; [by apply cell_rows_weights|]. split; [done|].
  unfold ids. rewrite Hr. intros x (r & -> & Hin)%list_elem_of_fmap.
  apply list_elem_of_fmap. exists r. split; [done|].
  apply list_elem_of_In, filter_In in Hin as [Hin _]. by apply list_elem_of_In.
Qed.

(** An output row comes from the input files: its DINA and CPS ids are
    ids of the two files, it carries an SCF id of the SCF file exactly
    when there is one, and its weight is non-negative. *)
Definition entry_from (dina cps : Frame) (scf : option Frame) (e : Entry) : Prop :=
  e_dina e ∈ ids dina /\ e_cps e ∈ ids cps /\ 0 <= e_weight e /\
  match scf, e_scf e with
  | Some f, Some s => s ∈ ids f
  | None, None => True
  | _, _ => False
  end.

Lemma entry_from_mono dina cps scf dina' cps' scf' e :
  ids dina ⊆ ids dina' -> ids cps ⊆ ids cps' ->
  (forall f, scf = Some f -> exists f', scf' = Some f' /\ ids f ⊆ ids f') ->
  (scf = None -> scf' = None) ->
  entry_from dina cps scf e -> entry_from dina' cps' scf' e.
Proof.
  intros Hd Hc Hs Hn (Hed & Hec & Hew & He). split_and!; [by apply Hd | by apply Hc | done |].
  destruct scf as [f|], (e_scf e) as [x|]; try done.
  - destruct (Hs f eq_refl) as (f' & -> & Hf). by apply Hf.
  - by rewrite Hn.
Qed.

Lemma entry_from_scf dina cps scf e : entry_from dina cps scf e -> is_Some (e_scf e) <-> is_Some scf.
Proof.
  intros (_ & _ & _ & He). destruct scf, (e_scf e); try done; split; intros [? ?]; by eexists || done.
Qed.

Lemma length_weights f : length (weights f) = length (rows f).
Proof. apply length_map. Qed.

(** ** The matching of one cell *)

Section CellProofs.
Context `{Hspec : EMDSolverSpec}.

(** The solver reports success on the problems it is given: POT's
    network simplex with [numItermax=1e9] does on the cells of the data;
    the code does not check it. *)
Hypothesis emd_optimal : forall a b M it, snd (emd_solve a b M it) = OPTIMAL.

Lemma ot_emd_plan a b M it :
  marginal a -> marginal b -> has_shape M (length a) (length b) -> is_plan a b (ot_emd a b M it).
Proof. intros Ha Hb HM. by apply emd_solve_plan. Qed.

(** Column dictionaries that fit the two frames. *)
Definition dict_fits (d : list (string * string)) (fa fb : Frame) : Prop :=
  NoDup (map fst d) /\ Forall (fun c => c ∈ columns fa) (map fst d) /\
  Forall (fun c => c ∈ columns fb) (map snd d).

Lemma stage1_ok ds cs mcps :
  frame_wf ds -> frame_wf cs -> dict_fits mcps ds cs ->
  Forall (fun x => 0 <= x) (weights ds) -> Forall (fun x => 0 <= x) (weights cs) ->
  0 < qsum (weights ds) -> 0 < qsum (weights cs) ->
  exists G, stage1 ds cs mcps = Ok (G, qsum (weights ds)) /\
    is_plan (normalize (weights ds)) (normalize (weights cs)) G.
Proof.
  intros Hwd Hwc (Hnd & Hcd & Hcc) Hdw Hcw Hdm Hcm. unfold stage1.
  rewrite paired_columns_ok by done. simpl.
  destruct (cost_matrix_ok ds cs (map fst mcps) (map snd mcps) Hwd Hwc Hcd Hcc)
    as (C & -> & HC); [by rewrite !length_map|]. simpl.
  eexists. split; [reflexivity|]. apply ot_emd_plan; [by apply normalize_is_marginal..|].
  by rewrite !length_normalize, !length_weights.
Qed.

(** The shape of a plan between the two frames, read off its marginals. *)
Lemma plan_shape_frames ds cs G :
  is_plan (normalize (weights ds)) (normalize (weights cs)) G ->
  has_shape G (length (rows ds)) (length (rows cs)).
Proof. intros [HG _]. by rewrite !length_normalize, !length_weights in HG. Qed.

(** The intermediate weights are non-negative. *)
Lemma inter_weights_nonneg ds cs m G (cols : list string) inter :
  0 <= m -> Forall (Forall (fun x => 0 <= x)) G ->
  Forall2 (fun ij r => ids ds !! ij.1 = Some (ir_dina r) /\ ids cs !! ij.2 = Some (ir_cps r) /\
      ir_weight r = m * plan_val G ij /\
      exists dr, rows ds !! ij.1 = Some dr /\
        Forall2 (fun c v => row_vals dr !! c = Some v) cols (ir_vals r)) (nonzero G) inter ->
  Forall (fun x => 0 <= x) (map ir_weight inter).
Proof.
  intros Hm HG H2. apply Forall_fmap. apply (Forall2_Forall_snd _ _ _ _ H2).
  intros ij r (_ & _ & Hw & _). unfold compose. rewrite Hw.
  apply Qmult_le_0_compat; [done | by apply plan_val_nonneg].
Qed.

(** Lines 122-177 on a first plan of total one: the intermediate file,
    the second plan and the rows, with what each carries. *)
Lemma stage2_entries ds cs ss mscf a b G m :
  frame_wf ds -> frame_wf ss -> dict_fits mscf ds ss ->
  Forall (fun x => 0 <= x) (weights ss) -> 0 < qsum (weights ss) ->
  is_plan a b G -> has_shape G (length (rows ds)) (length (rows cs)) -> marginal a -> 0 < m ->
  exists inter G2 es, stage2 ds cs ss mscf G m = Ok es /\
    Forall2 (fun ij r => ids ds !! ij.1 = Some (ir_dina r) /\ ids cs !! ij.2 = Some (ir_cps r) /\
      ir_weight r = m * plan_val G ij /\
      exists dr, rows ds !! ij.1 = Some dr /\
        Forall2 (fun c v => row_vals dr !! c = Some v) (map fst mscf) (ir_vals r)) (nonzero G) inter /\
    qsum (map ir_weight inter) == m /\
    marginal (normalize (map ir_weight inter)) /\
    is_plan (normalize (map ir_weight inter)) (normalize (weights ss)) G2 /\
    Forall2 (fun kl e => (exists r, inter !! kl.1 = Some r /\ e_dina e = ir_dina r /\ e_cps e = ir_cps r) /\
      (exists s, ids ss !! kl.2 = Some s /\ e_scf e = Some s) /\
      e_weight e = qsum (map ir_weight inter) * plan_val G2 kl) (nonzero G2) es.
Proof.
  intros Hwd Hws (Hnd & Hcd & Hcs) Hps Hms Hplan Hshape Ha Hm.
  pose proof (is_plan_total_one _ _ _ Hplan Ha) as Hone.
  unfold stage2. rewrite paired_columns_ok by done. simpl.
  destruct (build_inter_ok ds cs m G (map fst mscf) Hwd Hcd Hshape) as (inter & -> & H2 & Hiw);
    [rewrite Hone; discriminate|]. simpl.
  destruct (loc_matrix_wf ss (map snd mscf) Hws Hcs) as (XS & HXS & HlXS & _).
  rewrite HXS. simpl. rewrite !length_map, cdist_cityblock_Ok. simpl.
  rewrite Hone, Qmult_1_r in Hiw.
  assert (marginal (normalize (map ir_weight inter))) as Hmi.
  { apply normalize_is_marginal; [|rewrite Hiw; lra].
    apply (inter_weights_nonneg ds cs m G (map fst mscf)); [lra | apply Hplan | exact H2]. }
  set (C2 := map (fun u => map (cityblock u) XS) (map ir_vals inter)).
  set (G2 := ot_emd (normalize (map ir_weight inter)) (normalize (weights ss)) C2 numItermax).
  assert (is_plan (normalize (map ir_weight inter)) (normalize (weights ss)) G2) as HG2.
  { apply ot_emd_plan; [done | by apply normalize_is_marginal |].
    apply cdist_shape; rewrite ?length_normalize, ?length_map, ?length_weights; done. }
  destruct (extract_matches2_ok inter ss (qsum (map ir_weight inter)) G2) as (es & Hes & H2' & _).
  - destruct HG2 as [HG2 _]. by rewrite !length_normalize, length_map, length_weights in HG2.
  - rewrite (is_plan_total_one _ _ _ HG2 Hmi). discriminate.
  - exists inter, G2, es. split_and!; done.
Qed.

(** Lines 122-177 on a first plan of total one: the chained match
    succeeds, its rows come from the three frames and their weights add
    up to the first stage's mass. *)
Lemma stage2_ok ds cs ss mscf a b G m :
  frame_wf ds -> frame_wf ss -> dict_fits mscf ds ss ->
  Forall (fun x => 0 <= x) (weights ss) -> 0 < qsum (weights ss) ->
  is_plan a b G -> has_shape G (length (rows ds)) (length (rows cs)) -> marginal a -> 0 < m ->
  exists es, stage2 ds cs ss mscf G m = Ok es /\
    Forall (entry_from ds cs (Some ss)) es /\ qsum (map e_weight es) == m.
Proof.
  intros Hwd Hws Hfit Hps Hms Hplan Hshape Ha Hm.
  destruct (stage2_entries ds cs ss mscf a b G m) as (inter & G2 & es & Hes & H2 & Hiw & Hmi & HG2 & H2');
    [done..|].
  exists es. split; [exact Hes|]. split.
  - assert (Forall (fun r => ir_dina r ∈ ids ds /\ ir_cps r ∈ ids cs) inter) as Hin.
    { apply (Forall2_Forall_snd _ _ _ _ H2). intros ij r (Hd & Hc & _).
      split; by eapply list_elem_of_lookup_2. }
    apply (Forall2_Forall_snd _ _ _ _ H2'). intros kl e ((r & Hr & Hed & Hec) & (sid & Hsid & Hs) & Hw).
    destruct (proj1 (Forall_lookup _ _) Hin _ _ Hr) as [Hd Hc].
    unfold entry_from. rewrite Hed, Hec, Hs, Hw. split_and!; [done | done | |].
    + apply Qmult_le_0_compat; [rewrite Hiw; lra | apply plan_val_nonneg, (proj1 (proj2 HG2))].
    + by eapply list_elem_of_lookup_2.
  - rewrite (rescaled_weights_sum e_weight G2 (qsum (map ir_weight inter)) es), (is_plan_total_one _ _ _ HG2 Hmi), Hiw; [lra|].
    apply (Forall2_impl _ _ _ _ H2'). by intros kl e (_ & _ & ?).
Qed.

(** The requirements on the SCF side of a cell, when there is one. *)
Definition scf_cell_ok (scf : option (Frame * Groups)) (dina : Frame) (cells : list string)
    (mscf : list (string * string)) (k : Key) : Prop :=
  forall f sg, scf = Some (f, sg) ->
    frame_wf f /\ Forall (fun r => 0 <= row_weight r) (rows f) /\ groupby f cells = Ok sg /\
    k ∈ map fst sg /\ dict_fits mscf dina f /\ 0 < cell_mass f cells k.

(** One cell of the main loop, with or without SCF: no error, rows with an
    SCF id exactly when SCF is matched, weights adding up to the DINA cell
    mass. *)
Lemma process_cell_mass dina cps dg cg scf cells mcps mscf k :
  frame_wf dina -> frame_wf cps ->
  Forall (fun r => 0 <= row_weight r) (rows dina) -> Forall (fun r => 0 <= row_weight r) (rows cps) ->
  groupby dina cells = Ok dg -> groupby cps cells = Ok cg ->
  k ∈ map fst dg -> k ∈ map fst cg -> dict_fits mcps dina cps ->
  0 < cell_mass dina cells k -> 0 < cell_mass cps cells k -> scf_cell_ok scf dina cells mscf k ->
  exists es, process_cell dina cps dg cg scf mcps mscf k = Ok es /\
    Forall (entry_from dina cps (option_map fst scf)) es /\
    qsum (map e_weight es) == cell_mass dina cells k.
Proof.
  intros Hwd Hwc Hpd Hpc Hdg Hcg Hkd Hkc Hfit1 Hmd Hmc Hscf.
  destruct (cell_subset_ok dina cells dg k Hwd Hpd Hdg Hkd) as (ds & Hds & Hwds & Hcds & Hpds & Hmds & Hids).
  destruct (cell_subset_ok cps cells cg k Hwc Hpc Hcg Hkc) as (cs & Hcs & Hwcs & Hccs & Hpcs & Hmcs & Hics).
  destruct (stage1_ok ds cs mcps) as (G & HG & Hplan);
    [done | done | unfold dict_fits in *; by rewrite Hcds, Hccs | done | done | by rewrite Hmds | by rewrite Hmcs |].
  assert (marginal (normalize (weights ds))) as Hma by (apply normalize_is_marginal; [done | by rewrite Hmds]).
  unfold process_cell. rewrite Hds, Hcs. simpl.
  destruct scf as [[f sg]|].
  - destruct (Hscf f sg eq_refl) as (Hws & Hps & Hsg & Hks & Hfit2 & Hms).
    destruct (cell_subset_ok f cells sg k Hws Hps Hsg Hks) as (ss & Hss & Hwss & Hcss & Hpss & Hmss & Hiss).
    rewrite Hss. simpl. rewrite HG. simpl.
    destruct (stage2_ok ds cs ss mscf (normalize (weights ds)) (normalize (weights cs)) G
      (qsum (weights ds)) Hwds Hwss) as (es & Hes & Hscf' & Hsum);
      [unfold dict_fits in *; by rewrite Hcds, Hcss | done | by rewrite Hmss | exact Hplan
      | by apply plan_shape_frames | done | by rewrite Hmds |].
    exists es. split; [done|]. split; [|by rewrite Hsum, Hmds].
    apply (Forall_impl _ _ _ Hscf'). intros e. apply entry_from_mono; [done | done | | by intros].
    intros f' [= <-]. by exists f.
  - simpl. rewrite HG. simpl.
    destruct (extract_matches_ok ds cs (qsum (weights ds)) G) as (es & Hes & H2 & Hsum);
      [by apply plan_shape_frames | rewrite (is_plan_total_one _ _ _ Hplan Hma); discriminate|].
    exists es. split; [done|]. split.
    + apply (Forall2_Forall_snd _ _ _ _ H2). intros ij e (Hd & Hc & Hn & Hw).
      unfold entry_from. rewrite Hn, Hw. split_and!; [| | | done].
      * apply Hids. by eapply list_elem_of_lookup_2.
      * apply Hics. by eapply list_elem_of_lookup_2.
      * apply Qmult_le_0_compat; [by apply qsum_nonneg | apply plan_val_nonneg, (proj1 (proj2 Hplan))].
    + rewrite Hsum, (is_plan_total_one _ _ _ Hplan Hma), Hmds. lra.
Qed.

(** C5: in a run without SCF, a DINA cell that CPS also has, on
    well-formed files with non-negative weights, column dictionaries that
    fit and cells of positive mass, is matched without error, and the
    weights of its (dina_id, cps_id, weight) rows add up to the mass of the
    DINA cell: stage 1 conserves mass. *)
Theorem process_cell_mass_stage1 dina cps dg cg cells mcps mscf k :
  frame_wf dina -> frame_wf cps ->
  Forall (fun r => 0 <= row_weight r) (rows dina) -> Forall (fun r => 0 <= row_weight r) (rows cps) ->
  groupby dina cells = Ok dg -> groupby cps cells = Ok cg ->
  k ∈ map fst dg -> k ∈ map fst cg -> dict_fits mcps dina cps ->
  0 < cell_mass dina cells k -> 0 < cell_mass cps cells k ->
  exists es, process_cell dina cps dg cg None mcps mscf k = Ok es /\
    Forall (entry_from dina cps None) es /\
    qsum (map e_weight es) == cell_mass dina cells k.
Proof.
  intros Hwd Hwc Hpd Hpc Hdg Hcg Hkd Hkc Hfit Hmd Hmc.
  by apply (process_cell_mass dina cps dg cg None cells mcps mscf k).
Qed.

(** C6: in a run with SCF, a DINA cell that CPS and SCF also have, on
    well-formed files with non-negative weights, dictionaries that fit and
    cells of positive mass, goes through both stages without error, and
    the weights of its (dina_id, cps_id, scf_id, weight) rows add up to the
    mass of the DINA cell: the intermediate file carries the DINA mass and
    the second stage, rescaled by it, conserves it. *)
Theorem process_cell_mass_stage2 dina cps scf dg cg sg cells mcps mscf k :
  frame_wf dina -> frame_wf cps -> frame_wf scf ->
  Forall (fun r => 0 <= row_weight r) (rows dina) -> Forall (fun r => 0 <= row_weight r) (rows cps) ->
  Forall (fun r => 0 <= row_weight r) (rows scf) ->
  groupby dina cells = Ok dg -> groupby cps cells = Ok cg -> groupby scf cells = Ok sg ->
  k ∈ map fst dg -> k ∈ map fst cg -> k ∈ map fst sg ->
  dict_fits mcps dina cps -> dict_fits mscf dina scf ->
  0 < cell_mass dina cells k -> 0 < cell_mass cps cells k -> 0 < cell_mass scf cells k ->
  exists es, process_cell dina cps dg cg (Some (scf, sg)) mcps mscf k = Ok es /\
    Forall (entry_from dina cps (Some scf)) es /\
    qsum (map e_weight es) == cell_mass dina cells k.
Proof.
  intros Hwd Hwc Hws Hpd Hpc Hps Hdg Hcg Hsg Hkd Hkc Hks Hfit1 Hfit2 Hmd Hmc Hms.
  apply (process_cell_mass dina cps dg cg (Some (scf, sg)) cells mcps mscf k); [done.. |].
  by intros f g [= <- <-].
Qed.

(** The loop over the DINA cells and the concatenation, when every cell
    meets the requirements of [process_cell_mass]. *)
Lemma loop_mass dina cps dg cg scf cells mcps mscf :
  frame_wf dina -> frame_wf cps ->
  Forall (fun r => 0 <= row_weight r) (rows dina) -> Forall (fun r => 0 <= row_weight r) (rows cps) ->
  groupby dina cells = Ok dg -> groupby cps cells = Ok cg -> dict_fits mcps dina cps -> dg <> [] ->
  (forall k, k ∈ map fst dg ->
     k ∈ map fst cg /\ 0 < cell_mass dina cells k /\ 0 < cell_mass cps cells k /\
     scf_cell_ok scf dina cells mscf k) ->
  exists es, rbind (rmapM (process_cell dina cps dg cg scf mcps mscf) (map fst dg)) pd_concat = Ok es /\
    Forall (entry_from dina cps (option_map fst scf)) es /\
    qsum (map e_weight es) == qsum (map (cell_mass dina cells) (map fst dg)).
Proof.
  intros Hwd Hwc Hpd Hpc Hdg Hcg Hfit Hne Hk.
  destruct (rmapM_total (process_cell dina cps dg cg scf mcps mscf)
    (fun k es => Forall (entry_from dina cps (option_map fst scf)) es /\
       qsum (map e_weight es) == cell_mass dina cells k) (map fst dg)) as (tables & -> & Ht).
  { intros k Hkd. destruct (Hk k Hkd) as (Hkc & Hmd & Hmc & Hscf).
    destruct (process_cell_mass dina cps dg cg scf cells mcps mscf k) as (es & Hes & Hs & Hsum); [done..|].
    eauto. }
  simpl. destruct tables as [|t ts] eqn:Et.
  - apply Forall2_length in Ht. rewrite length_map in Ht. by destruct dg.
  - rewrite <- Et in Ht |- *. eexists. split; [by rewrite Et|]. split.
    + apply Forall_concat, (Forall2_Forall_snd _ _ _ _ Ht). by intros k es [? _].
    + rewrite concat_map, qsum_concat, map_map.
      apply (qsum_Forall2 (fun t => qsum (map e_weight t)) (cell_mass dina cells)).
      apply Forall2_flip, (Forall2_impl _ _ _ _ Ht). by intros k es [_ ?].
Qed.

(** The first stage of a cell without SCF, with the plan and the rows
    it writes. *)
Lemma process_cell_stage1_entries dina cps dg cg cells mcps mscf k :
  frame_wf dina -> frame_wf cps ->
  Forall (fun r => 0 <= row_weight r) (rows dina) -> Forall (fun r => 0 <= row_weight r) (rows cps) ->
  groupby dina cells = Ok dg -> groupby cps cells = Ok cg ->
  k ∈ map fst dg -> k ∈ map fst cg -> dict_fits mcps dina cps ->
  0 < cell_mass dina cells k -> 0 < cell_mass cps cells k ->
  exists ds cs G es, cell_subset dina dg k = Ok ds /\ cell_subset cps cg k = Ok cs /\
    rows ds = cell_rows dina cells k /\ rows cs = cell_rows cps cells k /\
    process_cell dina cps dg cg None mcps mscf k = Ok es /\
    is_plan (normalize (weights ds)) (normalize (weights cs)) G /\
    Forall2 (fun ij e => ids ds !! ij.1 = Some (e_dina e) /\ ids cs !! ij.2 = Some (e_cps e) /\
      e_scf e = None /\ e_weight e = qsum (weights ds) * plan_val G ij) (nonzero G) es.
Proof.
  intros Hwd Hwc Hpd Hpc Hdg Hcg Hkd Hkc Hfit Hmd Hmc.
  destruct (cell_subset_ok dina cells dg k Hwd Hpd Hdg Hkd) as (ds & Hds & Hwds & Hcds & Hpds & Hmds & _).
  destruct (cell_subset_ok cps cells cg k Hwc Hpc Hcg Hkc) as (cs & Hcs & Hwcs & Hccs & Hpcs & Hmcs & _).
  destruct (cell_subset_rows dina cells dg k Hdg Hkd) as (ds' & Hds' & _ & Hr).
  rewrite Hds in Hds'. injection Hds' as <-.
  destruct (cell_subset_rows cps cells cg k Hcg Hkc) as (cs' & Hcs' & _ & Hrc).
  rewrite Hcs in Hcs'. injection Hcs' as <-.
  destruct (stage1_ok ds cs mcps) as (G & HG & Hplan);
    [done | done | unfold dict_fits in *; by rewrite Hcds, Hccs | done | done | by rewrite Hmds | by rewrite Hmcs |].
  assert (marginal (normalize (weights ds))) as Hma by (apply normalize_is_marginal; [done | by rewrite Hmds]).
  destruct (extract_matches_ok ds cs (qsum (weights ds)) G) as (es & Hes & H2 & _);
    [by apply plan_shape_frames | rewrite (is_plan_total_one _ _ _ Hplan Hma); discriminate|].
  exists ds, cs, G, es. split_and!; try done.
  unfold process_cell. rewrite Hds, Hcs. simpl. by rewrite HG.
Qed.

(** C7: Record-level conservation in a run without SCF (the spec's
    marginal fidelity, section 8, read on the output): when the ids of the
    DINA file are distinct, the rows a cell writes for a DINA record
    weigh, together, exactly that record's weight. *)
Theorem process_cell_record_mass_stage1 dina cps dg cg cells mcps mscf k :
  frame_wf dina -> frame_wf cps ->
  Forall (fun r => 0 <= row_weight r) (rows dina) -> Forall (fun r => 0 <= row_weight r) (rows cps) ->
  groupby dina cells = Ok dg -> groupby cps cells = Ok cg ->
  k ∈ map fst dg -> k ∈ map fst cg -> dict_fits mcps dina cps ->
  0 < cell_mass dina cells k -> 0 < cell_mass cps cells k -> NoDup (ids dina) ->
  exists es, process_cell dina cps dg cg None mcps mscf k = Ok es /\
    forall r, r ∈ cell_rows dina cells k ->
      qsum (map e_weight (List.filter (fun e => bool_decide (e_dina e = row_id r)) es)) == row_weight r.
Proof.
  intros Hwd Hwc Hpd Hpc Hdg Hcg Hkd Hkc Hfit Hmd Hmc Hnd.
  destruct (process_cell_stage1_entries dina cps dg cg cells mcps mscf k) as (ds & cs & G & es & _ & _ & Hr & _ & Hes & Hplan & H2);
    [done..|].
  exists es. split; [done|]. intros r Hin. rewrite <- Hr in Hin. apply list_elem_of_lookup in Hin as [i0 Hi0].
  assert (qsum (weights ds) == cell_mass dina cells k) as Hm by (unfold weights, cell_mass; by rewrite Hr).
  assert (normalize (weights ds) !! i0 = Some (row_weight r / qsum (weights ds))) as Ha
    by (unfold normalize, weights; by rewrite !list_lookup_fmap, Hi0).
  destruct Hplan as (_ & _ & Hrows & _).
  destruct (Forall2_lookup_r _ _ _ _ _ Hrows Ha) as (row0 & Hrow0 & Hsum).
  rewrite (key_mass_unique e_dina e_weight (ids ds) G (qsum (weights ds)) es (row_id r) i0 row0).
  - rewrite Hsum. apply Qmult_div_r. rewrite Hm. lra.
  - unfold ids. rewrite Hr. by apply NoDup_map_filter.
  - unfold ids. by rewrite list_lookup_fmap, Hi0.
  - done.
  - apply (Forall2_impl _ _ _ _ H2). intros ij e (Hd & _ & _ & Hw). done.
Qed.

(** C9: Record-level fidelity on the CPS side in a run without SCF: when the
    ids of the CPS file are distinct, the rows a cell writes for a CPS
    record weigh, together, that record's weight rescaled to the DINA
    population of the cell, [w * (DINA cell mass / CPS cell mass)]: the
    column marginal of the plan, read on the output. *)
Theorem process_cell_cps_record_mass dina cps dg cg cells mcps mscf k :
  frame_wf dina -> frame_wf cps ->
  Forall (fun r => 0 <= row_weight r) (rows dina) -> Forall (fun r => 0 <= row_weight r) (rows cps) ->
  groupby dina cells = Ok dg -> groupby cps cells = Ok cg ->
  k ∈ map fst dg -> k ∈ map fst cg -> dict_fits mcps dina cps ->
  0 < cell_mass dina cells k -> 0 < cell_mass cps cells k -> NoDup (ids cps) ->
  exists es, process_cell dina cps dg cg None mcps mscf k = Ok es /\
    forall r, r ∈ cell_rows cps cells k ->
      qsum (map e_weight (List.filter (fun e => bool_decide (e_cps e = row_id r)) es)) ==
      row_weight r * (cell_mass dina cells k / cell_mass cps cells k).
Proof.
  intros Hwd Hwc Hpd Hpc Hdg Hcg Hkd Hkc Hfit Hmd Hmc Hnd.
  destruct (process_cell_stage1_entries dina cps dg cg cells mcps mscf k)
    as (ds & cs & G & es & _ & _ & Hrd & Hrc & Hes & Hplan & H2); [done..|].
  exists es. split; [done|]. intros r Hin. rewrite <- Hrc in Hin. apply list_elem_of_lookup in Hin as [j0 Hj0].
  assert (qsum (weights ds) == cell_mass dina cells k) as Hmd' by (unfold weights, cell_mass; by rewrite Hrd).
  assert (qsum (weights cs) == cell_mass cps cells k) as Hmc' by (unfold weights, cell_mass; by rewrite Hrc).
  destruct Hplan as ([_ Hshape] & _ & _ & Hcols).
  rewrite length_normalize, length_weights in Hshape.
  assert (normalize (weights cs) !! j0 = Some (row_weight r / qsum (weights cs))) as Hb
    by (unfold normalize, weights; by rewrite !list_lookup_fmap, Hj0).
  destruct (Forall2_lookup_r _ _ _ _ _ Hcols Hb) as (j & Hj & Hcol).
  apply lookup_seq in Hj as [-> Hj].
  rewrite (key_mass_col_unique e_cps e_weight (ids cs) G (length (rows cs)) (qsum (weights ds)) es (row_id r) j0);
    [| done | unfold ids; rewrite Hrc; by apply NoDup_map_filter | unfold ids; by rewrite list_lookup_fmap, Hj0
     | by apply lookup_lt_Some in Hj0 | apply (Forall2_impl _ _ _ _ H2); by intros ij e (_ & ? & _ & ?)].
  rewrite Hcol, Hmd', Hmc'. unfold Qdiv. ring.
Qed.

(** A cell with SCF: the first plan, the intermediate file, the second
    plan and the rows, with what each carries. *)
Lemma process_cell_stage2_entries dina cps scf dg cg sg cells mcps mscf k :
  frame_wf dina -> frame_wf cps -> frame_wf scf ->
  Forall (fun r => 0 <= row_weight r) (rows dina) -> Forall (fun r => 0 <= row_weight r) (rows cps) ->
  Forall (fun r => 0 <= row_weight r) (rows scf) ->
  groupby dina cells = Ok dg -> groupby cps cells = Ok cg -> groupby scf cells = Ok sg ->
  k ∈ map fst dg -> k ∈ map fst cg -> k ∈ map fst sg ->
  dict_fits mcps dina cps -> dict_fits mscf dina scf ->
  0 < cell_mass dina cells k -> 0 < cell_mass cps cells k -> 0 < cell_mass scf cells k ->
  exists ds cs ss G inter G2 es,
    cell_subset dina dg k = Ok ds /\ cell_subset cps cg k = Ok cs /\ cell_subset scf sg k = Ok ss /\
    rows ds = cell_rows dina cells k /\ rows ss = cell_rows scf cells k /\
    process_cell dina cps dg cg (Some (scf, sg)) mcps mscf k = Ok es /\
    is_plan (normalize (weights ds)) (normalize (weights cs)) G /\
    Forall2 (fun ij r => ids ds !! ij.1 = Some (ir_dina r) /\ ids cs !! ij.2 = Some (ir_cps r) /\
      ir_weight r = qsum (weights ds) * plan_val G ij /\
      exists dr, rows ds !! ij.1 = Some dr /\
        Forall2 (fun c v => row_vals dr !! c = Some v) (map fst mscf) (ir_vals r)) (nonzero G) inter /\
    qsum (map ir_weight inter) == qsum (weights ds) /\
    is_plan (normalize (map ir_weight inter)) (normalize (weights ss)) G2 /\
    Forall2 (fun kl e => (exists r, inter !! kl.1 = Some r /\ e_dina e = ir_dina r /\ e_cps e = ir_cps r) /\
      (exists s, ids ss !! kl.2 = Some s /\ e_scf e = Some s) /\
      e_weight e = qsum (map ir_weight inter) * plan_val G2 kl) (nonzero G2) es.
Proof.
  intros Hwd Hwc Hws Hpd Hpc Hps Hdg Hcg Hsg Hkd Hkc Hks Hfit1 Hfit2 Hmd Hmc Hms.
  destruct (cell_subset_ok dina cells dg k Hwd Hpd Hdg Hkd) as (ds & Hds & Hwds & Hcds & Hpds & Hmds & _).
  destruct (cell_subset_ok cps cells cg k Hwc Hpc Hcg Hkc) as (cs & Hcs & Hwcs & Hccs & Hpcs & Hmcs & _).
  destruct (cell_subset_ok scf cells sg k Hws Hps Hsg Hks) as (ss & Hss & Hwss & Hcss & Hpss & Hmss & _).
  destruct (cell_subset_rows dina cells dg k Hdg Hkd) as (ds' & Hds' & _ & Hr).
  rewrite Hds in Hds'. injection Hds' as <-.
  destruct (cell_subset_rows scf cells sg k Hsg Hks) as (ss' & Hss' & _ & Hrs).
  rewrite Hss in Hss'. injection Hss' as <-.
  destruct (stage1_ok ds cs mcps) as (G & HG & Hplan);
    [done | done | unfold dict_fits in *; by rewrite Hcds, Hccs | done | done | by rewrite Hmds | by rewrite Hmcs |].
  assert (marginal (normalize (weights ds))) as Hma by (apply normalize_is_marginal; [done | by rewrite Hmds]).
  destruct (stage2_entries ds cs ss mscf (normalize (weights ds)) (normalize (weights cs)) G (qsum (weights ds)))
    as (inter & G2 & es & Hes & H1 & Hiw & _ & HG2 & H2);
    [done | done | unfold dict_fits in *; by rewrite Hcds, Hcss | done | by rewrite Hmss | done
    | by apply plan_shape_frames | done | by rewrite Hmds |].
  exists ds, cs, ss, G, inter, G2, es. split_and!; try done.
  unfold process_cell. rewrite Hds, Hcs. simpl. rewrite Hss. simpl. by rewrite HG.
Qed.

(** C8: Record-level conservation through both stages: when the ids of the
    DINA file are distinct, the (dina_id, cps_id, scf_id, weight) rows a
    cell writes for a DINA record weigh, together, exactly that record's
    weight: the first stage spreads it over the intermediate records, the
    second stage, rescaled by the intermediate mass, spreads each of those
    over SCF records without loss. *)
Theorem process_cell_record_mass_stage2 dina cps scf dg cg sg cells mcps mscf k :
  frame_wf dina -> frame_wf cps -> frame_wf scf ->
  Forall (fun r => 0 <= row_weight r) (rows dina) -> Forall (fun r => 0 <= row_weight r) (rows cps) ->
  Forall (fun r => 0 <= row_weight r) (rows scf) ->
  groupby dina cells = Ok dg -> groupby cps cells = Ok cg -> groupby scf cells = Ok sg ->
  k ∈ map fst dg -> k ∈ map fst cg -> k ∈ map fst sg ->
  dict_fits mcps dina cps -> dict_fits mscf dina scf ->
  0 < cell_mass dina cells k -> 0 < cell_mass cps cells k -> 0 < cell_mass scf cells k ->
  NoDup (ids dina) ->
  exists es, process_cell dina cps dg cg (Some (scf, sg)) mcps mscf k = Ok es /\
    forall r, r ∈ cell_rows dina cells k ->
      qsum (map e_weight (List.filter (fun e => bool_decide (e_dina e = row_id r)) es)) == row_weight r.
Proof.
  intros Hwd Hwc Hws Hpd Hpc Hps Hdg Hcg Hsg Hkd Hkc Hks Hfit1 Hfit2 Hmd Hmc Hms Hnd.
  destruct (process_cell_stage2_entries dina cps scf dg cg sg cells mcps mscf k)
    as (ds & cs & ss & G & inter & G2 & es & _ & _ & _ & Hr & _ & Hes & (_ & _ & HGr & _) & H1 & Hiw
        & (_ & _ & HG2r & _) & H2); [done..|].
  exists es. split; [done|]. intros r Hin. rewrite <- Hr in Hin. apply list_elem_of_lookup in Hin as [i0 Hi0].
  assert (qsum (weights ds) == cell_mass dina cells k) as Hm by (unfold weights, cell_mass; by rewrite Hr).
  assert (normalize (weights ds) !! i0 = Some (row_weight r / qsum (weights ds))) as Ha
    by (unfold normalize, weights; by rewrite !list_lookup_fmap, Hi0).
  destruct (Forall2_lookup_r _ _ _ _ _ HGr Ha) as (row0 & Hrow0 & Hsum).
  rewrite (key_mass e_dina e_weight (map ir_dina inter) G2 (qsum (map ir_weight inter)) es (row_id r)).
  2:{ apply (Forall2_impl _ _ _ _ H2). intros kl e ((r' & Hr' & He & _) & _ & Hw).
      rewrite list_lookup_fmap, Hr', He. by split. }
  rewrite key_select_index
    by (rewrite (Forall2_length _ _ _ HG2r), length_normalize, !length_map; done).
  rewrite (plan_rows_select _ _ _ _ HG2r), select_normalize, select_filter.
  rewrite (key_mass_unique ir_dina ir_weight (ids ds) G (qsum (weights ds)) inter (row_id r) i0 row0);
    [| unfold ids; rewrite Hr; by apply NoDup_map_filter | unfold ids; by rewrite list_lookup_fmap, Hi0
     | done | apply (Forall2_impl _ _ _ _ H1); by intros ij r' (? & _ & ? & _)].
  assert (~ qsum (weights ds) == 0) as Hnz by (rewrite Hm; lra).
  rewrite Hiw, Qmult_div_r by done. rewrite Hsum. by apply Qmult_div_r.
Qed.

(** C10: Record-level fidelity on the SCF side in a run with SCF: when the
    ids of the SCF file are distinct, the rows a cell writes for an SCF
    record weigh, together, that record's weight rescaled to the DINA
    population of the cell, [w * (DINA cell mass / SCF cell mass)]: the
    second plan's column marginal, rescaled by the intermediate mass,
    which is the DINA cell mass. *)
Theorem process_cell_scf_record_mass dina cps scf dg cg sg cells mcps mscf k :
  frame_wf dina -> frame_wf cps -> frame_wf scf ->
  Forall (fun r => 0 <= row_weight r) (rows dina) -> Forall (fun r => 0 <= row_weight r) (rows cps) ->
  Forall (fun r => 0 <= row_weight r) (rows scf) ->
  groupby dina cells = Ok dg -> groupby cps cells = Ok cg -> groupby scf cells = Ok sg ->
  k ∈ map fst dg -> k ∈ map fst cg -> k ∈ map fst sg ->
  dict_fits mcps dina cps -> dict_fits mscf dina scf ->
  0 < cell_mass dina cells k -> 0 < cell_mass cps cells k -> 0 < cell_mass scf cells k ->
  NoDup (ids scf) ->
  exists es, process_cell dina cps dg cg (Some (scf, sg)) mcps mscf k = Ok es /\
    forall r, r ∈ cell_rows scf cells k ->
      qsum (map e_weight (List.filter (fun e => bool_decide (e_scf e = Some (row_id r))) es)) ==
      row_weight r * (cell_mass dina cells k / cell_mass scf cells k).
Proof.
  intros Hwd Hwc Hws Hpd Hpc Hps Hdg Hcg Hsg Hkd Hkc Hks Hfit1 Hfit2 Hmd Hmc Hms Hnd.
  destruct (process_cell_stage2_entries dina cps scf dg cg sg cells mcps mscf k)
    as (ds & cs & ss & G & inter & G2 & es & _ & _ & _ & Hrd & Hrs & Hes & _ & _ & Hiw
        & ([_ Hshape] & _ & _ & Hcols) & H2);
    [done..|].
  exists es. split; [done|]. intros r Hin. rewrite <- Hrs in Hin. apply list_elem_of_lookup in Hin as [j0 Hj0].
  assert (qsum (weights ds) == cell_mass dina cells k) as Hmd' by (unfold weights, cell_mass; by rewrite Hrd).
  assert (qsum (weights ss) == cell_mass scf cells k) as Hms' by (unfold weights, cell_mass; by rewrite Hrs).
  rewrite length_normalize, length_weights in Hshape.
  assert (normalize (weights ss) !! j0 = Some (row_weight r / qsum (weights ss))) as Hb
    by (unfold normalize, weights; by rewrite !list_lookup_fmap, Hj0).
  destruct (Forall2_lookup_r _ _ _ _ _ Hcols Hb) as (j & Hj & Hcol).
  apply lookup_seq in Hj as [-> Hj].
  rewrite (key_mass_col_unique e_scf e_weight (map Some (ids ss)) G2 (length (rows ss))
    (qsum (map ir_weight inter)) es (Some (row_id r)) j0);
    [| done | unfold ids; rewrite Hrs; apply NoDup_fmap_2; [apply _ | by apply NoDup_map_filter]
     | unfold ids; by rewrite !list_lookup_fmap, Hj0 | by apply lookup_lt_Some in Hj0
     | apply (Forall2_impl _ _ _ _ H2); intros kl e (_ & (s & Hs & ->) & Hw);
       by rewrite list_lookup_fmap, Hs].
  rewrite Hcol, Hiw, Hmd', Hms'. unfold Qdiv. ring.
Qed.

End CellProofs.

(** ** Keys and masses of the grouped frames *)

Lemma groupby_row_key f cells g k :
  groupby f cells = Ok g -> k ∈ map fst g <-> exists r, r ∈ rows f /\ row_key cells r = Some k.
Proof.
  intros (_ & ->)%groupby_Ok. rewrite group_dict_fst, group_dict_key, list_elem_of_fmap.
  split; intros (r & H1 & H2); exists r; split; by rewrite ?H1, ?H2.
Qed.

Lemma cell_mass_pos_key f cells g k :
  groupby f cells = Ok g -> 0 < cell_mass f cells k -> k ∈ map fst g.
Proof.
  intros Hg Hm. apply (groupby_row_key _ _ _ _ Hg). unfold cell_mass, cell_rows in Hm.
  destruct (List.filter _ (rows f)) as [|r rs] eqn:E; [simpl in Hm; lra|].
  assert (In r (List.filter (fun r => bool_decide (row_key cells r = Some k)) (rows f))) as Hin
    by (rewrite E; by left).
  apply filter_In in Hin as [Hin Hk]. apply bool_decide_eq_true in Hk.
  exists r. split; [by apply list_elem_of_In | done].
Qed.

(** The cell masses of a well-formed grouped frame add up to its total
    weight: no row is dropped. *)
Lemma cell_masses_sum f cells g :
  frame_wf f -> groupby f cells = Ok g -> qsum (map (cell_mass f cells) (map fst g)) == qsum (weights f).
Proof.
  intros Hwf Hg. pose proof (groupby_all_keys _ _ _ Hwf Hg) as Hall.
  apply groupby_Ok in Hg as [_ ->]. rewrite group_dict_fst. unfold cell_mass, cell_rows, weights.
  rewrite <- (qsum_partition (row_key cells) row_weight
    (map Some (merge_sort key_le (remove_dups (omap id (map (row_key cells) (rows f))))))).
  - rewrite map_map. reflexivity.
  - apply NoDup_map_inj; [by intros ?? [= ->] | apply groupby_keys_NoDup].
  - intros r Hr. destruct (Hall r Hr) as [k Hk]. rewrite Hk. apply list_elem_of_fmap.
    exists k. split; [done|]. apply group_dict_key, list_elem_of_fmap. by exists r.
Qed.

(** A well-formed frame with rows has groups. *)
Lemma groupby_nonempty f cells g : frame_wf f -> groupby f cells = Ok g -> rows f <> [] -> g <> [].
Proof.
  intros Hwf Hg Hr ->. destruct (rows f) as [|r rs] eqn:Er; [done|].
  destruct (groupby_all_keys _ _ _ Hwf Hg r) as [k Hk]; [rewrite Er; by left|].
  assert (k ∈ map fst (@nil (Key * list nat))) as Hin; [|by apply not_elem_of_nil in Hin].
  apply (proj2 (groupby_row_key f cells [] k Hg)). exists r. rewrite Er. split; [by left | done].
Qed.

(** ** The whole run *)

Section RunProofs.
Context `{Hspec : EMDSolverSpec}.
Hypothesis emd_optimal : forall a b M it, snd (emd_solve a b M it) = OPTIMAL.

(** What the SCF file must satisfy for the DINA groups [dg]: well formed,
    non-negative weights, the cell columns, the SCF columns of
    [matching_scf], and positive mass in every DINA cell. *)
Definition scf_input_ok (scf dina : Frame) (dg : Groups) : Prop :=
  frame_wf scf /\ Forall (fun r => 0 <= row_weight r) (rows scf) /\
  Forall (fun c => c ∈ columns scf) cells /\ dict_fits matching_scf dina scf /\
  Forall (fun k => 0 < cell_mass scf cells k) (map fst dg).

Lemma scf_input_cell_ok scf dina dg k :
  scf_input_ok scf dina dg -> k ∈ map fst dg ->
  exists sg, groupby scf cells = Ok sg /\ scf_cell_ok (Some (scf, sg)) dina cells matching_scf k.
Proof.
  intros (Hw & Hp & Hc & Hfit & Hm) Hk. destruct (groupby_wf scf cells Hc) as [sg Hsg].
  exists sg. split; [done|]. intros f sg' [= <- <-].
  pose proof (proj1 (Forall_forall _ _) Hm k Hk) as Hmk.
  split; [done|]. split; [done|]. split; [done|]. split; [by eapply cell_mass_pos_key|]. done.
Qed.

(** What the input files of a year must satisfy, for the groups [dg] of
    the DINA file: well formed, non-negative weights, the cell columns and
    the CPS columns of [matching_cps] present, a non-empty DINA file whose
    every cell has positive mass in DINA and in CPS and, from 1989, an
    SCF file as [scf_input_ok] says. *)
Definition run_inputs_ok (read_csv : string -> Frame) (year : Z) (dg : Groups) : Prop :=
  let dina := read_csv (dina_file year) in
  let cps := read_csv (cps_file year) in
  frame_wf dina /\ frame_wf cps /\ rows dina <> [] /\
  Forall (fun r => 0 <= row_weight r) (rows dina) /\ Forall (fun r => 0 <= row_weight r) (rows cps) /\
  Forall (fun c => c ∈ columns cps) cells /\ groupby dina cells = Ok dg /\
  dict_fits matching_cps dina cps /\
  Forall (fun k => 0 < cell_mass dina cells k /\ 0 < cell_mass cps cells k) (map fst dg) /\
  (forall name, scf_file year = Some name -> scf_input_ok (read_csv name) dina dg).

(** The whole run on fitting inputs: no error, rows from the input files,
    total weight conserved. *)
Lemma run_ok read_csv year dg :
  run_inputs_ok read_csv year dg ->
  exists es, run read_csv year = Ok es /\
    Forall (entry_from (read_csv (dina_file year)) (read_csv (cps_file year))
      (option_map read_csv (scf_file year))) es /\
    qsum (map e_weight es) == qsum (weights (read_csv (dina_file year))).
Proof.
  intros (Hwd & Hwc & Hne & Hpd & Hpc & Hcc & Hdg & Hfit & Hm & Hscf).
  set (dina := read_csv (dina_file year)) in *. set (cps := read_csv (cps_file year)) in *.
  destruct (groupby_wf cps cells Hcc) as [cg Hcg].
  assert (forall k, k ∈ map fst dg -> k ∈ map fst cg /\ 0 < cell_mass dina cells k /\
    0 < cell_mass cps cells k) as Hk.
  { intros k Hkd. destruct (proj1 (Forall_forall _ _) Hm k Hkd) as [Hmd Hmc].
    split_and!; [by eapply cell_mass_pos_key | done | done]. }
  pose proof (groupby_nonempty _ _ _ Hwd Hdg Hne) as Hdne.
  unfold run. fold dina cps. rewrite Hdg, Hcg. simpl.
  destruct (scf_file year) as [name|] eqn:Hy; simpl.
  - destruct (proj2 (proj2 (Hscf name eq_refl))) as (Hcs & _).
    destruct (groupby_wf (read_csv name) cells) as [sg Hsg]; [done |].
    rewrite Hsg. simpl.
    destruct (loop_mass emd_optimal dina cps dg cg (Some (read_csv name, sg)) cells matching_cps matching_scf)
      as (es & Hes & Hs & Hsum); [done.. | |].
    + intros k Hkd. destruct (Hk k Hkd) as (Hkc & Hmd & Hmc). split_and!; [done..|].
      destruct (scf_input_cell_ok _ _ _ k (Hscf name eq_refl) Hkd) as (sg' & Hsg' & Hok).
      rewrite Hsg in Hsg'. by injection Hsg' as <-.
    + exists es. split; [done|]. split; [exact Hs|]. rewrite Hsum. by apply cell_masses_sum.
  - destruct (loop_mass emd_optimal dina cps dg cg None cells matching_cps matching_scf)
      as (es & Hes & Hs & Hsum); [done.. | |].
    + intros k Hkd. destruct (Hk k Hkd) as (Hkc & Hmd & Hmc). split_and!; [done..|]. by intros f sg [=].
    + exists es. split; [done|]. split; [exact Hs|]. rewrite Hsum. by apply cell_masses_sum.
Qed.

(** C1: on input files that fit the program ([run_inputs_ok]) and with a
    solver that reports success, the whole run of [transport.py] for a
    year completes without error and the weights of its output rows add
    up to the total DINA weight: the matched file represents the same
    population as the DINA file. *)
Theorem run_mass read_csv year dg :
  run_inputs_ok read_csv year dg ->
  exists es, run read_csv year = Ok es /\
    qsum (map e_weight es) == qsum (weights (read_csv (dina_file year))).
Proof. intros Hin. destruct (run_ok read_csv year dg Hin) as (es & ? & _ & ?). by exists es. Qed.

(** C2: on the same inputs, every output row of the run comes from the
    input files: its DINA id is an id of the DINA file, its CPS id an id
    of the CPS file, it has an SCF id (one of the SCF file) exactly when
    the year has an SCF file, and its weight is non-negative. *)
Theorem run_rows_from_inputs read_csv year dg :
  run_inputs_ok read_csv year dg ->
  exists es, run read_csv year = Ok es /\
    Forall (entry_from (read_csv (dina_file year)) (read_csv (cps_file year))
      (option_map read_csv (scf_file year))) es.
Proof. intros Hin. destruct (run_ok read_csv year dg Hin) as (es & ? & ? & _). by exists es. Qed.

End RunProofs.

(** ** Cells missing from CPS or SCF *)

Section MissingCells.
Context `{EMDSolver}.

(** C14: a DINA cell that the CPS file does not have makes the loop body
    raise [KeyError] at [cps_groups[group]] (line 71); the spec asks for
    an empty result for that cell instead. *)
Theorem process_cell_missing_cps_cell dina cps dg cg scf mcps mscf cells k :
  groupby dina cells = Ok dg -> k ∈ map fst dg -> k ∉ map fst cg ->
  process_cell dina cps dg cg scf mcps mscf k = Err (KeyErrorCell k).
Proof.
  intros Hdg Hkd Hkc. destruct (cell_subset_rows dina cells dg k Hdg Hkd) as (ds & Hds & _).
  unfold process_cell. rewrite Hds. simpl. unfold cell_subset. by rewrite groups_get_none.
Qed.

(** C15: a cell that DINA and CPS have and SCF does not raises [KeyError]
    at [scf_groups[group]] (line 73), before any transport problem of the
    cell is solved. *)
Theorem process_cell_missing_scf_cell dina cps scf dg cg sg mcps mscf cells k :
  groupby dina cells = Ok dg -> groupby cps cells = Ok cg ->
  k ∈ map fst dg -> k ∈ map fst cg -> k ∉ map fst sg ->
  process_cell dina cps dg cg (Some (scf, sg)) mcps mscf k = Err (KeyErrorCell k).
Proof.
  intros Hdg Hcg Hkd Hkc Hks.
  destruct (cell_subset_rows dina cells dg k Hdg Hkd) as (ds & Hds & _).
  destruct (cell_subset_rows cps cells cg k Hcg Hkc) as (cs & Hcs & _).
  unfold process_cell. rewrite Hds, Hcs. simpl. unfold cell_subset. by rewrite groups_get_none.
Qed.

(** C16: if one DINA cell is absent from the CPS file, the whole run
    raises and writes no table (the spec asks for the run to complete). *)
Theorem run_missing_cps_cell read_csv year dg cg k :
  groupby (read_csv (dina_file year)) cells = Ok dg ->
  groupby (read_csv (cps_file year)) cells = Ok cg ->
  k ∈ map fst dg -> k ∉ map fst cg ->
  exists e, run read_csv year = Err e.
Proof.
  intros Hdg Hcg Hkd Hkc.
  destruct (cell_subset_rows _ cells dg k Hdg Hkd) as (ds & Hds & _).
  assert (forall sg, exists e, rmapM (process_cell (read_csv (dina_file year))
     (read_csv (cps_file year)) dg cg sg matching_cps matching_scf) (map fst dg) = Err e) as Hloop.
  { intros sg. apply (rmapM_Err_elem _ _ k Hkd). exists (KeyErrorCell k).
    unfold process_cell. rewrite Hds. simpl. unfold cell_subset. by rewrite groups_get_none. }
  unfold run. rewrite Hdg, Hcg. simpl.
  destruct (option_map read_csv (scf_file year)) as [f|]; simpl.
  - destruct (groupby f cells) as [g|e]; simpl; [|by exists e].
    destruct (Hloop (Some (f, g))) as [e ->]. by exists e.
  - destruct (Hloop None) as [e ->]. by exists e.
Qed.

(** C17: a DINA file without one of the cell columns [married], [old],
    [employed] makes the run raise [KeyError] at
    [dina.groupby(cells)] (line 61), naming the first missing cell
    column, before anything else is computed. *)
Theorem run_missing_cell_column read_csv year c :
  c ∈ cells -> c ∉ columns (read_csv (dina_file year)) ->
  exists c', run read_csv year = Err (KeyErrorColumn c') /\
    c' ∈ cells /\ c' ∉ columns (read_csv (dina_file year)).
Proof.
  intros Hc Hnc. destruct (groupby_missing_column _ _ _ Hc Hnc) as (c' & Hg & Hc').
  exists c'. unfold run. by rewrite Hg.
Qed.

End MissingCells.

(** ** The solver's status is never read *)

Section UncheckedStatus.
Context `{EMDSolver}.

(** C19: The code never looks at the solver's status (line 104): whatever
    plan [ot.emd] returns for a cell, converged or not, as long as it has
    the shape of the cell and a nonzero total, the first stage emits its
    rows without error, and their weights add up to the DINA cell mass
    times the plan's total.  Mass is conserved only when that total is
    one; a plan cut short by [numItermax] whose total is not one yields
    rows of the wrong mass and no error, where the spec (sections 4.3, 7)
    asks for the non-convergence to be reported. *)
Theorem process_cell_unchecked_plan dina cps dg cg cells mcps mscf k :
  frame_wf dina -> frame_wf cps -> groupby dina cells = Ok dg -> groupby cps cells = Ok cg ->
  k ∈ map fst dg -> k ∈ map fst cg -> dict_fits mcps dina cps ->
  exists ds cs C, cell_subset dina dg k = Ok ds /\ cell_subset cps cg k = Ok cs /\
    cost_matrix ds cs (map fst mcps) (map snd mcps) = Ok C /\
    let G := ot_emd (normalize (weights ds)) (normalize (weights cs)) C numItermax in
    has_shape G (length (rows ds)) (length (rows cs)) -> ~ qsum (map qsum G) == 0 ->
    exists es, process_cell dina cps dg cg None mcps mscf k = Ok es /\
      qsum (map e_weight es) == cell_mass dina cells k * qsum (map qsum G).
Proof.
  intros Hwd Hwc Hdg Hcg Hkd Hkc (Hnd & Hcd & Hcc).
  destruct (cell_subset_rows _ _ _ _ Hdg Hkd) as (ds & Hds & Hdc & Hdr).
  destruct (cell_subset_rows _ _ _ _ Hcg Hkc) as (cs & Hcs & Hcc' & Hcr).
  destruct (cost_matrix_ok ds cs (map fst mcps) (map snd mcps)) as (C & HC & _);
    [exact (cell_rows_wf _ _ _ _ Hwd Hdc Hdr) | exact (cell_rows_wf _ _ _ _ Hwc Hcc' Hcr) | by rewrite Hdc | by rewrite Hcc' | by rewrite !length_map |].
  exists ds, cs, C. split_and!; [done..|]. intros G HGs HGt.
  destruct (extract_matches_ok ds cs (qsum (weights ds)) G HGs HGt) as (es & Hes & _ & Hsum).
  exists es. split.
  - unfold process_cell, stage1. rewrite Hds, Hcs, paired_columns_ok by done. simpl. by rewrite HC.
  - rewrite Hsum. unfold weights, cell_mass. by rewrite Hdr.
Qed.

End UncheckedStatus.

(** ** A worked cell: the toy frames of [Frame.Toy] (spec, section 8),
    with their groups, column dictionaries and a loader. *)
Module ToyCell.
Local Open Scope Q_scope.

Definition mcps : list (string * string) := [("dina_v", "cps_v")].
Definition mscf : list (string * string) := [("dina_v", "scf_v")].

Definition groups_of (f : Frame) : Groups :=
  match groupby f cells with Ok g => g | Err _ => [] end.

Definition key101 : Key := [1; 0; 1].
Definition key001 : Key := [0; 0; 1].

(** A loader for the year 1980 (no SCF): the DINA file is [dina2]. *)
Definition read_csv (name : string) : Frame :=
  if String.eqb name (dina_file 1980) then Toy.dina2 else Toy.cps.

(** A year with SCF, on frames that have every column of the two
    dictionaries: two cells, 101 and 001, present in all three files. *)
Definition dina_cols : list string := remove_dups (map fst matching_cps ++ map fst matching_scf).

Definition full_row (id : Z) (w : Q) (cell : list (string * Q)) (cols : list string) (x : Q) : Row :=
  Toy.row id w (map (fun c => (c, x)) cols ++ cell).

Definition run_dina : Frame := mkFrame (cells ++ dina_cols)
  [full_row 1 1 Toy.cell101 dina_cols 1; full_row 2 2 Toy.cell101 dina_cols 3;
   full_row 3 1 Toy.cell001 dina_cols 0].
Definition run_cps : Frame := mkFrame (cells ++ map snd matching_cps)
  [full_row 11 1 Toy.cell101 (map snd matching_cps) 2; full_row 12 1 Toy.cell001 (map snd matching_cps) 1].
Definition run_scf : Frame := mkFrame (cells ++ map snd matching_scf)
  [full_row 21 1 Toy.cell101 (map snd matching_scf) 1; full_row 22 3 Toy.cell001 (map snd matching_scf) 0;
   full_row 23 1 Toy.cell001 (map snd matching_scf) 2].

Definition run_read_csv (name : string) : Frame :=
  if String.eqb name (dina_file 1995) then run_dina
  else if String.eqb name (cps_file 1995) then run_cps else run_scf.

(** A DINA file without the [employed] column. *)
Definition no_employed : Frame := mkFrame ["married"; "old"; "dina_v"]
  [Toy.row 1 1 [("married", 1); ("old", 0); ("dina_v", 0)]].

End ToyCell.

Lemma process_cell_mass_stage1_witness :
  exists es, process_cell Toy.dina Toy.cps (ToyCell.groups_of Toy.dina)
      (ToyCell.groups_of Toy.cps) None ToyCell.mcps [] ToyCell.key101 = Ok es /\
    Forall (entry_from Toy.dina Toy.cps None) es /\
    qsum (map e_weight es) == cell_mass Toy.dina cells ToyCell.key101.
Proof. apply (@process_cell_mass_stage1 indep_solver _ (fun _ _ _ _ => eq_refl)); solve_concrete. Defined.

Lemma process_cell_mass_stage2_witness :
  exists es, process_cell Toy.dina Toy.cps (ToyCell.groups_of Toy.dina)
      (ToyCell.groups_of Toy.cps) (Some (Toy.scf, ToyCell.groups_of Toy.scf))
      ToyCell.mcps ToyCell.mscf ToyCell.key101 = Ok es /\
    Forall (entry_from Toy.dina Toy.cps (Some Toy.scf)) es /\
    qsum (map e_weight es) == cell_mass Toy.dina cells ToyCell.key101.
Proof. apply (@process_cell_mass_stage2 indep_solver _ (fun _ _ _ _ => eq_refl)); solve_concrete. Defined.

Lemma process_cell_missing_cps_cell_witness :
  process_cell (H := indep_solver) Toy.dina2 Toy.cps (ToyCell.groups_of Toy.dina2)
    (ToyCell.groups_of Toy.cps) None ToyCell.mcps [] ToyCell.key001 = Err (KeyErrorCell ToyCell.key001).
Proof. apply (process_cell_missing_cps_cell _ _ _ _ _ _ _ cells); solve_concrete. Defined.

Lemma process_cell_missing_scf_cell_witness :
  process_cell (H := indep_solver) Toy.dina2 Toy.dina2 (ToyCell.groups_of Toy.dina2)
    (ToyCell.groups_of Toy.dina2) (Some (Toy.scf, ToyCell.groups_of Toy.scf))
    ToyCell.mcps ToyCell.mscf ToyCell.key001 = Err (KeyErrorCell ToyCell.key001).
Proof. apply (process_cell_missing_scf_cell _ _ _ _ _ _ _ _ cells); solve_concrete. Defined.

Lemma run_missing_cps_cell_witness : exists e, run (H := indep_solver) ToyCell.read_csv 1980 = Err e.
Proof.
  apply (run_missing_cps_cell _ _ (ToyCell.groups_of Toy.dina2) (ToyCell.groups_of Toy.cps)
    ToyCell.key001); solve_concrete.
Defined.

Lemma run_inputs_ok_toy : run_inputs_ok ToyCell.run_read_csv 1995 (ToyCell.groups_of ToyCell.run_dina).
Proof.
  unfold run_inputs_ok. split_and!; try solve_concrete.
  intros name [= <-]. unfold scf_input_ok. split_and!; solve_concrete.
Qed.

Lemma run_mass_witness :
  exists es, run (H := indep_solver) ToyCell.run_read_csv 1995 = Ok es /\
    qsum (map e_weight es) == qsum (weights (ToyCell.run_read_csv (dina_file 1995))).
Proof. apply (@run_mass indep_solver _ (fun _ _ _ _ => eq_refl) _ _ _ run_inputs_ok_toy). Defined.

Lemma run_rows_from_inputs_witness :
  exists es, run (H := indep_solver) ToyCell.run_read_csv 1995 = Ok es /\
    Forall (entry_from (ToyCell.run_read_csv (dina_file 1995)) (ToyCell.run_read_csv (cps_file 1995))
      (option_map ToyCell.run_read_csv (scf_file 1995))) es.
Proof. apply (@run_rows_from_inputs indep_solver _ (fun _ _ _ _ => eq_refl) _ _ _ run_inputs_ok_toy). Defined.

Lemma run_missing_cell_column_witness :
  exists c', run (H := indep_solver) (fun _ => ToyCell.no_employed) 2000 = Err (KeyErrorColumn c') /\
    c' ∈ cells /\ c' ∉ columns ToyCell.no_employed.
Proof. apply (run_missing_cell_column (fun _ => ToyCell.no_employed) 2000 "employed"); solve_concrete. Defined.

(** A solver stopped by its iteration cap, with a plan whose total is
    [3/4]. *)
Definition stalled_solver : EMDSolver := fun _ _ _ _ => ([[1#2; 0]; [0; 0]; [0; 1#4]], MAX_ITER_REACHED).

Lemma process_cell_unchecked_plan_witness :
  exists ds cs C, cell_subset Toy.dina (ToyCell.groups_of Toy.dina) ToyCell.key101 = Ok ds /\
    cell_subset Toy.cps (ToyCell.groups_of Toy.cps) ToyCell.key101 = Ok cs /\
    cost_matrix ds cs (map fst ToyCell.mcps) (map snd ToyCell.mcps) = Ok C /\
    let G := ot_emd (H := stalled_solver) (normalize (weights ds)) (normalize (weights cs)) C numItermax in
    has_shape G (length (rows ds)) (length (rows cs)) -> ~ qsum (map qsum G) == 0 ->
    exists es, process_cell (H := stalled_solver) Toy.dina Toy.cps (ToyCell.groups_of Toy.dina)
        (ToyCell.groups_of Toy.cps) None ToyCell.mcps [] ToyCell.key101 = Ok es /\
      qsum (map e_weight es) == cell_mass Toy.dina cells ToyCell.key101 * qsum (map qsum G).
Proof. apply (process_cell_unchecked_plan (H := stalled_solver)); solve_concrete. Defined.

(** With that solver the toy cell yields rows of total weight [3], not the
    DINA mass [4], and no error. *)
Lemma stalled_solver_loses_mass :
  exists es, process_cell (H := stalled_solver) Toy.dina Toy.cps (ToyCell.groups_of Toy.dina)
      (ToyCell.groups_of Toy.cps) None ToyCell.mcps [] ToyCell.key101 = Ok es /\
    qsum (map e_weight es) == 3 /\ cell_mass Toy.dina cells ToyCell.key101 == 4.
Proof. eexists. split; [vm_compute; reflexivity | split; vm_compute; reflexivity]. Qed.

Lemma process_cell_record_mass_stage1_witness :
  exists es, process_cell (H := indep_solver) Toy.dina Toy.cps (ToyCell.groups_of Toy.dina)
      (ToyCell.groups_of Toy.cps) None ToyCell.mcps [] ToyCell.key101 = Ok es /\
    forall r, r ∈ cell_rows Toy.dina cells ToyCell.key101 ->
      qsum (map e_weight (List.filter (fun e => bool_decide (e_dina e = row_id r)) es)) == row_weight r.
Proof.
  apply (@process_cell_record_mass_stage1 indep_solver _ (fun _ _ _ _ => eq_refl)); solve_concrete.
Defined.

Lemma process_cell_record_mass_stage2_witness :
  exists es, process_cell (H := indep_solver) Toy.dina Toy.cps (ToyCell.groups_of Toy.dina)
      (ToyCell.groups_of Toy.cps) (Some (Toy.scf, ToyCell.groups_of Toy.scf))
      ToyCell.mcps ToyCell.mscf ToyCell.key101 = Ok es /\
    forall r, r ∈ cell_rows Toy.dina cells ToyCell.key101 ->
      qsum (map e_weight (List.filter (fun e => bool_decide (e_dina e = row_id r)) es)) == row_weight r.
Proof.
  apply (@process_cell_record_mass_stage2 indep_solver _ (fun _ _ _ _ => eq_refl)); solve_concrete.
Defined.

Lemma process_cell_cps_record_mass_witness :
  exists es, process_cell (H := indep_solver) Toy.dina Toy.cps (ToyCell.groups_of Toy.dina)
      (ToyCell.groups_of Toy.cps) None ToyCell.mcps [] ToyCell.key101 = Ok es /\
    forall r, r ∈ cell_rows Toy.cps cells ToyCell.key101 ->
      qsum (map e_weight (List.filter (fun e => bool_decide (e_cps e = row_id r)) es)) ==
      row_weight r * (cell_mass Toy.dina cells ToyCell.key101 / cell_mass Toy.cps cells ToyCell.key101).
Proof.
  apply (@process_cell_cps_record_mass indep_solver _ (fun _ _ _ _ => eq_refl)); solve_concrete.
Defined.

Lemma process_cell_scf_record_mass_witness :
  exists es, process_cell (H := indep_solver) Toy.dina Toy.cps (ToyCell.groups_of Toy.dina)
      (ToyCell.groups_of Toy.cps) (Some (Toy.scf, ToyCell.groups_of Toy.scf))
      ToyCell.mcps ToyCell.mscf ToyCell.key101 = Ok es /\
    forall r, r ∈ cell_rows Toy.scf cells ToyCell.key101 ->
      qsum (map e_weight (List.filter (fun e => bool_decide (e_scf e = Some (row_id r))) es)) ==
      row_weight r * (cell_mass Toy.dina cells ToyCell.key101 / cell_mass Toy.scf cells ToyCell.key101).
Proof.
  apply (@process_cell_scf_record_mass indep_solver _ (fun _ _ _ _ => eq_refl)); solve_concrete.
Defined.
