(* ===== verification/ChainSpec.v ===== *)
(** * ChainSpec: the cell match as an abstract transition system

    The spec describes the match of one cell as two couplings: the DINA
    records are coupled with the CPS records, and, when the year has an
    SCF file, the (DINA, CPS) pairs so obtained are coupled with the SCF
    records.  [cstep] states this without a solver: a step takes any
    coupling [G] of the normalised weights (any [is_plan]), and writes one
    row per nonzero position of [G] in the reference enumeration
    [nonzero_ref] (row-major over the full index grid), weighing the
    source's mass times the plan entry.  The states are the three points
    of the body of the loop in transport.py: before stage 1 ([Stage1]),
    with the intermediate file of lines 122-147 ([Stage2]), and with the
    rows of the cell written ([Emitted]).

    [cstep_rtc_mass] shows, by rule induction on the reflexive-transitive
    closure, that every run of the system keeps the weights non-negative
    and carries the DINA cell mass.  [process_cell_refines] shows that
    [Chain.process_cell] implements it: on the hypotheses of
    [process_cell_mass], the cell succeeds and its rows are the end of a
    run of [cstep] from the three cell subsets. *)

From S2P Require Import Prelude Config Frame Groupby Cost Transport Extract Chain.
From stdpp Require Import relations.
Local Open Scope Q_scope.

Inductive cstate :=
  | Stage1 (ds cs : Frame) (ss : option Frame)
  | Stage2 (inter : list InterRow) (ss : Frame)
  | Emitted (es : list Entry).

(** Rows [xs] coupled by [G] to the weights [a] and [b]: [G] is a
    coupling of the normalised weights and the [n]-th row comes from the
    [n]-th nonzero position [ij], satisfies [R ij] and weighs the total of
    [a] times [G[ij]]. *)
Definition couples {X} (a b : list Q) (G : Matrix) (w : X -> Q) (R : nat * nat -> X -> Prop)
    (xs : list X) : Prop :=
  is_plan (normalize a) (normalize b) G /\
  Forall2 (fun ij x => R ij x /\ w x = qsum a * plan_val G ij) (nonzero_ref G (length b)) xs.

(** A weight column the code can normalise. *)
Definition weights_ok (w : list Q) : Prop := Forall (fun x => 0 <= x) w /\ 0 < qsum w.

Section Spec.
(** The DINA columns carried into the intermediate file. *)
Variable dcols : list string.

Inductive cstep : cstate -> cstate -> Prop :=
  | step_direct ds cs G es :
      couples (weights ds) (weights cs) G e_weight
        (fun ij e => ids ds !! ij.1 = Some (e_dina e) /\ ids cs !! ij.2 = Some (e_cps e) /\ e_scf e = None) es ->
      cstep (Stage1 ds cs None) (Emitted es)
  | step_inter ds cs ss G inter :
      couples (weights ds) (weights cs) G ir_weight
        (fun ij r => ids ds !! ij.1 = Some (ir_dina r) /\ ids cs !! ij.2 = Some (ir_cps r) /\
           exists dr, rows ds !! ij.1 = Some dr /\
             Forall2 (fun c v => row_vals dr !! c = Some v) dcols (ir_vals r)) inter ->
      cstep (Stage1 ds cs (Some ss)) (Stage2 inter ss)
  | step_chain inter ss G2 es :
      couples (map ir_weight inter) (weights ss) G2 e_weight
        (fun kl e => (exists r, inter !! kl.1 = Some r /\ e_dina e = ir_dina r /\ e_cps e = ir_cps r) /\
           exists s, ids ss !! kl.2 = Some s /\ e_scf e = Some s) es ->
      cstep (Stage2 inter ss) (Emitted es).

End Spec.

(** What a state carries: the DINA cell mass, the weights of the
    intermediate file, the weights of the rows. *)
Definition carried_mass (s : cstate) : Q :=
  match s with
  | Stage1 ds _ _ => qsum (weights ds)
  | Stage2 inter _ => qsum (map ir_weight inter)
  | Emitted es => qsum (map e_weight es)
  end.

Definition ok_state (s : cstate) : Prop :=
  match s with
  | Stage1 ds cs ss => weights_ok (weights ds) /\ weights_ok (weights cs) /\
      forall f, ss = Some f -> weights_ok (weights f)
  | Stage2 inter ss => weights_ok (map ir_weight inter) /\ weights_ok (weights ss)
  | Emitted es => Forall (fun x => 0 <= x) (map e_weight es)
  end.

(** ** The steps keep the weights and carry the mass *)

Lemma nonzero_plan_weights a b G :
  is_plan (normalize a) (normalize b) G -> nonzero_ref G (length b) = nonzero G.
Proof.
  intros [[_ Hs] _]. rewrite length_normalize in Hs. symmetry. exact (nonzero_from_ref [] G _ Hs).
Qed.

Lemma couples_mass {X} a b G (w : X -> Q) R xs :
  weights_ok a -> weights_ok b -> couples a b G w R xs ->
  Forall (fun x => 0 <= x) (map w xs) /\ qsum (map w xs) == qsum a.
Proof.
  intros [Ha Hpa] [Hb Hpb] [Hplan H2]. rewrite (nonzero_plan_weights _ _ _ Hplan) in H2. split.
  - apply Forall_fmap, (Forall2_Forall_snd _ _ _ _ H2). intros ij x [_ Hw]. unfold compose. rewrite Hw.
    apply Qmult_le_0_compat; [lra | apply plan_val_nonneg, (proj1 (proj2 Hplan))].
  - rewrite (rescaled_weights_sum w G (qsum a) xs),
      (is_plan_total_one _ _ _ Hplan (normalize_is_marginal _ Ha Hpa)); [lra|].
    apply (Forall2_impl _ _ _ _ H2). by intros ij x [_ ?].
Qed.

Lemma cstep_ok dcols s s' :
  cstep dcols s s' -> ok_state s -> ok_state s' /\ carried_mass s' == carried_mass s.
Proof.
  destruct 1 as [ds cs G es Hc | ds cs ss G inter Hc | inter ss G2 es Hc]; simpl.
  - intros (Hd & Hcs & _). exact (couples_mass _ _ _ _ _ _ Hd Hcs Hc).
  - intros (Hd & Hcs & Hss). destruct (couples_mass _ _ _ _ _ _ Hd Hcs Hc) as [Hn Hm].
    split; [split; [split; [done | rewrite Hm; apply (proj2 Hd)] | by apply Hss] | done].
  - intros [Hi Hs]. exact (couples_mass _ _ _ _ _ _ Hi Hs Hc).
Qed.

(** Invariant of the cell specification, by rule induction: along
    every run of [cstep] from a state whose weight columns can be
    normalised, the weights stay non-negative and the mass a state carries
    (DINA cell, intermediate file, rows written) stays the DINA cell
    mass. *)
Theorem cstep_rtc_mass dcols s s' :
  rtc (cstep dcols) s s' -> ok_state s -> ok_state s' /\ carried_mass s' == carried_mass s.
Proof.
  induction 1 as [s|s1 s2 s3 H12 _ IH]; intros Hs; [split; [done | reflexivity]|].
  destruct (cstep_ok _ _ _ H12 Hs) as [Hs2 Hm2]. destruct (IH Hs2) as [Hs3 Hm3].
  split; [done|]. by rewrite Hm3, Hm2.
Qed.

(** ** [process_cell] implements the specification *)

Section Refinement.
Context `{Hspec : EMDSolverSpec}.
Hypothesis emd_optimal : forall a b M it, snd (emd_solve a b M it) = OPTIMAL.

Lemma stage1_refines dina cps dg cg cells mcps mscf k :
  frame_wf dina -> frame_wf cps ->
  Forall (fun r => 0 <= row_weight r) (rows dina) -> Forall (fun r => 0 <= row_weight r) (rows cps) ->
  groupby dina cells = Ok dg -> groupby cps cells = Ok cg ->
  k ∈ map fst dg -> k ∈ map fst cg -> dict_fits mcps dina cps ->
  0 < cell_mass dina cells k -> 0 < cell_mass cps cells k ->
  exists ds cs es, cell_subset dina dg k = Ok ds /\ cell_subset cps cg k = Ok cs /\
    process_cell dina cps dg cg None mcps mscf k = Ok es /\
    cstep (map fst mscf) (Stage1 ds cs None) (Emitted es).
Proof.
  intros Hwd Hwc Hpd Hpc Hdg Hcg Hkd Hkc Hfit Hmd Hmc.
  destruct (process_cell_stage1_entries emd_optimal dina cps dg cg cells mcps mscf k)
    as (ds & cs & G & es & Hds & Hcs & _ & _ & Hes & Hplan & H2); [done..|].
  exists ds, cs, es. split_and!; [done..|]. apply (step_direct _ _ _ G). split; [done|].
  rewrite (nonzero_plan_weights _ _ _ Hplan). apply (Forall2_impl _ _ _ _ H2).
  intros ij e (? & ? & ? & ?). by split_and!.
Qed.

Lemma stage2_refines dina cps scf dg cg sg cells mcps mscf k :
  frame_wf dina -> frame_wf cps -> frame_wf scf ->
  Forall (fun r => 0 <= row_weight r) (rows dina) -> Forall (fun r => 0 <= row_weight r) (rows cps) ->
  Forall (fun r => 0 <= row_weight r) (rows scf) ->
  groupby dina cells = Ok dg -> groupby cps cells = Ok cg -> groupby scf cells = Ok sg ->
  k ∈ map fst dg -> k ∈ map fst cg -> k ∈ map fst sg ->
  dict_fits mcps dina cps -> dict_fits mscf dina scf ->
  0 < cell_mass dina cells k -> 0 < cell_mass cps cells k -> 0 < cell_mass scf cells k ->
  exists ds cs ss es, cell_subset dina dg k = Ok ds /\ cell_subset cps cg k = Ok cs /\
    cell_subset scf sg k = Ok ss /\
    process_cell dina cps dg cg (Some (scf, sg)) mcps mscf k = Ok es /\
    rtc (cstep (map fst mscf)) (Stage1 ds cs (Some ss)) (Emitted es).
Proof.
  intros Hwd Hwc Hws Hpd Hpc Hps Hdg Hcg Hsg Hkd Hkc Hks Hfit1 Hfit2 Hmd Hmc Hms.
  destruct (process_cell_stage2_entries emd_optimal dina cps scf dg cg sg cells mcps mscf k)
    as (ds & cs & ss & G & inter & G2 & es & Hds & Hcs & Hss & _ & _ & Hes & Hplan & H1 & _ & HG2 & H2);
    [done..|].
  exists ds, cs, ss, es. split_and!; [done..|]. eapply rtc_l; [|apply rtc_once].
  - apply (step_inter _ _ _ _ G). split; [done|].
    rewrite (nonzero_plan_weights _ _ _ Hplan). apply (Forall2_impl _ _ _ _ H1).
    intros ij r (? & ? & ? & ?). by split_and!.
  - apply (step_chain _ _ _ G2). split; [done|].
    rewrite (nonzero_plan_weights _ _ _ HG2). apply (Forall2_impl _ _ _ _ H2).
    intros kl e (? & ? & ?). by split_and!.
Qed.

(** C4: Refinement of the cell specification: on the hypotheses under
    which a cell is matched without error (well-formed files, non-negative
    weights, the cell present in each file, column dictionaries that fit,
    cells of positive mass), [process_cell] succeeds, and the rows it
    writes are the end of a run of the abstract system [cstep] from the
    cell subsets of the three files: one coupling step without SCF, the
    intermediate-file step and the chaining step with it. *)
Theorem process_cell_refines dina cps dg cg scf cells mcps mscf k :
  frame_wf dina -> frame_wf cps ->
  Forall (fun r => 0 <= row_weight r) (rows dina) -> Forall (fun r => 0 <= row_weight r) (rows cps) ->
  groupby dina cells = Ok dg -> groupby cps cells = Ok cg ->
  k ∈ map fst dg -> k ∈ map fst cg -> dict_fits mcps dina cps ->
  0 < cell_mass dina cells k -> 0 < cell_mass cps cells k -> scf_cell_ok scf dina cells mscf k ->
  exists ds cs ss es, cell_subset dina dg k = Ok ds /\ cell_subset cps cg k = Ok cs /\
    option_Forall2 (fun fg s => cell_subset fg.1 fg.2 k = Ok s) scf ss /\
    process_cell dina cps dg cg scf mcps mscf k = Ok es /\
    rtc (cstep (map fst mscf)) (Stage1 ds cs ss) (Emitted es).
Proof.
  intros Hwd Hwc Hpd Hpc Hdg Hcg Hkd Hkc Hfit Hmd Hmc Hscf. destruct scf as [[f sg]|].
  - destruct (Hscf f sg eq_refl) as (Hws & Hps & Hsg & Hks & Hfit2 & Hms).
    destruct (stage2_refines dina cps f dg cg sg cells mcps mscf k)
      as (ds & cs & ss & es & Hds & Hcs & Hss & Hes & Hrun); [done..|].
    exists ds, cs, (Some ss), es. split_and!; [done | done | by constructor | done | done].
  - destruct (stage1_refines dina cps dg cg cells mcps mscf k) as (ds & cs & es & Hds & Hcs & Hes & Hst);
      [done..|].
    exists ds, cs, None, es. split_and!; [done | done | constructor | done | by apply rtc_once].
Qed.

End Refinement.

Lemma process_cell_refines_witness :
  exists ds cs ss es,
    cell_subset Toy.dina (ToyCell.groups_of Toy.dina) ToyCell.key101 = Ok ds /\
    cell_subset Toy.cps (ToyCell.groups_of Toy.cps) ToyCell.key101 = Ok cs /\
    option_Forall2 (fun fg s => cell_subset fg.1 fg.2 ToyCell.key101 = Ok s)
      (Some (Toy.scf, ToyCell.groups_of Toy.scf)) ss /\
    process_cell (H := indep_solver) Toy.dina Toy.cps (ToyCell.groups_of Toy.dina)
      (ToyCell.groups_of Toy.cps) (Some (Toy.scf, ToyCell.groups_of Toy.scf))
      ToyCell.mcps ToyCell.mscf ToyCell.key101 = Ok es /\
    rtc (cstep (map fst ToyCell.mscf)) (Stage1 ds cs ss) (Emitted es).
Proof.
  apply (@process_cell_refines indep_solver _ (fun _ _ _ _ => eq_refl) _ _ _ _ _ cells); try solve_concrete.
  intros f sg [= <- <-]. split_and!; solve_concrete.
Defined.

Lemma cstep_rtc_mass_witness :
  exists es, rtc (cstep (map fst ToyCell.mscf)) (Stage1 Toy.dina Toy.cps (Some Toy.scf)) (Emitted es) /\
    ok_state (Stage1 Toy.dina Toy.cps (Some Toy.scf)) /\
    ok_state (Emitted es) /\ carried_mass (Emitted es) == carried_mass (Stage1 Toy.dina Toy.cps (Some Toy.scf)).
Proof.
  assert (ok_state (Stage1 Toy.dina Toy.cps (Some Toy.scf))) as Hok.
  { simpl. unfold weights_ok. split_and!; try decide_concrete. intros f [= <-]. split; decide_concrete. }
  destruct (@stage2_refines indep_solver _ (fun _ _ _ _ => eq_refl) Toy.dina Toy.cps Toy.scf
    (ToyCell.groups_of Toy.dina) (ToyCell.groups_of Toy.cps) (ToyCell.groups_of Toy.scf) cells
    ToyCell.mcps ToyCell.mscf ToyCell.key101) as (ds & cs & ss & es & Hds & Hcs & Hss & _ & Hrun);
    try solve_concrete.
  vm_compute in Hds, Hcs, Hss. injection Hds as <-. injection Hcs as <-. injection Hss as <-.
  exists es. split; [exact Hrun|]. split; [exact Hok|]. exact (cstep_rtc_mass _ _ _ Hrun Hok).
Defined.
