(* ===== verification/Scrape.v ===== *)
(** * Scrape: src/programs/01-scrape-forbes.py

    - [month_ends] (lines 25-30): for every year from 2020 to the current
      one and every month, the last day of the month
      ([calendar.monthrange(year, month)[1]], Gregorian leap years), kept
      when that date is strictly before today.  Dates are (year, month,
      day) triples compared lexicographically, as [datetime.date] does.
    - [raw_url] (line 45): [archive_url[0:42] + "if_" + archive_url[42:]],
      with Python's clamping slices ([String.substring] clamps the same
      way).  A Wayback snapshot URL is ["https://web.archive.org/web/"]
      (28 characters) followed by a 14-digit timestamp, so offset 42 is
      just after the timestamp, where ["if_"] selects the raw snapshot.
    - [retry] (lines 40-57): [while True: try ... except: sleep(10) else:
      break].  The outcome of the [n]-th attempt for a date is
      [attempt n] ([None] when it raises).  The loop has no bound, so the
      model takes fuel: [None] means the fuel ran out, and the theorems
      say how much fuel is enough when an attempt succeeds and that no
      fuel is enough when none does.  The result carries the number of
      failed attempts, each followed by a 10 s sleep.
    - [scrape] (lines 37-60): the loop over the dates, tagging each table
      with its year and month, and [pd.concat], which raises
      [ValueError] on an empty list. *)

From S2P Require Import Prelude.
Local Open Scope Z_scope.

Abbreviation Date := (Z * Z * Z)%type.

(** [calendar.isleap]. *)
Definition is_leap (y : Z) : bool :=
  ((y mod 4 =? 0) && negb (y mod 100 =? 0)) || (y mod 400 =? 0).

(** [calendar.monthrange(y, m)[1]] for [1 <= m <= 12]. *)
Definition days_in_month (y m : Z) : Z :=
  if m =? 2 then (if is_leap y then 29 else 28)
  else if (m =? 4) || (m =? 6) || (m =? 9) || (m =? 11) then 30 else 31.

(** [d1 < d2] on [datetime.date]. *)
Definition date_ltb (d1 d2 : Date) : bool :=
  let '(y1, m1, x1) := d1 in let '(y2, m2, x2) := d2 in
  (y1 <? y2) || ((y1 =? y2) && ((m1 <? m2) || ((m1 =? m2) && (x1 <? x2)))).

Definition date_lt (d1 d2 : Date) : Prop := date_ltb d1 d2 = true.

(** [range(a, b)]. *)
Definition zrange (a b : Z) : list Z := map (fun i => a + Z.of_nat i) (seq 0 (Z.to_nat (b - a))).

(** Lines 25-30. *)
Definition month_ends (today : Date) : list Date :=
  flat_map (fun y =>
    flat_map (fun m => let d := (y, m, days_in_month y m) in if date_ltb d today then [d] else [])
      (zrange 1 13))
    (zrange 2020 (today.1.1 + 1)).

(** Line 45. *)
Definition raw_url (u : string) : string :=
  String.substring 0 42 u +:+ "if_" +:+ String.substring 42 (String.length u - 42) u.

Definition wayback_prefix : string := "https://web.archive.org/web/".

Section Retry.
Context {T : Type}.

(** Lines 40-57 for one date: the table and the number of failed attempts. *)
Fixpoint retry (fuel : nat) (attempt : nat -> option T) (n : nat) : option (T * nat) :=
  match fuel with
  | O => None
  | S f =>
      match attempt n with
      | Some t => Some (t, 0%nat)
      | None => option_map (fun '(t, k) => (t, S k)) (retry f attempt (S n))
      end
  end.

End Retry.

Section Scraper.
Context {A : Type}.

(** Lines 37-60: the table of each date with its [year] and [month]
    columns, concatenated; [None] when some retry loop does not stop within
    the fuel. *)
Definition scrape (fuel : nat) (today : Date) (attempts : Date -> nat -> option (list A))
    : option (result (list (A * Z * Z))) :=
  let fetch d := option_map (fun '(t, _) => map (fun r => (r, d.1.1, d.1.2)) t)
                   (retry fuel (attempts d) 0) in
  match mapM fetch (month_ends today) with
  | None => None
  | Some [] => Some (Err (ValueError "No objects to concatenate"))
  | Some tables => Some (Ok (concat tables))
  end.

End Scraper.

(** ** Strings *)

(** The equations of [String.append], which [simpl] does not unfold. *)
Lemma string_app_nil (s : string) : "" +:+ s = s.
Proof. reflexivity. Qed.

Lemma string_app_cons c (s1 s2 : string) : String c s1 +:+ s2 = String c (s1 +:+ s2).
Proof. reflexivity. Qed.

Lemma string_length_app (s1 s2 : string) :
  String.length (s1 +:+ s2) = (String.length s1 + String.length s2)%nat.
Proof. induction s1 as [|c s1 IH]; rewrite ?string_app_nil, ?string_app_cons; simpl; [done | by f_equal]. Qed.

Lemma string_app_assoc (s1 s2 s3 : string) : s1 +:+ (s2 +:+ s3) = (s1 +:+ s2) +:+ s3.
Proof. induction s1 as [|c s1 IH]; rewrite ?string_app_nil, ?string_app_cons; [done | by f_equal]. Qed.

Lemma substring_app_prefix (p r : string) : String.substring 0 (String.length p) (p +:+ r) = p.
Proof. induction p as [|c p IH]; rewrite ?string_app_nil, ?string_app_cons; simpl; [by destruct r | by f_equal]. Qed.

Lemma substring_app_suffix (p r : string) n :
  String.substring (String.length p) n (p +:+ r) = String.substring 0 n r.
Proof. induction p as [|c p IH]; rewrite ?string_app_nil, ?string_app_cons; simpl; [done | exact IH]. Qed.

Lemma substring_all (r : string) : String.substring 0 (String.length r) r = r.
Proof. induction r as [|c r IH]; simpl; [done | by f_equal]. Qed.

(** Cutting a string at [n <= length u] and gluing the two slices back. *)
Lemma substring_split (u : string) n :
  (n <= String.length u)%nat ->
  u = String.substring 0 n u +:+ String.substring n (String.length u - n) u /\
  String.length (String.substring 0 n u) = n.
Proof.
  revert n; induction u as [|c u IH]; intros [|n] Hn; simpl in Hn; [split; reflexivity | lia | |].
  - simpl. rewrite string_app_nil, substring_all. split; reflexivity.
  - destruct (IH n ltac:(lia)) as [Hu Hl]. simpl. rewrite string_app_cons, Hl, <- Hu.
    split; reflexivity.
Qed.

(** The rewrite inserts ["if_"] after the first 42 characters. *)
Lemma raw_url_insert (p r : string) :
  String.length p = 42%nat -> raw_url (p +:+ r) = p +:+ "if_" +:+ r.
Proof.
  intros Hp. unfold raw_url. rewrite <- Hp, substring_app_prefix, substring_app_suffix.
  rewrite string_length_app, Hp. replace (42 + String.length r - 42)%nat with (String.length r) by lia.
  by rewrite substring_all.
Qed.

(** C33: on a Wayback snapshot URL (the 28-character prefix, a 14-digit
    timestamp, then the archived URL), the rewrite puts ["if_"] right after
    the timestamp, which selects the raw snapshot. *)
Theorem raw_url_wayback (ts r : string) :
  String.length ts = 14%nat ->
  raw_url (wayback_prefix +:+ ts +:+ r) = wayback_prefix +:+ ts +:+ "if_" +:+ r.
Proof.
  intros Hts. rewrite !string_app_assoc, raw_url_insert by (rewrite string_length_app, Hts; done).
  by rewrite !string_app_assoc.
Qed.

(** The inverse rewrite: drop the three characters at offset 42. *)
Definition unraw_url (v : string) : string :=
  String.substring 0 42 v +:+ String.substring 45 (String.length v - 45) v.

(** On a URL of at least 42 characters, the rewrite is undone by
    dropping the three characters it inserted, and it lengthens the URL by
    three. *)
Theorem raw_url_roundtrip (u : string) :
  (42 <= String.length u)%nat ->
  unraw_url (raw_url u) = u /\ String.length (raw_url u) = (String.length u + 3)%nat.
Proof.
  intros Hu. destruct (substring_split u 42 Hu) as [Hsplit Hlen].
  set (p := String.substring 0 42 u) in *. set (r := String.substring 42 _ u) in *.
  rewrite Hsplit, raw_url_insert by done. unfold unraw_url. split.
  - rewrite <- Hlen, substring_app_prefix, Hlen.
    replace 45%nat with (String.length (p +:+ "if_")) by (rewrite string_length_app, Hlen; done).
    rewrite string_app_assoc, substring_app_suffix, !string_length_app, Hlen. simpl.
    by rewrite ?Nat.sub_0_r, substring_all.
  - rewrite !string_length_app, Hlen. simpl. lia.
Qed.

(** ** The calendar *)

Lemma zrange_spec a b x : x ∈ zrange a b <-> a <= x < b.
Proof.
  unfold zrange. rewrite list_elem_of_fmap. split.
  - intros (i & -> & Hi%list_elem_of_In). apply in_seq in Hi. lia.
  - intros H. exists (Z.to_nat (x - a)). split; [lia|]. apply list_elem_of_In, in_seq. lia.
Qed.

Lemma zrange_sorted a b : StronglySorted Z.lt (zrange a b).
Proof.
  unfold zrange. apply (StronglySorted_map_mono lt); [intros; lia | apply StronglySorted_seq].
Qed.

Lemma date_lt_year y m x t : date_lt (y, m, x) t -> y <= t.1.1.
Proof. destruct t as [[ty tm] tx]. unfold date_lt, date_ltb. simpl. intros H. lia. Qed.

Lemma in_if_singleton {B} (b : bool) (x y : B) : In y (if b then [x] else []) <-> b = true /\ y = x.
Proof. destruct b; simpl; intuition congruence. Qed.

(** The month ends listed are those from January 2020 on before today. *)
Lemma month_ends_elem today d :
  d ∈ month_ends today <->
  exists y m, 2020 <= y /\ 1 <= m <= 12 /\ d = (y, m, days_in_month y m) /\ date_lt d today.
Proof.
  unfold month_ends. rewrite list_elem_of_In, in_flat_map. setoid_rewrite in_flat_map.
  setoid_rewrite in_if_singleton. setoid_rewrite <- list_elem_of_In. setoid_rewrite zrange_spec.
  split.
  - intros (y & Hy & m & Hm & Hlt & ->). exists y, m. repeat split; (lia || done).
  - intros (y & m & Hy & Hm & -> & Hlt). pose proof (date_lt_year _ _ _ _ Hlt).
    exists y. split; [lia|]. exists m. repeat split; (lia || done).
Qed.

(** They are listed in strictly increasing order. *)
Lemma month_ends_sorted today : StronglySorted date_lt (month_ends today).
Proof.
  unfold month_ends. apply (StronglySorted_flat_map Z.lt); [apply zrange_sorted| |].
  - intros y _. apply (StronglySorted_flat_map Z.lt); [apply zrange_sorted| |].
    + intros m _. destruct (date_ltb _ today); repeat constructor.
    + intros m1 m2 a b Hm (Ha & ->)%list_elem_of_In%in_if_singleton
        (Hb & ->)%list_elem_of_In%in_if_singleton.
      unfold date_lt, date_ltb. lia.
  - intros y1 y2 a b Hy (m1 & _ & (Ha & ->)%in_if_singleton)%list_elem_of_In%in_flat_map
      (m2 & _ & (Hb & ->)%in_if_singleton)%list_elem_of_In%in_flat_map.
    unfold date_lt, date_ltb. lia.
Qed.

(** C32: the scraped dates are exactly the month ends from January 2020
    on that are strictly before today, listed in strictly increasing
    order. *)
Theorem month_ends_spec today :
  StronglySorted date_lt (month_ends today) /\
  forall d, d ∈ month_ends today <->
    exists y m, 2020 <= y /\ 1 <= m <= 12 /\ d = (y, m, days_in_month y m) /\ date_lt d today.
Proof. split; [apply month_ends_sorted | apply month_ends_elem]. Qed.

Lemma days_in_month_bounds y m : 28 <= days_in_month y m <= 31.
Proof. unfold days_in_month. repeat case_match; lia. Qed.

(** ** The retry loop *)

Section RetryProofs.
Context {T : Type}.

(** When the [k]-th attempt is the first to succeed, the loop stops with
    its table after [k] failed attempts, as soon as the fuel exceeds [k]. *)
Lemma retry_first_success (attempt : nat -> option T) n k t fuel :
  attempt (n + k)%nat = Some t -> (forall i, (i < k)%nat -> attempt (n + i)%nat = None) ->
  (k < fuel)%nat -> retry fuel attempt n = Some (t, k).
Proof.
  revert n fuel; induction k as [|k IH]; intros n [|fuel] Ht Hfail Hk; try lia; simpl.
  - rewrite Nat.add_0_r in Ht. by rewrite Ht.
  - pose proof (Hfail 0%nat ltac:(lia)) as H0. rewrite Nat.add_0_r in H0. rewrite H0.
    rewrite (IH (S n) fuel); [done | | | lia].
    + match goal with |- attempt ?a = _ => replace a with (n + S k)%nat by lia end. exact Ht.
    + intros i Hi. match goal with |- attempt ?a = _ => replace a with (n + S i)%nat by lia end.
      apply Hfail. lia.
Qed.

Lemma retry_none (attempt : nat -> option T) fuel n :
  (forall i, (n <= i)%nat -> attempt i = None) -> retry fuel attempt n = None.
Proof.
  revert n; induction fuel as [|fuel IH]; intros n Hfail; simpl; [done|].
  rewrite Hfail by lia. rewrite IH; [done|]. intros i Hi. apply Hfail. lia.
Qed.

(** When every attempt fails the loop never stops: no fuel is
    enough. *)
Theorem retry_never (attempt : nat -> option T) n :
  (forall i, (n <= i)%nat -> attempt i = None) -> forall fuel, retry fuel attempt n = None.
Proof. intros Hfail fuel. by apply retry_none. Qed.

(** What the loop returns is the first success and its index. *)
Lemma retry_sound (attempt : nat -> option T) fuel n t k :
  retry fuel attempt n = Some (t, k) ->
  (k < fuel)%nat /\ attempt (n + k)%nat = Some t /\ forall i, (i < k)%nat -> attempt (n + i)%nat = None.
Proof.
  revert n k; induction fuel as [|fuel IH]; intros n k; simpl; [discriminate|].
  destruct (attempt n) as [t'|] eqn:Hn.
  - intros [= -> <-]. rewrite Nat.add_0_r. split; [lia | split; [done | lia]].
  - destruct (retry fuel attempt (S n)) as [[t' k']|] eqn:Hr; simpl; [|discriminate].
    intros [= -> <-]. destruct (IH (S n) k' Hr) as (Hk & Ht & Hf).
    split; [lia|]. split.
    + match goal with |- attempt ?a = _ => replace a with (S n + k')%nat by lia end. exact Ht.
    + intros [|i] Hi; [by rewrite Nat.add_0_r|].
      match goal with |- attempt ?a = _ => replace a with (S n + i)%nat by lia end. apply Hf. lia.
Qed.

(** C31: the loop stops within the fuel with a table after [k] failed
    attempts (and [k] ten-second sleeps) exactly when attempt [k] is the
    first to succeed and the fuel exceeds [k]. *)
Theorem retry_spec (attempt : nat -> option T) fuel n t k :
  retry fuel attempt n = Some (t, k) <->
  (k < fuel)%nat /\ attempt (n + k)%nat = Some t /\ forall i, (i < k)%nat -> attempt (n + i)%nat = None.
Proof.
  split; [apply retry_sound|]. intros (Hk & Ht & Hf). by apply retry_first_success.
Qed.

End RetryProofs.

(** ** The scraping loop *)

Lemma mapM_option_total {B C} (f : B -> option C) (g : B -> C) (l : list B) :
  (forall x, x ∈ l -> f x = Some (g x)) -> mapM f l = Some (map g l).
Proof.
  induction l as [|x l IH]; intros Hf; simpl; [done|].
  rewrite (Hf x ltac:(by left)). simpl. rewrite IH; [done|]. intros y Hy. apply Hf. by right.
Qed.

Lemma flat_map_nil {B C} (f : B -> list C) l : (forall x, x ∈ l -> f x = []) -> flat_map f l = [].
Proof.
  induction l as [|x l IH]; intros Hf; simpl; [done|]. rewrite Hf by (by left). apply IH.
  intros y Hy. apply Hf. by right.
Qed.

Section ScrapeProofs.
Context {A : Type}.

(** With fuel above the number of failed attempts of every date and
    at least one month end before today, the scraper returns the first
    successful table of each month end, in date order, each row tagged
    with its year and month. *)
Theorem scrape_tables fuel today (attempts : Date -> nat -> option (list A)) (first : Date -> list A) :
  month_ends today <> [] ->
  (forall d, d ∈ month_ends today -> exists k, (k < fuel)%nat /\
     attempts d k = Some (first d) /\ forall i, (i < k)%nat -> attempts d i = None) ->
  scrape fuel today attempts =
    Some (Ok (concat (map (fun d => map (fun r => (r, d.1.1, d.1.2)) (first d)) (month_ends today)))).
Proof.
  intros Hne Hd. unfold scrape.
  rewrite (mapM_option_total _ (fun d => map (fun r => (r, d.1.1, d.1.2)) (first d))).
  - destruct (month_ends today) as [|d ds]; [done | reflexivity].
  - intros d Hin. destruct (Hd d Hin) as (k & Hk & Hs & Hf).
    rewrite (retry_first_success _ 0 k (first d) fuel); [reflexivity | done | done | done].
Qed.

(** C29: When no month end from January 2020 on lies before today (today
    is at most 31 January 2020), [dates] is empty and [pd.concat] raises
    [ValueError] (line 60), whatever the network does. *)
Theorem scrape_no_month_end fuel today (attempts : Date -> nat -> option (list A)) :
  date_ltb (2020, 1, 31) today = false ->
  scrape fuel today attempts = Some (Err (ValueError "No objects to concatenate")).
Proof.
  intros Hlt. unfold scrape. assert (month_ends today = []) as ->; [|reflexivity].
  unfold month_ends. apply flat_map_nil. intros y Hy%zrange_spec. apply flat_map_nil. intros m Hm%zrange_spec.
  cbv zeta. destruct (date_ltb (y, m, days_in_month y m) today) eqn:E; [exfalso|done].
  pose proof (days_in_month_bounds y m) as Hb.
  destruct (decide (y = 2020 /\ m = 1)) as [[-> ->]|Hne]; [change (days_in_month 2020 1) with 31 in E; congruence|].
  destruct today as [[ty tm] tx]. unfold date_ltb in *. revert E Hlt.
  rewrite !Bool.orb_true_iff, !Bool.andb_true_iff, !Bool.orb_false_iff, !Bool.andb_false_iff,
    !Z.ltb_lt, !Z.eqb_eq, !Z.ltb_ge, !Z.eqb_neq. lia.
Qed.

End ScrapeProofs.

(** ** Witnesses *)

Lemma raw_url_wayback_witness :
  raw_url (wayback_prefix +:+ "20200131235959" +:+ "/https://www.forbes.com/") =
    wayback_prefix +:+ "20200131235959" +:+ "if_" +:+ "/https://www.forbes.com/".
Proof. apply raw_url_wayback. reflexivity. Defined.

Lemma raw_url_roundtrip_witness :
  let u := "https://web.archive.org/web/20200131235959/https://www.forbes.com/" in
  unraw_url (raw_url u) = u /\ String.length (raw_url u) = (String.length u + 3)%nat.
Proof. apply raw_url_roundtrip. vm_compute. lia. Defined.

Lemma retry_never_witness : retry 5 (fun _ => @None nat) 0 = None.
Proof. apply retry_never. reflexivity. Defined.

Lemma scrape_tables_witness :
  scrape 3 (2020, 3, 15) (fun d k => if (k =? 1)%nat then Some [d.1.1] else None) =
    Some (Ok (concat (map (fun d => map (fun r => (r, d.1.1, d.1.2)) [d.1.1]) (month_ends (2020, 3, 15))))).
Proof.
  apply (scrape_tables _ _ _ (fun d => [d.1.1])); [vm_compute; discriminate|].
  intros d _. exists 1%nat. split; [lia|]. split; [reflexivity|]. intros [|i] Hi; [reflexivity | lia].
Defined.

Lemma scrape_no_month_end_witness :
  scrape 5 (2020, 1, 31) (fun _ _ => @Some (list nat) []) = Some (Err (ValueError "No objects to concatenate")).
Proof. apply scrape_no_month_end. reflexivity. Defined.
