(* ===== verification/Fetch.v ===== *)
(** * Fetch: one attempt of the scraper (01-scrape-forbes.py lines 15-57)

    The body of the [try] block (lines 41-51) asks the Wayback availability
    API for the snapshot of the Forbes list nearest to the date, rewrites
    its URL to the raw snapshot ([Scrape.raw_url]), downloads and decodes
    it, reads [json["personList"]["personsLists"]] and flattens it with
    [pd.json_normalize]; the [year] and [month] columns of lines 50-51 are
    added by [Scrape.scrape].  Any exception is caught (lines 52-55) and
    the attempt is repeated.

    - The services are a class [Wayback]: waybackpy's [near] (returning
      the [archive_url] or raising), [urlopen(...).read().decode()] and
      [json.loads].  [json] is the type of the values [json.loads]
      returns; a [JObj] lists the items of a Python [dict], so its keys
      are distinct.
    - [py_getitem] is Python's [j[k]] on such a value: the item of a
      dictionary, [KeyError] when absent, [TypeError] on anything else.
    - [json_normalize] is pandas' [json_normalize] with its default
      arguments, which takes the path [_simple_json_normalize]: nested
      dictionaries are flattened into [a.b] keys ([normalise_json],
      [normalise_json_ordered]); a row that is not a dictionary gives an
      empty record.  A row that is itself a list (which pandas turns into
      a positional frame) is outside the model, which raises there.
    - [scrape_wayback] is the whole scraper over a network that may answer
      each attempt differently ([net d n] is what the [n]-th attempt for
      the date [d] sees).  The class [WaybackSpec] is what the scraper
      relies on: [json.loads] returns Python values ([json_wf]: distinct
      keys in every dictionary). *)

From S2P Require Import Prelude Scrape.
Local Open Scope Z_scope.
Local Set Warnings "-clear-no-such-hyp".

(** Lines 15-22: the default HTTPS context becomes the unverified one
    when the [ssl] module has [_create_unverified_context]. *)
Inductive https_context := VerifiedContext | UnverifiedContext.

Definition default_https_context (has_unverified_context : bool) : https_context :=
  if has_unverified_context then UnverifiedContext else VerifiedContext.

(** Lines 33-35. *)
Definition user_agent : string := "Mozilla/5.0 (Windows NT 5.1; rv:40.0) Gecko/20100101 Firefox/40.0".
Definition url : string := "https://www.forbes.com/forbesapi/person/rtb/0/position/true.json".

Record AvailabilityAPI := mkAvailabilityAPI { api_url : string; api_user_agent : string }.
Definition availability_api : AvailabilityAPI := mkAvailabilityAPI url user_agent.

(** The values of [json.loads]. *)
#[warnings="-register-all"]
Inductive json :=
  | JNull
  | JBool (b : bool)
  | JNum (q : Q)
  | JStr (s : string)
  | JArr (l : list json)
  | JObj (kvs : list (string * json)).

(** Lines 42, 46 and 47. *)
Class Wayback := {
  near : AvailabilityAPI -> Z -> Z -> Z -> Z -> result string;
  urlopen_read_decode : string -> result string;
  json_loads : string -> result json
}.

Fixpoint assoc_get (kvs : list (string * json)) (k : string) : option json :=
  match kvs with
  | [] => None
  | (k', v) :: kvs' => if bool_decide (k = k') then Some v else assoc_get kvs' k
  end.

(** [j[k]] with a string key (line 49). *)
Definition py_getitem (j : json) (k : string) : result json :=
  match j with
  | JObj kvs => match assoc_get kvs k with Some v => Ok v | None => Err (KeyErrorColumn k) end
  | JArr _ => Err (TypeError "list indices must be integers or slices, not str")
  | JStr _ => Err (TypeError "string indices must be integers")
  | _ => Err (TypeError "object is not subscriptable")
  end.

(** [d[k] = v] on a dictionary: in place when [k] is a key, at the end
    otherwise. *)
Fixpoint dict_set (d : list (string * json)) (k : string) (v : json) : list (string * json) :=
  match d with
  | [] => [(k, v)]
  | (k', v') :: d' => if bool_decide (k = k') then (k, v) :: d' else (k', v') :: dict_set d' k v
  end.

Definition is_obj (j : json) : bool := match j with JObj _ => true | _ => false end.

(** [f"{key_string}{separator}{key}"], without the separator when
    [key_string] is empty. *)
Definition new_key (key_string k : string) : string :=
  if bool_decide (key_string = "") then k else key_string +:+ "." +:+ k.

(** pandas' [_normalise_json]. *)
Fixpoint normalise_json (j : json) (key_string : string) (acc : list (string * json)) : list (string * json) :=
  match j with
  | JObj kvs =>
      (fix go (kvs : list (string * json)) (acc : list (string * json)) :=
         match kvs with
         | [] => acc
         | (k, v) :: kvs' => go kvs' (normalise_json v (new_key key_string k) acc)
         end) kvs acc
  | _ => dict_set acc key_string j
  end.

(** pandas' [_normalise_json_ordered]: the items that are not
    dictionaries first, then the flattened nested ones. *)
Definition normalise_json_ordered (kvs : list (string * json)) : list (string * json) :=
  let top := List.filter (fun kv => negb (is_obj kv.2)) kvs in
  let nested := normalise_json (JObj (List.filter (fun kv => is_obj kv.2) kvs)) "" [] in
  foldl (fun d kv => dict_set d kv.1 kv.2) top nested.

(** One row of [_simple_json_normalize]. *)
Definition simple_row (j : json) : result (list (string * json)) :=
  match j with
  | JObj kvs => Ok (normalise_json_ordered kvs)
  | JArr _ => Err NotImplementedError
  | _ => Ok []
  end.

(** [pd.json_normalize(data)] (line 49): the rows as records, a missing
    key standing for [NaN]. *)
Definition json_normalize (data : json) : result (list (list (string * json))) :=
  match data with
  | JArr rows => rmapM simple_row rows
  | JObj kvs => Ok [normalise_json_ordered kvs]
  | _ => Err NotImplementedError
  end.

(** Lines 42-49. *)
Definition attempt `{Wayback} (date : Date) : result (list (list (string * json))) :=
  let '(y, m, d) := date in
  let* archive_url := near availability_api y m d 24 in
  let archive_url := raw_url archive_url in
  let* response := urlopen_read_decode archive_url in
  let* json_wayback := json_loads response in
  let* person_list := py_getitem json_wayback "personList" in
  let* persons_lists := py_getitem person_list "personsLists" in
  json_normalize persons_lists.

(** Lines 41-57: [try ... except Exception: retry ... else: break]. *)
Definition caught {A} (r : result A) : option A :=
  match r with Ok a => Some a | Err _ => None end.

(** Lines 24-60 over the network [net]. *)
Definition scrape_wayback (fuel : nat) (today : Date) (net : Date -> nat -> Wayback) :=
  scrape fuel today (fun d n => caught (attempt (H := net d n) d)).

(** ** Flattening *)

(** Induction on [json] through the lists it nests. *)
Section JsonInd.
Variable P : json -> Prop.
Hypothesis HNull : P JNull.
Hypothesis HBool : forall b, P (JBool b).
Hypothesis HNum : forall q, P (JNum q).
Hypothesis HStr : forall s, P (JStr s).
Hypothesis HArr : forall l, Forall P l -> P (JArr l).
Hypothesis HObj : forall kvs, Forall (fun kv => P kv.2) kvs -> P (JObj kvs).

Fixpoint json_ind' (j : json) : P j :=
  match j with
  | JNull => HNull
  | JBool b => HBool b
  | JNum q => HNum q
  | JStr s => HStr s
  | JArr l => HArr l ((fix go (l : list json) : Forall P l :=
                        match l with
                        | [] => List.Forall_nil _
                        | x :: l' => @List.Forall_cons json P x l' (json_ind' x) (go l') end) l)
  | JObj kvs => HObj kvs ((fix go (kvs : list (string * json)) : Forall (fun kv => P kv.2) kvs :=
                        match kvs with
                        | [] => List.Forall_nil _
                        | (k, v) :: kvs' =>
                            @List.Forall_cons _ (fun kv => P kv.2) (k, v) kvs' (json_ind' v) (go kvs') end) kvs)
  end.
End JsonInd.

(** The column [foldl new_key "" p] of the path [p]: keys joined by dots. *)
Definition dotted (p : list string) : string := foldl new_key "" p.

(** A path without its leading empty keys: pandas drops the separator
    while the column name built so far is empty. *)
Fixpoint drop_empty_keys (p : list string) : list string :=
  match p with
  | [] => []
  | k :: p' => if bool_decide (k = "") then drop_empty_keys p' else p
  end.

(** [leaf_at j p v]: following the keys [p] from [j] leads to the value
    [v], which is not a dictionary. *)
Inductive leaf_at : json -> list string -> json -> Prop :=
  | leaf_here v : is_obj v = false -> leaf_at v [] v
  | leaf_item kvs k v p x : (k, v) ∈ kvs -> leaf_at v p x -> leaf_at (JObj kvs) (k :: p) x.

(** A flat record: distinct columns, no dictionary value. *)
Definition flat_record (r : list (string * json)) : Prop :=
  NoDup (map fst r) /\ Forall (fun kv => is_obj kv.2 = false) r.

Lemma dict_set_elem d k v kv : kv ∈ dict_set d k v -> kv = (k, v) \/ kv ∈ d.
Proof.
  induction d as [|[k' v'] d IH]; simpl; [set_solver|].
  case_bool_decide; rewrite !elem_of_cons; [naive_solver|]. intros [->|Hd%IH]; naive_solver.
Qed.

Lemma dict_set_keys d k v : k ∈ map fst d -> map fst (dict_set d k v) = map fst d.
Proof.
  induction d as [|[k' v'] d IH]; simpl; [set_solver|]. intros Hk.
  case_bool_decide as E; simpl; [by subst|]. rewrite IH; [done|]. set_solver.
Qed.

Lemma dict_set_keys_new d k v : k ∉ map fst d -> map fst (dict_set d k v) = map fst d ++ [k].
Proof.
  induction d as [|[k' v'] d IH]; simpl; [done|]. intros Hk.
  case_bool_decide as E; simpl; [set_solver|]. rewrite IH; [done|]. set_solver.
Qed.

Lemma dict_set_flat d k v : flat_record d -> is_obj v = false -> flat_record (dict_set d k v).
Proof.
  intros [Hnd Hf] Hv. split.
  - destruct (decide (k ∈ map fst d)) as [Hk|Hk].
    + by rewrite dict_set_keys.
    + rewrite dict_set_keys_new by done. apply NoDup_app. split_and!; [done | set_solver | apply NoDup_singleton].
  - apply Forall_forall. intros kv [->|Hkv]%dict_set_elem; [done|]. by apply (proj1 (Forall_forall _ _) Hf).
Qed.

Lemma leaf_at_obj_nonempty kvs p x : leaf_at (JObj kvs) p x -> p <> [].
Proof. by inversion 1. Qed.

Lemma leaf_at_sub kvs kvs' p x :
  leaf_at (JObj kvs) p x -> (forall kv, kv ∈ kvs -> kv ∈ kvs') -> leaf_at (JObj kvs') p x.
Proof. inversion 1; subst; [discriminate|]. intros Hsub. econstructor; [by apply Hsub | done]. Qed.

(** What [_normalise_json] adds to its accumulator is a leaf of [j],
    under the key of its path. *)
Lemma normalise_json_elem j : forall ks acc k v,
  (k, v) ∈ normalise_json j ks acc -> (k, v) ∈ acc \/ exists p, k = foldl new_key ks p /\ leaf_at j p v.
Proof.
  induction j as [| b | q | s | l _ | kvs IH] using json_ind'; intros ks acc k v;
    try (simpl; intros [[= -> ->]|?]%dict_set_elem; [right; exists []; split; [done | by constructor] | by left]).
  revert acc. induction kvs as [|[k0 v0] kvs IHk]; intros acc; [by left|].
  apply Forall_cons in IH as [IH0 IHt]. cbn -[new_key]. intros Hin.
  destruct (IHk IHt _ Hin) as [Hin'|(p & -> & Hp)].
  - destruct (IH0 _ _ _ _ Hin') as [?|(p & -> & Hp)]; [by left|].
    right. exists (k0 :: p). split; [done|]. econstructor; [by left | done].
  - right. exists p. split; [done|]. apply (leaf_at_sub kvs); [done|]. intros kv ?. by right.
Qed.

Lemma foldl_dict_set_elem d l kv :
  kv ∈ foldl (fun d kv => dict_set d kv.1 kv.2) d l -> kv ∈ d \/ kv ∈ l.
Proof.
  revert d; induction l as [|[k v] l IH]; intros d; simpl; [by left|].
  intros [[->|?]%dict_set_elem|?]%IH; set_solver.
Qed.

Lemma filter_elem {A} (p : A -> bool) l x : x ∈ List.filter p l <-> x ∈ l /\ p x = true.
Proof. rewrite !list_elem_of_In. apply filter_In. Qed.

(** Every column of a flattened record is the dotted path of a leaf of
    the record, and holds that leaf. *)
Lemma normalise_json_ordered_elem kvs k v :
  (k, v) ∈ normalise_json_ordered kvs -> exists p, p <> [] /\ k = dotted p /\ leaf_at (JObj kvs) p v.
Proof.
  unfold normalise_json_ordered. intros [[Hin Hv]%filter_elem|Hn]%foldl_dict_set_elem.
  - exists [k]. split_and!; [done | reflexivity |]. econstructor; [done|]. constructor. by destruct v.
  - destruct (normalise_json_elem _ _ _ _ _ Hn) as [Hn'%not_elem_of_nil|(p & -> & Hp)]; [done|].
    exists p. split_and!; [by eapply leaf_at_obj_nonempty | done |].
    apply (leaf_at_sub _ _ _ _ Hp). intros kv [? _]%filter_elem. done.
Qed.

Lemma normalise_json_flat j : forall ks acc, flat_record acc -> flat_record (normalise_json j ks acc).
Proof.
  induction j as [| b | q | s | l _ | kvs IH] using json_ind'; intros ks acc Hacc;
    try (simpl; by apply dict_set_flat).
  revert acc Hacc. induction kvs as [|[k0 v0] kvs IHk]; intros acc Hacc; [done|].
  apply Forall_cons in IH as [IH0 IHt]. exact (IHk IHt _ (IH0 _ _ Hacc)).
Qed.

Lemma foldl_dict_set_flat d l :
  flat_record d -> Forall (fun kv => is_obj kv.2 = false) l ->
  flat_record (foldl (fun d kv => dict_set d kv.1 kv.2) d l).
Proof.
  revert d; induction l as [|kv l IH]; intros d Hd Hl; simpl; [done|].
  apply Forall_cons in Hl as [Hkv Hl]. apply IH; [by apply dict_set_flat | done].
Qed.

(** A dictionary with distinct keys flattens into a flat record. *)
Lemma normalise_json_ordered_flat kvs : NoDup (map fst kvs) -> flat_record (normalise_json_ordered kvs).
Proof.
  intros Hnd. unfold normalise_json_ordered. apply foldl_dict_set_flat.
  - split; [by apply NoDup_map_filter|]. apply Forall_forall. intros kv [_ Hp]%filter_elem.
    by destruct (is_obj kv.2).
  - destruct (normalise_json_flat (JObj (List.filter (fun kv => is_obj kv.2) kvs)) "" []) as [_ Hf];
      [split; constructor | exact Hf].
Qed.

(** The rows [pd.json_normalize] reads from its argument. *)
Definition data_rows (data : json) : list json :=
  match data with JArr rows => rows | JObj kvs => [JObj kvs] | _ => [] end.

(** A value [json.loads] returns for a JSON object is a Python [dict]:
    its keys are distinct. *)
Definition dict_keys_distinct (j : json) : Prop :=
  match j with JObj kvs => NoDup (map fst kvs) | _ => True end.

#[export] Instance dict_keys_distinct_dec j : Decision (dict_keys_distinct j).
Proof. destruct j; simpl; apply _. Defined.

Lemma json_normalize_rows data rows :
  json_normalize data = Ok rows -> Forall2 (fun j r => simple_row j = Ok r) (data_rows data) rows.
Proof.
  destruct data as [| | | | l | kvs]; simpl; try discriminate; [apply rmapM_Ok_Forall2|].
  intros [= <-]. by constructor.
Qed.

Lemma Forall2_Forall_transfer {X Y} (P : X -> Y -> Prop) (R : X -> Prop) (S : Y -> Prop) l1 l2 :
  Forall2 P l1 l2 -> Forall R l1 -> (forall x y, R x -> P x y -> S y) -> Forall S l2.
Proof. induction 1; intros HR HS; inversion HR; subst; constructor; eauto. Qed.

(** ** The attempt and the scraper over the network *)

Lemma mapM_None {B C} (f : B -> option C) l x : x ∈ l -> f x = None -> mapM f l = None.
Proof.
  induction l as [|y l IH]; simpl; [set_solver|]. intros [->|Hx]%elem_of_cons Hf; [by rewrite Hf|].
  destruct (f y); simpl; [|done]. by rewrite IH.
Qed.

(** The values [json.loads] returns are Python values: every dictionary,
    at any depth, has distinct keys. *)
Fixpoint json_wf (j : json) : bool :=
  match j with
  | JArr l => forallb json_wf l
  | JObj kvs => bool_decide (NoDup (map fst kvs)) && forallb (fun kv => json_wf kv.2) kvs
  | _ => true
  end.

(** What the scraper relies on from the services: [json.loads] returns
    Python values. *)
Class WaybackSpec `{Wayback} := json_loads_wf : forall s j, json_loads s = Ok j -> json_wf j = true.

Lemma assoc_get_elem kvs k v : assoc_get kvs k = Some v -> (k, v) ∈ kvs.
Proof.
  induction kvs as [|[k' v'] kvs IH]; simpl; [discriminate|].
  case_bool_decide; [intros [= <-]; subst; by left | intros ?; right; by apply IH].
Qed.

Lemma py_getitem_wf j k v : json_wf j = true -> py_getitem j k = Ok v -> json_wf v = true.
Proof.
  destruct j as [| | | | l | kvs]; simpl; try discriminate. intros [_ Hall]%andb_prop.
  destruct (assoc_get kvs k) as [v'|] eqn:E; [|discriminate]. intros [= <-].
  apply assoc_get_elem, list_elem_of_In in E. rewrite forallb_forall in Hall. exact (Hall _ E).
Qed.

Lemma json_wf_rows data : json_wf data = true -> Forall dict_keys_distinct (data_rows data).
Proof.
  destruct data as [| | | | l | kvs]; simpl; intros H; try by constructor.
  - apply Forall_forall. intros j Hj. rewrite forallb_forall in H. apply list_elem_of_In, H in Hj.
    destruct j; simpl in *; try done. apply andb_prop in Hj as [Hj _]. by apply bool_decide_eq_true in Hj.
  - apply andb_prop in H as [H _]. constructor; [by apply bool_decide_eq_true in H | constructor].
Qed.

Lemma json_normalize_rows_flat data rows :
  Forall dict_keys_distinct (data_rows data) -> json_normalize data = Ok rows -> Forall flat_record rows.
Proof.
  intros Hd Hr%json_normalize_rows. apply (Forall2_Forall_transfer _ _ _ _ _ Hr Hd).
  intros [| | | | l | kvs] r Hk; simpl; try (intros [= <-]; split; [apply NoDup_nil_2 | constructor]);
    [discriminate|].
  intros [= <-]. by apply normalise_json_ordered_flat.
Qed.

(** A successful attempt yields flat records. *)
Lemma attempt_flat `{WaybackSpec} d rows : attempt d = Ok rows -> Forall flat_record rows.
Proof.
  destruct d as [[y m] x]. unfold attempt.
  destruct (near _ _ _ _ _) as [u|]; simpl; [|discriminate].
  destruct (urlopen_read_decode _) as [body|]; simpl; [|discriminate].
  destruct (json_loads body) as [j|] eqn:Hj; simpl; [|discriminate].
  destruct (py_getitem j _) as [pl|] eqn:Hpl; simpl; [|discriminate].
  destruct (py_getitem pl _) as [ppl|] eqn:Hppl; simpl; [|discriminate].
  apply json_normalize_rows_flat, json_wf_rows. eapply py_getitem_wf; [|exact Hppl].
  eapply py_getitem_wf; [|exact Hpl]. by eapply json_loads_wf.
Qed.

(** C36: [pd.json_normalize] on the decoded list of persons builds a
    well-formed table: when the rows are Python dictionaries (distinct
    keys), every record it yields has distinct column names and no
    dictionary left as a value. *)
Theorem json_normalize_flat data rows :
  Forall dict_keys_distinct (data_rows data) -> json_normalize data = Ok rows -> Forall flat_record rows.
Proof. apply json_normalize_rows_flat. Qed.

Lemma concat_cons_cons (x k : string) p :
  String.concat "." (x :: k :: p) = String.concat "." ((x +:+ "." +:+ k) :: p).
Proof. destruct p; simpl; [done|]. by rewrite !string_app_assoc. Qed.

Lemma foldl_new_key acc p : acc <> "" -> foldl new_key acc p = String.concat "." (acc :: p).
Proof.
  revert acc; induction p as [|k p IH]; intros acc Hacc; [done|].
  simpl foldl. unfold new_key at 2. rewrite bool_decide_false by done.
  rewrite IH, concat_cons_cons; [done|]. by destruct acc.
Qed.

(** The name [_normalise_json] builds for a path: Python's
    [".".join(path)], after the leading empty keys. *)
Lemma dotted_join p : dotted p = String.concat "." (drop_empty_keys p).
Proof.
  unfold dotted. induction p as [|k p IH]; [done|]. simpl foldl. cbn [drop_empty_keys].
  unfold new_key at 2. rewrite bool_decide_true by done.
  case_bool_decide as Hk; [by subst|]. by apply foldl_new_key.
Qed.

(** C37: [pd.json_normalize] flattens nested dictionaries into dotted
    columns: every column of every record it yields is the path of keys
    that leads in the corresponding input row to a value that is not a
    dictionary, joined by ["."] as Python's [".".join] does (after the
    leading empty keys, where pandas writes no separator), and holds that
    value. *)
Theorem json_normalize_paths data rows :
  json_normalize data = Ok rows ->
  Forall2 (fun j r => forall k v, (k, v) ∈ r ->
      exists p, p <> [] /\ k = String.concat "." (drop_empty_keys p) /\ leaf_at j p v)
    (data_rows data) rows.
Proof.
  intros Hr%json_normalize_rows. apply (Forall2_impl _ _ _ _ Hr).
  intros [| | | | l | kvs] r; simpl; try (intros [= <-] k v Hkv; by apply not_elem_of_nil in Hkv).
  intros [= <-] k v Hkv. setoid_rewrite <- dotted_join. by apply normalise_json_ordered_elem.
Qed.

(** C30: A snapshot without the list stalls the scraper: when the Wayback
    API keeps answering a month end with the same snapshot, whose JSON is
    a dictionary without a ["personList"] key (an archived error page, for
    instance), every attempt raises [KeyError] at line 49, the exception
    is caught and the attempt repeated, so the scraper never finishes,
    whatever the fuel. *)
Theorem scrape_wayback_stuck fuel today (net : Date -> nat -> Wayback) y m x u body kvs :
  (y, m, x) ∈ month_ends today ->
  (forall n, @near (net (y, m, x) n) availability_api y m x 24 = Ok u /\
     @urlopen_read_decode (net (y, m, x) n) (raw_url u) = Ok body /\
     @json_loads (net (y, m, x) n) body = Ok (JObj kvs)) ->
  assoc_get kvs "personList" = None ->
  scrape_wayback fuel today net = None.
Proof.
  intros Hd Hnet Hkey. unfold scrape_wayback, scrape.
  rewrite (mapM_None _ _ (y, m, x)); [done | done |]. simpl. rewrite retry_none; [done|].
  intros i _. destruct (Hnet i) as (Hn & Hu & Hj). unfold attempt. rewrite Hn. simpl.
  rewrite Hu. simpl. rewrite Hj. simpl. by rewrite Hkey.
Qed.

(** The scraper stops with the tagged tables of the first successful
    attempts as soon as the fuel exceeds every month end's failures. *)
Lemma scrape_wayback_first_success fuel today (net : Date -> nat -> Wayback)
    (first : Date -> list (list (string * json))) :
  month_ends today <> [] ->
  (forall d, d ∈ month_ends today -> exists k, (k < fuel)%nat /\ @attempt (net d k) d = Ok (first d) /\
     forall i, (i < k)%nat -> exists e, @attempt (net d i) d = Err e) ->
  scrape_wayback fuel today net =
    Some (Ok (concat (map (fun d => map (fun r => (r, d.1.1, d.1.2)) (first d)) (month_ends today)))).
Proof.
  intros Hne Hd. unfold scrape_wayback, scrape.
  rewrite (mapM_option_total _ (fun d => map (fun r => (r, d.1.1, d.1.2)) (first d))).
  - destruct (month_ends today) as [|d ds]; [done | reflexivity].
  - intros d Hin. destruct (Hd d Hin) as (k & Hk & Hs & Hf).
    rewrite (retry_first_success _ 0 k (first d) fuel); [reflexivity | simpl; by rewrite Hs | | done].
    intros i Hi. destruct (Hf i Hi) as [e He]. simpl. by rewrite He.
Qed.

(** C28: The scraper over the network returns the flattened person lists:
    when [json.loads] returns Python values and, for every month end, some
    attempt within the fuel is the first not to raise, the scraper stops
    with the records [pd.json_normalize] made of each month end's list, in
    date order, tagged with the year and month (lines 50-51, 60), and
    every record is flat (distinct columns, no nested dictionary). *)
Theorem scrape_wayback_tables fuel today (net : Date -> nat -> Wayback)
    (first : Date -> list (list (string * json))) :
  (forall d n, @WaybackSpec (net d n)) -> month_ends today <> [] ->
  (forall d, d ∈ month_ends today -> exists k, (k < fuel)%nat /\ @attempt (net d k) d = Ok (first d) /\
     forall i, (i < k)%nat -> exists e, @attempt (net d i) d = Err e) ->
  scrape_wayback fuel today net =
    Some (Ok (concat (map (fun d => map (fun r => (r, d.1.1, d.1.2)) (first d)) (month_ends today)))) /\
  Forall (fun d => Forall flat_record (first d)) (month_ends today).
Proof.
  intros Hspec Hne Hd. split; [by apply scrape_wayback_first_success|].
  apply Forall_forall. intros d Hin. destruct (Hd d Hin) as (k & _ & Hs & _).
  exact (@attempt_flat (net d k) (Hspec d k) d _ Hs).
Qed.

(** ** Witnesses *)

Module ForbesSample.

(** Two persons of the list, the second without its nested fields, and a
    stray [null]. *)
Definition persons : json :=
  JArr [JObj [("rank", JNum 1); ("personName", JStr "A");
              ("finalWorth", JObj [("usd", JNum 180000); ("date", JStr "2020-01-31")])];
        JObj [("rank", JNum 2); ("personName", JStr "B"); ("finalWorth", JObj [])];
        JNull].

Definition rows : list (list (string * json)) :=
  [[("rank", JNum 1); ("personName", JStr "A"); ("finalWorth.usd", JNum 180000);
    ("finalWorth.date", JStr "2020-01-31")];
   [("rank", JNum 2); ("personName", JStr "B")];
   []].

Definition archived_error : Wayback := {|
  near := fun _ _ _ _ _ => Ok "https://web.archive.org/web/20200131120000/https://www.forbes.com/";
  urlopen_read_decode := fun _ => Ok "{}";
  json_loads := fun _ => Ok (JObj [("error", JStr "Not Found")]) |}.

Definition snapshot : Wayback := {|
  near := fun _ _ _ _ _ => Ok "https://web.archive.org/web/20200131120000/https://www.forbes.com/";
  urlopen_read_decode := fun _ => Ok "{}";
  json_loads := fun _ => Ok (JObj [("personList", JObj [("personsLists", persons)])]) |}.

End ForbesSample.

Lemma json_normalize_flat_witness :
  json_normalize ForbesSample.persons = Ok ForbesSample.rows /\ Forall flat_record ForbesSample.rows.
Proof.
  split; [vm_compute; reflexivity|].
  apply (json_normalize_flat ForbesSample.persons); [decide_concrete | vm_compute; reflexivity].
Defined.

Lemma json_normalize_paths_witness :
  leaf_at (JObj [("finalWorth", JObj [("usd", JNum 180000)])]) ["finalWorth"; "usd"] (JNum 180000) /\
  Forall2 (fun j r => forall k v, (k, v) ∈ r ->
      exists p, p <> [] /\ k = String.concat "." (drop_empty_keys p) /\ leaf_at j p v)
    (data_rows ForbesSample.persons) ForbesSample.rows.
Proof.
  split; [repeat econstructor|].
  apply json_normalize_paths. vm_compute. reflexivity.
Defined.

Lemma scrape_wayback_stuck_witness :
  scrape_wayback 100 (2020, 3, 15) (fun _ _ => ForbesSample.archived_error) = None.
Proof.
  apply (scrape_wayback_stuck _ _ _ 2020 1 31
    "https://web.archive.org/web/20200131120000/https://www.forbes.com/" "{}" [("error", JStr "Not Found")]);
    [decide_concrete | intros n; split_and!; reflexivity | reflexivity].
Defined.

Lemma scrape_wayback_tables_witness :
  scrape_wayback 3 (2020, 3, 15) (fun _ _ => ForbesSample.snapshot) =
    Some (Ok (concat (map (fun d => map (fun r => (r, d.1.1, d.1.2)) ForbesSample.rows)
      (month_ends (2020, 3, 15))))) /\
  Forall (fun d => Forall flat_record ForbesSample.rows) (month_ends (2020, 3, 15)).
Proof.
  apply (scrape_wayback_tables _ _ _ (fun _ => ForbesSample.rows)).
  - intros d n s j [= <-]. vm_compute. reflexivity.
  - vm_compute. discriminate.
  - intros [[y m] x] _. exists 0%nat. split_and!; [lia | vm_compute; reflexivity | intros; lia].
Defined.
