(* ===== verification/Cli.v ===== *)
(** * Cli: the command line of the two scripts

    [transport.py] reads its year as [int(sys.argv[1])] (line 13) before
    anything else, and writes [match/match-<year>.csv] (line 184);
    [01-scrape-forbes.py] reads its output path as [sys.argv[1]] only at
    its last line (line 61), after every snapshot has been fetched.

    - [argv_get] is [sys.argv[i]], raising [IndexError] past the end.
    - [py_int] is Python's [int(s)] on a string in base 10: surrounding
      whitespace stripped ([strip]; ASCII whitespace as Python counts it:
      tab to carriage return and the separators 28-31, and space), an
      optional sign, then decimal digits with single underscores allowed
      between digits; [ValueError] otherwise.
    - [transport_main] and [scrape_main] are the two scripts from their
      argument vectors.

    [transport_main_year] shows that a year printed by [str] (with any
    surrounding whitespace) is read back and selects the run of that year;
    [transport_main_bad_argument] the two errors of line 13. *)

From S2P Require Import Prelude Config Frame Groupby Cost Transport Extract Chain Scrape Fetch.
From stdpp Require Import pretty.
From Stdlib Require Import Ascii.
Local Open Scope Z_scope.

(** [sys.argv[i]]. *)
Definition argv_get (argv : list string) (i : nat) : result string :=
  match argv !! i with Some a => Ok a | None => Err IndexError end.

(** Python's whitespace among the ASCII characters. *)
Definition is_space (c : ascii) : bool :=
  let n := Ascii.nat_of_ascii c in ((9 <=? n) && (n <=? 13))%nat || ((28 <=? n) && (n <=? 32))%nat.

Definition digit_val (c : ascii) : option Z :=
  let n := Z.of_nat (Ascii.nat_of_ascii c) in
  if (48 <=? n) && (n <=? 57) then Some (n - 48) else None.

Definition is_digit (c : ascii) : bool := match digit_val c with Some _ => true | None => false end.

Fixpoint lstrip (s : string) : string :=
  match s with
  | EmptyString => EmptyString
  | String c s' => if is_space c then lstrip s' else s
  end.

Fixpoint rstrip (s : string) : string :=
  match s with
  | EmptyString => EmptyString
  | String c s' =>
      match rstrip s' with
      | EmptyString => if is_space c then EmptyString else String c EmptyString
      | r => String c r
      end
  end.

(** [s.strip()]. *)
Definition strip (s : string) : string := rstrip (lstrip s).

(** The digits of [int()], from the value [acc] of those before; an
    underscore must sit between two digits. *)
Fixpoint parse_digits (s : string) (acc : Z) : option Z :=
  match s with
  | EmptyString => Some acc
  | String c s' =>
      match digit_val c with
      | Some d => parse_digits s' (10 * acc + d)
      | None =>
          if Ascii.eqb c "_" then
            match s' with
            | String c' _ => if is_digit c' then parse_digits s' acc else None
            | EmptyString => None
            end
          else None
      end
  end.

Definition parse_unsigned (s : string) : option Z :=
  match s with
  | String c _ => if is_digit c then parse_digits s 0 else None
  | EmptyString => None
  end.

(** [int(s)]. *)
Definition py_int (s : string) : result Z :=
  let t := strip s in
  let r :=
    match t with
    | String c u =>
        if Ascii.eqb c "-" then option_map Z.opp (parse_unsigned u)
        else if Ascii.eqb c "+" then parse_unsigned u
        else parse_unsigned t
    | EmptyString => None
    end in
  match r with
  | Some z => Ok z
  | None => Err (ValueError "invalid literal for int() with base 10")
  end.

Section Main.
Context `{EMDSolver}.

(** transport.py: line 13, then the run of lines 16-183 and the name of
    the file it writes. *)
Definition transport_main (read_csv : string -> Frame) (argv : list string)
    : result (string * list Entry) :=
  let* arg := argv_get argv 1 in
  let* year := py_int arg in
  let* matches := run read_csv year in
  Ok (match_file year, matches).

End Main.

(** 01-scrape-forbes.py, lines 60-61: the path is read after the scrape. *)
Definition scrape_main (fuel : nat) (today : Date) (net : Date -> nat -> Wayback) (argv : list string)
    : option (result (string * list (list (string * json) * Z * Z))) :=
  match scrape_wayback fuel today net with
  | None => None
  | Some (Err e) => Some (Err e)
  | Some (Ok table_all) => Some (let* path := argv_get argv 1 in Ok (path, table_all))
  end.

(** ** The digits that [str] prints *)

Fixpoint all_digits (u : string) : bool :=
  match u with EmptyString => true | String c u' => is_digit c && all_digits u' end.

(** The value of a run of digits read after the value [acc]. *)
Fixpoint fold_digits (u : string) (acc : Z) : Z :=
  match u with EmptyString => acc | String c u' => fold_digits u' (10 * acc + default 0 (digit_val c)) end.

Lemma digit_pretty_char (n : N) : (n < 10)%N -> digit_val (pretty_N_char n) = Some (Z.of_N n).
Proof.
  intros Hn. rewrite <- (N2Nat.id n). assert (N.to_nat n < 10)%nat as Hk by lia.
  revert Hk. generalize (N.to_nat n) as k. intros k Hk.
  do 10 (destruct k as [|k]; [reflexivity|]). lia.
Qed.

Lemma all_digits_app u v : all_digits (u +:+ v) = all_digits u && all_digits v.
Proof. induction u as [|c u IH]; simpl; [done|]. by rewrite IH, andb_assoc. Qed.

Lemma fold_digits_app u v acc : fold_digits (u +:+ v) acc = fold_digits v (fold_digits u acc).
Proof. revert acc; induction u as [|c u IH]; intros acc; simpl; [done|]. apply IH. Qed.

Lemma pretty_N_go_app x s : pretty_N_go x s = pretty_N_go x "" +:+ s.
Proof.
  revert s. induction (N.lt_wf_0 x) as [x _ IH]; intros s.
  destruct (decide (x = 0%N)) as [->|Hx]; [done|].
  rewrite !(pretty_N_go_step x) by lia. rewrite (IH _ (N.div_lt x 10 ltac:(lia) ltac:(lia)) (String _ s)).
  rewrite (IH _ (N.div_lt x 10 ltac:(lia) ltac:(lia)) (String _ "")). by rewrite <- string_app_assoc.
Qed.

(** [pretty_N_go x ""] is a run of digits worth [x], nonempty when [x] is
    positive. *)
Lemma pretty_N_go_digits x :
  all_digits (pretty_N_go x "") = true /\ fold_digits (pretty_N_go x "") 0 = Z.of_N x /\
  ((0 < x)%N -> pretty_N_go x "" <> "").
Proof.
  induction (N.lt_wf_0 x) as [x _ IH].
  destruct (decide (x = 0%N)) as [->|Hx]; [done|].
  rewrite pretty_N_go_step, pretty_N_go_app by lia.
  destruct (IH (x `div` 10)%N (N.div_lt x 10 ltac:(lia) ltac:(lia))) as (Hd & Hf & _).
  rewrite all_digits_app, fold_digits_app, Hd, Hf. simpl.
  unfold is_digit. rewrite digit_pretty_char by (apply N.mod_lt; lia). simpl. split_and!.
  - done.
  - rewrite (N.div_mod x 10) at 3 by lia. lia.
  - intros _. by destruct (pretty_N_go _ _).
Qed.

Lemma parse_digits_all u acc : all_digits u = true -> parse_digits u acc = Some (fold_digits u acc).
Proof.
  revert acc; induction u as [|c u IH]; intros acc; simpl; [done|].
  unfold is_digit. destruct (digit_val c); simpl; [apply IH | discriminate].
Qed.

Lemma digit_not_space c : is_digit c = true -> is_space c = false.
Proof.
  unfold is_digit, digit_val, is_space. pose proof (Ascii.nat_ascii_bounded c).
  destruct (Z.leb_spec 48 (Z.of_nat (nat_of_ascii c))), (Z.leb_spec (Z.of_nat (nat_of_ascii c)) 57);
    simpl; try discriminate. intros _.
  destruct (Nat.leb_spec 9 (nat_of_ascii c)), (Nat.leb_spec (nat_of_ascii c) 13),
    (Nat.leb_spec 28 (nat_of_ascii c)), (Nat.leb_spec (nat_of_ascii c) 32); simpl; lia.
Qed.

(** ** [int()] reads back what [str] prints *)

Fixpoint all_space (s : string) : bool :=
  match s with EmptyString => true | String c s' => is_space c && all_space s' end.

Lemma lstrip_spaces pre t : all_space pre = true -> lstrip (pre +:+ t) = lstrip t.
Proof. induction pre as [|c pre IH]; simpl; [done|]. intros [-> ?]%andb_prop. by apply IH. Qed.

Lemma rstrip_cons c s : rstrip s <> "" -> rstrip (String c s) = String c (rstrip s).
Proof. simpl. by destruct (rstrip s). Qed.

Lemma rstrip_all_space s : all_space s = true -> rstrip s = "".
Proof.
  induction s as [|c s IH]; simpl; [done|]. intros [Hc Hs]%andb_prop. by rewrite IH, Hc.
Qed.

Lemma rstrip_spaces s post : all_space post = true -> rstrip (s +:+ post) = rstrip s.
Proof.
  intros Hp. induction s as [|c s IH]; simpl; [by apply rstrip_all_space|]. by rewrite IH.
Qed.

Lemma rstrip_all_digits u : all_digits u = true -> u <> "" -> rstrip u = u.
Proof.
  induction u as [|c u IH]; [done|]. intros [Hc Hd]%andb_prop _. destruct (decide (u = "")) as [->|Hu].
  - simpl. by rewrite digit_not_space.
  - simpl. rewrite IH by done. by destruct u.
Qed.

Lemma rstrip_digits v u : all_digits u = true -> u <> "" -> rstrip (v +:+ u) = v +:+ u.
Proof.
  intros Hd Hne. induction v as [|c v IH]; [by apply rstrip_all_digits|].
  simpl. rewrite IH. by destruct v, u.
Qed.

Lemma digit_not_sign c : is_digit c = true -> Ascii.eqb c "-" = false /\ Ascii.eqb c "+" = false.
Proof.
  intros Hc. split; destruct (Ascii.eqb_spec c "-"), (Ascii.eqb_spec c "+"); subst; done.
Qed.

(** The text [str(z)]: an optional minus sign, then the digits of [|z|]. *)
Lemma pretty_Z_form z :
  exists u, all_digits u = true /\ u <> "" /\ fold_digits u 0 = Z.abs z /\
    pretty z = (if z <? 0 then "-" else "") +:+ u.
Proof.
  destruct z as [|p|p]; [by exists "0"| |];
    destruct (pretty_N_go_digits (Npos p)) as (Hd & Hf & Hne);
    exists (pretty_N_go (Npos p) ""); split_and!; try done; try (apply Hne; lia).
Qed.

Lemma strip_around pre c t post :
  all_space pre = true -> all_space post = true -> is_space c = false -> rstrip (String c t) = String c t ->
  strip (pre +:+ String c t +:+ post) = String c t.
Proof.
  intros Hpre Hpost Hc Ht. unfold strip. rewrite lstrip_spaces by done.
  change (String c t +:+ post) with (String c (t +:+ post)). cbn [lstrip].
  rewrite Hc. change (String c (t +:+ post)) with (String c t +:+ post). by rewrite rstrip_spaces.
Qed.

Lemma parse_unsigned_digits c u :
  all_digits (String c u) = true -> parse_unsigned (String c u) = Some (fold_digits (String c u) 0).
Proof.
  intros Hd. pose proof Hd as Hd'. simpl in Hd'. apply andb_prop in Hd' as [Hc _].
  unfold parse_unsigned. rewrite Hc. by apply parse_digits_all.
Qed.

Lemma py_int_pretty pre post z :
  all_space pre = true -> all_space post = true -> py_int (pre +:+ pretty z +:+ post) = Ok z.
Proof.
  intros Hpre Hpost. destruct (pretty_Z_form z) as ([|c u] & Hd & Hne & Hf & ->); [done|].
  pose proof Hd as Hd'. simpl in Hd'. apply andb_prop in Hd' as [Hc _].
  destruct (digit_not_sign c Hc) as [Hm Hp]. unfold py_int.
  destruct (Z.ltb_spec z 0) as [Hz|Hz].
  - change ("-" +:+ String c u) with (String "-" (String c u)).
    rewrite (strip_around pre "-" (String c u) post) by
      (done || apply (rstrip_digits "-"); done).
    cbv beta iota zeta. rewrite parse_unsigned_digits, Hf by done. simpl. f_equal. lia.
  - change ("" +:+ String c u) with (String c u).
    rewrite (strip_around pre c u post) by
      (done || apply digit_not_space, Hc || apply (rstrip_digits ""); done).
    cbv beta iota zeta. rewrite Hm, Hp. cbv beta iota. rewrite parse_unsigned_digits, Hf by done. f_equal. lia.
Qed.

(** ** What [int()] refuses *)

(** The characters [int()] can accept in base 10. *)
Definition allowed (c : ascii) : bool :=
  is_space c || is_digit c || Ascii.eqb c "+" || Ascii.eqb c "-" || Ascii.eqb c "_".

Fixpoint all_allowed (s : string) : bool :=
  match s with EmptyString => true | String c s' => allowed c && all_allowed s' end.

Lemma parse_digits_allowed s acc z : parse_digits s acc = Some z -> all_allowed s = true.
Proof.
  revert acc; induction s as [|c s IH]; intros acc; simpl; [done|].
  destruct (digit_val c) eqn:E.
  - intros Hs%IH. unfold allowed, is_digit. rewrite E, Hs. by rewrite orb_true_r.
  - destruct (Ascii.eqb_spec c "_"); [subst|discriminate]. destruct s as [|c' s']; [discriminate|].
    destruct (is_digit c'); [|discriminate]. intros Hs%IH. by rewrite Hs.
Qed.

Lemma parse_unsigned_allowed s z : parse_unsigned s = Some z -> all_allowed s = true.
Proof.
  destruct s as [|c s]; [discriminate|]. unfold parse_unsigned.
  destruct (is_digit c); [apply parse_digits_allowed | discriminate].
Qed.

Lemma all_allowed_lstrip s : all_allowed (lstrip s) = true -> all_allowed s = true.
Proof.
  induction s as [|c s IH]; simpl; [done|]. destruct (is_space c) eqn:E; [|done].
  intros Hs%IH. unfold allowed. by rewrite E, Hs.
Qed.

Lemma all_allowed_rstrip s : all_allowed (rstrip s) = true -> all_allowed s = true.
Proof.
  induction s as [|c s IH]; simpl; [done|]. destruct (rstrip s) as [|c' r] eqn:E.
  - destruct (is_space c) eqn:Hc; simpl.
    + intros _. unfold allowed. by rewrite Hc, IH.
    + intros [-> _]%andb_prop. by rewrite IH.
  - simpl. intros [-> Hr]%andb_prop. by rewrite IH.
Qed.

Lemma all_allowed_cons c u : allowed c = true -> all_allowed u = true -> all_allowed (String c u) = true.
Proof. intros Hc Hu. simpl. by rewrite Hc, Hu. Qed.

(** A string [int()] accepts has only digits, whitespace, signs and
    underscores. *)
Lemma py_int_allowed s z : py_int s = Ok z -> all_allowed s = true.
Proof.
  intros Hs. apply all_allowed_lstrip, all_allowed_rstrip. fold (strip s). revert Hs. unfold py_int.
  destruct (strip s) as [|c u]; [discriminate|]. cbv zeta.
  destruct (Ascii.eqb c "-") eqn:Em; [|destruct (Ascii.eqb c "+") eqn:Ep];
    (destruct (parse_unsigned _) eqn:E; [intros _|discriminate]); [..|exact (parse_unsigned_allowed _ _ E)];
    apply all_allowed_cons; [| exact (parse_unsigned_allowed _ _ E) | | exact (parse_unsigned_allowed _ _ E)];
    unfold allowed; [rewrite Em | rewrite Ep]; by rewrite !orb_true_r.
Qed.

Lemma py_int_error s e : py_int s = Err e -> e = ValueError "invalid literal for int() with base 10".
Proof. unfold py_int. cbv zeta. repeat case_match; congruence. Qed.

(** ** The two scripts from their arguments *)

(** C34: [int(sys.argv[1])] reads back the year [str] prints, with any
    whitespace around it, so transport.py run with a printed year runs the
    match of that year and writes it to [match/match-<year>.csv]. *)
Theorem transport_main_year `{EMDSolver} read_csv prog pre post rest y :
  all_space pre = true -> all_space post = true ->
  transport_main read_csv (prog :: (pre +:+ pretty y +:+ post) :: rest) =
    (let* matches := run read_csv y in Ok (match_file y, matches)).
Proof. intros Hpre Hpost. unfold transport_main, argv_get. simpl. by rewrite py_int_pretty. Qed.

(** C35: line 13 fails before any file is read: without an argument
    [sys.argv[1]] raises [IndexError], and an argument holding a character
    that is neither a digit, whitespace, a sign nor an underscore (a year
    written [2019.0], for instance) makes [int()] raise [ValueError],
    whatever the files hold. *)
Theorem transport_main_bad_argument `{EMDSolver} read_csv argv :
  ((length argv <= 1)%nat -> transport_main read_csv argv = Err IndexError) /\
  (forall arg, argv !! 1%nat = Some arg -> all_allowed arg = false ->
     exists msg, transport_main read_csv argv = Err (ValueError msg)).
Proof.
  unfold transport_main, argv_get. split.
  - intros Hl. by rewrite lookup_ge_None_2 by lia.
  - intros arg -> Ha. simpl. destruct (py_int arg) as [z|e] eqn:E.
    + apply py_int_allowed in E. congruence.
    + apply py_int_error in E as ->. by eexists.
Qed.

(** The scraper reads its output path only after the scrape (line 61):
    run without an argument, a scrape that fetches every month end ends in
    [IndexError] and the tables fetched are lost; with a path, it yields
    the path and the tables. *)
Theorem scrape_main_argv fuel today (net : Date -> nat -> Wayback)
    (first : Date -> list (list (string * json))) prog :
  month_ends today <> [] ->
  (forall d, d ∈ month_ends today -> exists k, (k < fuel)%nat /\ @attempt (net d k) d = Ok (first d) /\
     forall i, (i < k)%nat -> exists e, @attempt (net d i) d = Err e) ->
  scrape_main fuel today net [prog] = Some (Err IndexError) /\
  forall path rest, scrape_main fuel today net (prog :: path :: rest) =
    Some (Ok (path, concat (map (fun d => map (fun r => (r, d.1.1, d.1.2)) (first d)) (month_ends today)))).
Proof.
  intros Hne Hd. unfold scrape_main. rewrite (scrape_wayback_first_success _ _ _ first Hne Hd).
  split; [done | by intros].
Qed.

(** ** Witnesses *)

Definition newline : string := String (Ascii.ascii_of_nat 10) EmptyString.

Lemma transport_main_year_witness :
  transport_main (H := indep_solver) ToyCell.run_read_csv ["transport.py"; " " +:+ pretty 1995 +:+ newline] =
    (let* matches := run (H := indep_solver) ToyCell.run_read_csv 1995 in Ok (match_file 1995, matches)).
Proof. apply (transport_main_year _ _ " " newline []); reflexivity. Defined.

Lemma transport_main_bad_argument_witness :
  (transport_main (H := indep_solver) ToyCell.run_read_csv ["transport.py"] = Err IndexError) /\
  exists msg, transport_main (H := indep_solver) ToyCell.run_read_csv ["transport.py"; "2019.0"] =
    Err (ValueError msg).
Proof.
  split.
  - apply (proj1 (transport_main_bad_argument ToyCell.run_read_csv ["transport.py"])). simpl. lia.
  - apply (proj2 (transport_main_bad_argument ToyCell.run_read_csv ["transport.py"; "2019.0"]) "2019.0");
      reflexivity.
Defined.

Lemma scrape_main_argv_witness :
  scrape_main 3 (2020, 3, 15) (fun _ _ => ForbesSample.snapshot) ["01-scrape-forbes.py"] = Some (Err IndexError).
Proof.
  apply (scrape_main_argv _ _ _ (fun _ => ForbesSample.rows)).
  - vm_compute. discriminate.
  - intros [[y m] x] _. exists 0%nat. split_and!; [lia | vm_compute; reflexivity | intros; lia].
Defined.
