(* ===== verification/Csv.v ===== *)
(** * Csv: the files transport.py reads and writes

    [pd.read_csv(file)] (lines 54-57) and [matches.to_csv(file,
    index=False)] (line 184), on files without quoting: a header line of
    column names, then one line per row, fields separated by commas, each
    line ended by a newline.

    - [to_csv] writes a [Table]: the header, then each row, a cell written
      as [str] writes it ([pretty] for an integer, the float's [repr] for
      a float, nothing for [NaN]).
    - [pd_read_csv] splits the text into lines (blank lines are skipped,
      pandas' [skip_blank_lines]) and fields, raises [ValueError] (pandas'
      [EmptyDataError]) on an empty file.  As the C tokenizer does, it
      takes the width of the rows from the header and the first data
      line, raises [ParserError] (a [ValueError]) on a later line with
      more fields, pads shorter lines with [NaN], and makes the extra
      leading fields of a first data line wider than the header the
      index.  It reads pandas' default NA strings as [NaN], infers each
      column's dtype in the parser's order ([int64] when every field is
      an integer, [float64] when every field is a number or NA, [bool]
      when every field is a boolean word, [object] otherwise) and
      converts the fields.
    - Python's [repr] of a float and pandas' float parser are a class
      [FloatText] whose law says that parsing a repr gives the number back
      and that a repr never reads as an integer or as NA; the model's
      numbers are rationals, so the class stands for the float64
      formatting.
    - [matches_table] is the table [matches] written at line 184: the
      columns [dina_id], [cps_id], [scf_id] (with SCF) and [weight].

    Theorems: [read_csv_to_csv] (what [to_csv] writes, [pd_read_csv]
    reads back), [transport_output_roundtrip] (the file of matches),
    and [pd_read_csv_errors] (the error paths and the implicit index).
    [RatioText] is a formatting of numbers that meets [FloatTextSpec],
    for the witnesses.

    Quoted fields, duplicate or empty column names (which pandas
    renames), fields with surrounding spaces, integers beyond 64 bits
    (pandas tries [uint64], then [float64]) and dtypes other than the
    four above are not modelled. *)

From S2P Require Import Prelude Config Frame Groupby Cost Transport Extract Chain Scrape Cli.
From stdpp Require Import pretty gmap.
From Stdlib Require Import Ascii.
Local Open Scope Z_scope.

Definition nl : ascii := Ascii.ascii_of_nat 10.
Definition comma : ascii := ",".

(** [s.split(sep)]. *)
Fixpoint split_on (sep : ascii) (s : string) : list string :=
  match s with
  | EmptyString => [EmptyString]
  | String c s' =>
      if Ascii.eqb c sep then EmptyString :: split_on sep s'
      else match split_on sep s' with
           | f :: fs => String c f :: fs
           | [] => [String c EmptyString]
           end
  end.

(** [sep.join(fs)]. *)
Fixpoint join (sep : ascii) (fs : list string) : string :=
  match fs with
  | [] => EmptyString
  | [f] => f
  | f :: fs' => f +:+ String sep (join sep fs')
  end.

(** A value of a data frame column. *)
Inductive cell := CInt (z : Z) | CFloat (q : Q) | CBool (b : bool) | CStr (s : string) | CNaN.

(** A data frame as text files hold it: the column names, the cells of
    each row, and the index: [None] for the default [RangeIndex], or the
    index fields of each row. *)
Record Table := mkTable { header : list string; body : list (list cell); index : option (list (list cell)) }.

(** Python's [repr] of a float and pandas' parser of a float field. *)
Class FloatText := {
  float_repr : Q -> string;
  float_parse : string -> option Q
}.

(** An integer field of the C parser: an optional sign and digits. *)
Definition unsigned_field (u : string) : option Z :=
  if bool_decide (u <> "") && all_digits u then Some (fold_digits u 0) else None.

Definition int_field (s : string) : option Z :=
  match s with
  | String c u =>
      if Ascii.eqb c "-" then option_map Z.opp (unsigned_field u)
      else if Ascii.eqb c "+" then unsigned_field u
      else unsigned_field s
  | EmptyString => None
  end.

Definition has_value {A} (o : option A) : bool := match o with Some _ => true | None => false end.

(** pandas' default [na_values] ([STR_NA_VALUES]): the fields read as NaN. *)
Definition na_values : list string :=
  [""; "#N/A"; "#N/A N/A"; "#NA"; "-1.#IND"; "-1.#QNAN"; "-NaN"; "-nan"; "1.#IND"; "1.#QNAN";
   "<NA>"; "N/A"; "NA"; "NULL"; "NaN"; "None"; "n/a"; "nan"; "null"].

Definition is_na (f : string) : bool := bool_decide (f ∈ na_values).

(** The default [true_values] and [false_values] of the C parser. *)
Definition true_words : list string := ["True"; "TRUE"; "true"].
Definition false_words : list string := ["False"; "FALSE"; "false"].

Definition is_bool_word (f : string) : bool := bool_decide (f ∈ true_words ++ false_words).

Section Text.
Context `{FloatText}.

(** [str] of a cell, as [to_csv] writes it. *)
Definition cell_text (c : cell) : string :=
  match c with
  | CInt z => pretty z
  | CFloat q => float_repr q
  | CBool b => if b then "True" else "False"
  | CStr s => s
  | CNaN => EmptyString
  end.

Definition csv_line (fs : list string) : string := join comma fs +:+ String nl EmptyString.

(** The lines one after the other. *)
Fixpoint cat (ls : list string) : string :=
  match ls with [] => EmptyString | l :: ls' => l +:+ cat ls' end.

(** [df.to_csv(path, index=False)]. *)
Definition to_csv (t : Table) : string :=
  cat (map csv_line (header t :: map (map cell_text) (body t))).

Inductive dtype := DInt | DFloat | DBool | DObject.

Definition is_number (f : string) : bool := has_value (int_field f) || has_value (float_parse f).

(** pandas' dtype inference on the fields of a column, in the C parser's
    order: [int64] when every field is an integer, else [float64] when
    every field is a number or NaN, else [bool] when every field is a
    boolean word, else [object]. *)
Definition column_dtype (fs : list string) : dtype :=
  if forallb (fun f => has_value (int_field f)) fs then DInt
  else if forallb (fun f => is_na f || is_number f) fs then DFloat
  else if forallb is_bool_word fs then DBool
  else DObject.

Definition convert (k : dtype) (f : string) : cell :=
  match k with
  | DInt => match int_field f with Some z => CInt z | None => CNaN end
  | DFloat =>
      if is_na f then CNaN
      else match int_field f with
           | Some z => CFloat (inject_Z z)
           | None => match float_parse f with Some q => CFloat q | None => CNaN end
           end
  | DBool => CBool (bool_decide (f ∈ true_words))
  | DObject => if is_na f then CNaN else CStr f
  end.

(** The non-blank lines of the text. *)
Definition csv_lines (s : string) : list string :=
  List.filter (fun l => negb (bool_decide (l = ""))) (split_on nl s).

(** The width of the rows: the header's, or the first data line's when it
    is wider. *)
Definition row_width (n : nat) (rws : list (list string)) : nat :=
  match rws with [] => n | r :: _ => Nat.max n (length r) end.

(** [pd.read_csv] with the C parser.  The tokenizer does not check the
    header line and the first data line; the first data line sets the
    width of the rows (the header's, if it is wider), a later line with
    more fields raises [ParserError] ("Error tokenizing data. C error:
    Expected n fields ..."), a shorter one is padded with NaN.  When the
    first data line is wider than the header, its extra leading fields
    are an implicit index ([index_col=None]). *)
Definition pd_read_csv (s : string) : result Table :=
  match csv_lines s with
  | [] => Err (ValueError "No columns to parse from file")
  | h :: ls =>
      let hdr := split_on comma h in
      let rws := map (split_on comma) ls in
      let width := row_width (length hdr) rws in
      if existsb (fun r => width <? length r)%nat rws then Err (ValueError "Error tokenizing data")
      else
        let padded := map (fun r => r ++ replicate (width - length r) EmptyString) rws in
        let dts := map (fun j => column_dtype (map (fun r => nth j r EmptyString) padded)) (seq 0 width) in
        let cells := map (fun r => zip_with convert dts r) padded in
        let k := (width - length hdr)%nat in
        Ok (mkTable hdr (map (drop k) cells) (if bool_decide (k = 0%nat) then None else Some (map (take k) cells)))
  end.

End Text.

(** The table [matches] of line 184. *)
Definition matches_table (with_scf : bool) (es : list Entry) : Table :=
  mkTable (if with_scf then ["dina_id"; "cps_id"; "scf_id"; "weight"] else ["dina_id"; "cps_id"; "weight"])
    (map (fun e => [CInt (e_dina e); CInt (e_cps e)] ++
        (if with_scf then [match e_scf e with Some s => CInt s | None => CNaN end] else []) ++
        [CFloat (e_weight e)]) es) None.

(** ** Splitting what is joined *)

(** [s] has no character [c]. *)
Fixpoint free_of (c : ascii) (s : string) : bool :=
  match s with EmptyString => true | String c' s' => negb (Ascii.eqb c' c) && free_of c s' end.

(** What the formatting of floats promises: parsing a repr gives the
    number back, a repr is a nonempty field without separators, and it
    never reads as an integer (Python's [repr] always writes a [.], an
    exponent or [inf]) nor as NaN (the numbers of the model are rationals,
    never [nan]). *)
Class FloatTextSpec `{FloatText} := {
  float_parse_repr : forall q, float_parse (float_repr q) = Some q;
  float_repr_nonempty : forall q, float_repr q <> "";
  float_repr_free : forall q, free_of comma (float_repr q) = true /\ free_of nl (float_repr q) = true;
  float_repr_not_int : forall q, int_field (float_repr q) = None;
  float_repr_not_na : forall q, is_na (float_repr q) = false
}.

Lemma split_on_free sep f : free_of sep f = true -> split_on sep f = [f].
Proof.
  induction f as [|c f IH]; simpl; [done|]. intros [Hc Hf]%andb_prop.
  apply negb_true_iff in Hc. by rewrite Hc, IH.
Qed.

Lemma split_on_app sep f r :
  free_of sep f = true -> split_on sep (f +:+ String sep r) = f :: split_on sep r.
Proof.
  induction f as [|c f IH]; simpl; [by rewrite Ascii.eqb_refl|]. intros [Hc Hf]%andb_prop.
  apply negb_true_iff in Hc. by rewrite Hc, IH.
Qed.

Lemma split_join sep fs : fs <> [] -> Forall (fun f => free_of sep f = true) fs -> split_on sep (join sep fs) = fs.
Proof.
  induction fs as [|f [|f' fs] IH]; intros Hne Hf; [done| |].
  - apply Forall_cons in Hf as [Hf _]. by apply split_on_free.
  - apply Forall_cons in Hf as [Hf Hfs]. change (join sep (f :: f' :: fs)) with (f +:+ String sep (join sep (f' :: fs))).
    rewrite split_on_app, IH; done.
Qed.

Lemma free_of_app c s1 s2 : free_of c (s1 +:+ s2) = free_of c s1 && free_of c s2.
Proof. induction s1 as [|c' s1 IH]; simpl; [done|]. by rewrite IH, andb_assoc. Qed.

Lemma free_of_join c sep fs :
  Ascii.eqb sep c = false -> Forall (fun f => free_of c f = true) fs -> free_of c (join sep fs) = true.
Proof.
  intros Hs. induction 1 as [|f fs Hf Hfs IH]; [done|]. destruct fs as [|f' fs]; [done|].
  change (join sep (f :: f' :: fs)) with (f +:+ String sep (join sep (f' :: fs))).
  rewrite free_of_app, Hf. cbn [free_of andb]. by rewrite Hs, IH.
Qed.

(** Lines without newlines, each ended by one, split back into the lines
    and a last empty piece. *)
Lemma split_cat_lines ls :
  Forall (fun l => free_of nl l = true) ls -> split_on nl (cat (map (fun l => l +:+ String nl "") ls)) = ls ++ [""].
Proof.
  induction 1 as [|l ls Hl _ IH]; [done|]. cbn [map cat]. rewrite <- string_app_assoc.
  change (String nl "" +:+ ?x) with (String nl x). rewrite split_on_app by done. by rewrite IH.
Qed.

(** ** Integers and floats read back *)

Lemma all_digits_free c u : is_digit c = false -> all_digits u = true -> free_of c u = true.
Proof.
  intros Hc. induction u as [|c' u IH]; simpl; [done|]. intros [Hd Hu]%andb_prop.
  rewrite IH by done. destruct (Ascii.eqb_spec c' c); [subst; congruence | done].
Qed.

Lemma pretty_free c (z : Z) : is_digit c = false -> Ascii.eqb "-" c = false -> free_of c (pretty z) = true.
Proof.
  intros Hc Hm. destruct (pretty_Z_form z) as (u & Hd & _ & _ & ->).
  rewrite free_of_app, (all_digits_free c u) by done. destruct (z <? 0); cbn [free_of andb negb];
    [by rewrite Hm | done].
Qed.

(** The C parser reads back the integers [str] prints. *)
Lemma int_field_pretty (z : Z) : int_field (pretty z) = Some z.
Proof.
  destruct (pretty_Z_form z) as ([|c u] & Hd & Hne & Hf & ->); [done|].
  pose proof Hd as Hd'. simpl in Hd'. apply andb_prop in Hd' as [Hc _].
  destruct (digit_not_sign c Hc) as [Hm Hp]. destruct (Z.ltb_spec z 0).
  - change ("-" +:+ String c u) with (String "-" (String c u)). cbn [int_field].
    rewrite Ascii.eqb_refl. unfold unsigned_field. rewrite Hd, bool_decide_true by done.
    rewrite Hf. simpl. f_equal. lia.
  - change ("" +:+ String c u) with (String c u). cbn [int_field]. rewrite Hm, Hp.
    unfold unsigned_field. rewrite Hd, bool_decide_true by done. rewrite Hf. simpl. f_equal. lia.
Qed.

(** A column of integers or a column of floats: the cells [matches]
    holds. *)
Definition cell_has (k : dtype) (c : cell) : Prop :=
  match k, c with DInt, CInt _ => True | DFloat, CFloat _ => True | _, _ => False end.

Section Roundtrip.
Context `{FT : FloatText} `{FS : !FloatTextSpec}.

Lemma cell_text_free c k : cell_has k c -> free_of comma (cell_text c) = true /\ free_of nl (cell_text c) = true.
Proof.
  destruct k, c; simpl; try done; intros _; [split; apply pretty_free; reflexivity | apply float_repr_free].
Qed.

Lemma convert_cell_text k c : cell_has k c -> convert k (cell_text c) = c.
Proof.
  destruct k, c as [z|q| | |]; simpl; try done; intros _.
  - by rewrite int_field_pretty.
  - by rewrite float_repr_not_na, float_repr_not_int, float_parse_repr.
Qed.

(** pandas infers the dtype of a nonempty typed column. *)
Lemma column_dtype_typed k cs : cs <> [] -> Forall (cell_has k) cs -> column_dtype (map cell_text cs) = k.
Proof.
  intros Hne Hk. unfold column_dtype. destruct k.
  - rewrite (proj2 (forallb_forall _ _)); [done|]. intros f (c & <- & Hc)%in_map_iff.
    apply list_elem_of_In in Hc. destruct c; [|by destruct (proj1 (Forall_forall _ _) Hk _ Hc)..].
    cbn [cell_text]. by rewrite int_field_pretty.
  - destruct cs as [|c cs]; [done|]. apply Forall_cons in Hk as [Hc Hk].
    destruct c as [|q| | |]; try done. cbn [map forallb cell_text]. rewrite float_repr_not_int.
    cbn [has_value andb]. unfold is_number at 1. rewrite float_parse_repr. cbn [has_value orb].
    rewrite !orb_true_r. cbn [andb].
    rewrite (proj2 (forallb_forall _ _)); [done|]. intros f (c & <- & Hc')%in_map_iff.
    apply list_elem_of_In in Hc'. destruct c; [by destruct (proj1 (Forall_forall _ _) Hk _ Hc')| |
      by destruct (proj1 (Forall_forall _ _) Hk _ Hc')..].
    cbn [cell_text]. unfold is_number. by rewrite float_parse_repr, !orb_true_r.
  - destruct cs as [|c cs]; [done|]. apply Forall_cons in Hk as [[] _].
  - destruct cs as [|c cs]; [done|]. apply Forall_cons in Hk as [[] _].
Qed.

Lemma zip_convert dts row : Forall2 cell_has dts row -> zip_with convert dts (map cell_text row) = row.
Proof. induction 1 as [|k c dts row Hc _ IH]; [done|]. simpl. by rewrite convert_cell_text, IH. Qed.

Lemma filter_nonblank ls :
  Forall (fun l => l <> "") ls -> List.filter (fun l => negb (bool_decide (l = ""))) (ls ++ [""]) = ls.
Proof.
  induction 1 as [|l ls Hl _ IH]; [reflexivity|]. simpl. rewrite bool_decide_false by done. simpl. by rewrite IH.
Qed.

Lemma join_nonempty sep fs : (2 <= length fs)%nat -> join sep fs <> "".
Proof. destruct fs as [|[|c f] [|f' fs]]; simpl; try lia; discriminate. Qed.

Lemma map_nth_seq {A} (l : list A) d : map (fun j => nth j l d) (seq 0 (length l)) = l.
Proof.
  induction l as [|x l IH]; [done|]. simpl. f_equal. rewrite <- seq_shift, map_map. exact IH.
Qed.

Lemma Forall2_nth {A B} (P : A -> B -> Prop) l1 l2 j d1 d2 :
  Forall2 P l1 l2 -> (j < length l1)%nat -> P (nth j l1 d1) (nth j l2 d2).
Proof.
  intros HP. revert j; induction HP as [|x y l1 l2 Hxy _ IH]; intros [|j] Hj; simpl in *; try lia; [done|].
  apply IH. lia.
Qed.

(** The lines of the text [to_csv] writes. *)
Lemma csv_lines_to_csv ls :
  Forall (fun fs => (2 <= length fs)%nat /\ Forall (fun f => free_of nl f = true) fs) ls ->
  csv_lines (cat (map csv_line ls)) = map (join comma) ls.
Proof.
  intros Hls. replace (map csv_line ls) with (map (fun l => l +:+ String nl "") (map (join comma) ls))
    by (rewrite map_map; reflexivity).
  unfold csv_lines. rewrite split_cat_lines, filter_nonblank; [done| |];
    apply Forall_map, (Forall_impl _ _ _ Hls); intros fs [Hl Hf].
  - by apply join_nonempty.
  - by apply free_of_join.
Qed.

(** The dtypes pandas infers on the text of a typed table. *)
Lemma column_dtypes_typed dts bd :
  bd <> [] -> Forall (Forall2 cell_has dts) bd ->
  map (fun j => column_dtype (map (fun r => nth j r "") (map (map cell_text) bd))) (seq 0 (length dts)) = dts.
Proof.
  intros Hne Hb. rewrite <- (map_nth_seq dts DObject) at 2. apply map_ext_in.
  intros j Hj%in_seq. rewrite map_map.
  replace (map (fun r => nth j (map cell_text r) "") bd) with (map cell_text (map (fun r => nth j r CNaN) bd))
    by (rewrite map_map; apply map_ext; intros r; symmetry; exact (map_nth cell_text r CNaN j)).
  apply column_dtype_typed; [by destruct bd|]. apply Forall_map, (Forall_impl _ _ _ Hb).
  intros r Hr. apply (Forall2_nth _ _ _ _ _ _ Hr). lia.
Qed.

Lemma width_uniform n rws : Forall (fun r => length r = n) rws -> row_width n rws = n.
Proof. destruct 1; simpl; lia. Qed.

Lemma map_drop_0 {A} (l : list (list A)) : map (drop 0) l = l.
Proof. induction l; simpl; by f_equal. Qed.

(** [pd.read_csv] reads back what [to_csv] writes of a table with the
    default index whose columns each hold integers or floats, under a
    header of at least two names without separators. *)
Lemma read_csv_to_csv t dts :
  (2 <= length (header t))%nat ->
  Forall (fun h => free_of comma h = true /\ free_of nl h = true) (header t) ->
  length dts = length (header t) -> Forall (Forall2 cell_has dts) (body t) -> index t = None ->
  pd_read_csv (to_csv t) = Ok t.
Proof.
  destruct t as [hdr bd idx]; simpl. intros Hlen Hh Hd Hb ->.
  assert (Forall (fun row => (2 <= length (map cell_text row))%nat /\
     Forall (fun f => free_of comma f = true /\ free_of nl f = true) (map cell_text row)) bd) as Hrows.
  { apply (Forall_impl _ _ _ Hb). intros row Hr. rewrite length_map, <- (Forall2_length _ _ _ Hr). split; [lia|].
    apply Forall_map, (Forall2_Forall_snd _ _ _ _ Hr). intros k c. apply cell_text_free. }
  unfold pd_read_csv, to_csv. rewrite csv_lines_to_csv.
  2:{ constructor; [split; [done | by apply (Forall_impl _ _ _ Hh); intros ? []]|].
      apply Forall_map, (Forall_impl _ _ _ Hrows). intros row [Hl Hf]. split; [done|].
      by apply (Forall_impl _ _ _ Hf); intros ? []. }
  cbn [map header body]. cbv zeta.
  rewrite split_join; [| intros ->; simpl in Hlen; lia | by apply (Forall_impl _ _ _ Hh); intros ? []].
  replace (map (split_on comma) (map (join comma) (map (map (@cell_text FT)) bd)))
    with (map (map (@cell_text FT)) bd).
  2:{ rewrite map_map, map_map. symmetry. apply map_ext_Forall, (Forall_impl _ _ _ Hrows).
      intros row [Hl Hf]. apply split_join.
      - intros Hn. rewrite Hn in Hl. simpl in Hl. lia.
      - by apply (Forall_impl _ _ _ Hf); intros ? []. }
  assert (Forall (fun r => length r = length hdr) (map (map cell_text) bd)) as Hl.
  { apply Forall_map, (Forall_impl _ _ _ Hb). intros r Hr. by rewrite length_map, <- (Forall2_length _ _ _ Hr). }
  rewrite (width_uniform _ _ Hl).
  match goal with |- context [existsb ?p ?l] => replace (existsb p l) with false end.
  2:{ symmetry. apply Bool.not_true_iff_false. intros (r & Hr & Hlt)%existsb_exists. apply list_elem_of_In in Hr.
      rewrite (proj1 (Forall_forall _ _) Hl _ Hr), Nat.ltb_irrefl in Hlt. discriminate. }
  replace (map (fun r => r ++ replicate (length hdr - length r) "") (map (map cell_text) bd))
    with (map (map cell_text) bd).
  2:{ rewrite <- (map_id (map (map (@cell_text FT)) bd)) at 1. apply map_ext_Forall, (Forall_impl _ _ _ Hl).
      intros r Hr. rewrite Hr, Nat.sub_diag. simpl. by rewrite app_nil_r. }
  rewrite Nat.sub_diag, bool_decide_true, map_drop_0 by done.
  destruct (decide (bd = [])) as [->|Hne]; [done|].
  rewrite <- Hd, column_dtypes_typed by done. rewrite map_map. f_equal. f_equal.
  rewrite <- (map_id bd) at 2. apply map_ext_Forall, (Forall_impl _ _ _ Hb). intros r Hr. by apply zip_convert.
Qed.

End Roundtrip.

(** ** The file transport.py writes *)

Section Output.
Context `{EMDSolver} `{FT : FloatText}.

(** Lines 183-184: the run, then [matches.to_csv(f'match/match-{year}.csv',
    index=False)]; the [scf_id] column is there when the year has an SCF
    file. *)
Definition transport_output (read_csv : string -> Frame) (year : Z) : result (string * string) :=
  let* matches := run read_csv year in
  Ok (match_file year, to_csv (matches_table (has_value (scf_file year)) matches)).

End Output.

Lemma matches_table_typed b es :
  (forall e, e ∈ es -> is_Some (e_scf e) <-> b = true) ->
  Forall (Forall2 cell_has ([DInt; DInt] ++ (if b then [DInt] else []) ++ [DFloat])) (body (matches_table b es)).
Proof.
  intros Hscf. apply Forall_map, Forall_forall. intros e He.
  repeat constructor. destruct b; repeat constructor.
  destruct (e_scf e) eqn:E; [done|]. destruct (proj2 (Hscf e He) eq_refl). congruence.
Qed.

(** The match file read back by [pd.read_csv] is the table written. *)
Lemma matches_roundtrip `{FloatTextSpec} b es :
  (forall e, e ∈ es -> is_Some (e_scf e) <-> b = true) ->
  pd_read_csv (to_csv (matches_table b es)) = Ok (matches_table b es).
Proof.
  intros Hscf. apply (read_csv_to_csv _ ([DInt; DInt] ++ (if b then [DInt] else []) ++ [DFloat]));
    [destruct b; simpl; lia | destruct b; repeat constructor | destruct b; reflexivity
    | by apply matches_table_typed | done].
Qed.

Lemma scf_column_iff (n : option string) (f : string -> Frame) :
  is_Some (option_map f n) <-> has_value n = true.
Proof. destruct n; simpl; split; try done; by intros [? ?]. Qed.

Section OutputProofs.
Context `{Hspec : EMDSolverSpec} `{FS : FloatTextSpec}.
Hypothesis emd_optimal : forall a b M it, snd (emd_solve a b M it) = OPTIMAL.

(** C3: On input files that fit the program ([run_inputs_ok]), the run
    writes [match/match-<year>.csv] with the columns [dina_id], [cps_id],
    [scf_id] exactly when the year has an SCF file, and [weight]; read back
    by [pd.read_csv] the file gives exactly the table written, integers in
    the id columns and floats in the weight column, whose weights add up to
    the total DINA weight. *)
Theorem transport_output_roundtrip read_csv year dg :
  run_inputs_ok read_csv year dg ->
  exists es,
    transport_output read_csv year = Ok (match_file year, to_csv (matches_table (has_value (scf_file year)) es)) /\
    pd_read_csv (to_csv (matches_table (has_value (scf_file year)) es)) =
      Ok (matches_table (has_value (scf_file year)) es) /\
    qsum (map e_weight es) == qsum (weights (read_csv (dina_file year))).
Proof.
  intros Hin. destruct (run_ok emd_optimal read_csv year dg Hin) as (es & Hrun & Hfrom & Hsum).
  exists es. unfold transport_output. rewrite Hrun. split_and!; [done | | done].
  apply matches_roundtrip. intros e He.
  rewrite (entry_from_scf _ _ _ e (proj1 (Forall_forall _ _) Hfrom e He)). apply scf_column_iff.
Qed.

End OutputProofs.

(** ** The error paths of the reader *)

Lemma convert_rows_length `{FloatText} w (dts : list dtype) (rws : list (list string)) :
  length dts = w -> Forall (fun x => length x <= w)%nat rws ->
  Forall (fun c => length c = w)
    (map (fun r => zip_with convert dts r) (map (fun r => r ++ replicate (w - length r) "") rws)).
Proof.
  intros Hd Hr. rewrite map_map. apply Forall_map, (Forall_impl _ _ _ Hr). intros x Hx.
  rewrite length_zip_with, length_app, length_replicate. lia.
Qed.

(** C27: [pd.read_csv] raises [ValueError] on a file without any non-blank
    line (pandas' [EmptyDataError]) and, with [ParserError] "Error
    tokenizing data", on a line after the first data line that has more
    fields than the header and the first data line; a first data line
    wider than the header is not an error: its extra leading fields
    become the index, and every row keeps as many cells as the header
    has names. *)
Theorem pd_read_csv_errors `{FloatText} s :
  (csv_lines s = [] -> pd_read_csv s = Err (ValueError "No columns to parse from file")) /\
  (forall h r ls l, csv_lines s = h :: r :: ls -> l ∈ ls ->
     (Nat.max (length (split_on comma h)) (length (split_on comma r)) < length (split_on comma l))%nat ->
     pd_read_csv s = Err (ValueError "Error tokenizing data")) /\
  (forall h r ls, csv_lines s = h :: r :: ls ->
     (length (split_on comma h) < length (split_on comma r))%nat ->
     Forall (fun l => length (split_on comma l) <= length (split_on comma r))%nat ls ->
     exists t, pd_read_csv s = Ok t /\ header t = split_on comma h /\
       (exists idx, index t = Some idx /\
          Forall (fun x => length x = length (split_on comma r) - length (split_on comma h))%nat idx) /\
       Forall (fun row => length row = length (split_on comma h)) (body t)).
Proof.
  unfold pd_read_csv. split_and!; [by intros -> | |].
  - intros h r ls l -> Hl Hlt. cbv zeta. rewrite map_cons. cbn [row_width].
    replace (existsb _ _) with true; [done|]. symmetry. apply existsb_exists. exists (split_on comma l).
    split; [right; apply in_map, list_elem_of_In, Hl | by apply Nat.ltb_lt].
  - intros h r ls -> Hlt Hls. cbv zeta. rewrite map_cons. cbn [row_width].
    replace (Nat.max _ _) with (length (split_on comma r)) by lia.
    replace (existsb _ _) with false.
    2:{ symmetry. apply Bool.not_true_iff_false. intros (x & Hx & Hx')%existsb_exists. apply Nat.ltb_lt in Hx'.
        destruct Hx as [<- | (l & <- & Hl)%in_map_iff]; [lia|].
        apply list_elem_of_In in Hl. rewrite Forall_forall in Hls. specialize (Hls l Hl). lia. }
    rewrite bool_decide_false by lia. eexists. split; [reflexivity|]. cbn [header index body].
    match goal with |- context [map (fun r => zip_with convert ?dts r) ?pd] =>
      assert (Forall (fun c => length c = length (split_on comma r)) (map (fun r => zip_with convert dts r) pd))
        as Hc end.
    { apply convert_rows_length; [by rewrite length_map, length_seq|]. constructor; [done|].
      rewrite Forall_map. exact Hls. }
    split; [done|]. split.
    + eexists. split; [reflexivity|]. apply Forall_map, (Forall_impl _ _ _ Hc). intros x Hx.
      rewrite length_take. lia.
    + apply Forall_map, (Forall_impl _ _ _ Hc). intros x Hx. rewrite length_drop. lia.
Qed.

(** ** A formatting of numbers that meets [FloatTextSpec]

    [ratio_text] writes a rational as [<num>/<den>]: it keeps the fields
    free of separators and never reads as an integer, which is all the
    round trip asks of Python's float [repr].  It lets the theorems above
    be run on concrete files. *)
Module RatioText.

Definition slash : ascii := "/".

#[export] Instance ratio_text : FloatText := {
  float_repr q := pretty (Qnum q) +:+ String slash (pretty (Zpos (Qden q)));
  float_parse s :=
    match split_on slash s with
    | [a; b] => match int_field a, int_field b with Some n, Some (Zpos d) => Some (n # d) | _, _ => None end
    | _ => None
    end
}.

(** An integer field holds nothing but digits after its sign. *)
Lemma int_field_free c s :
  is_digit c = false -> Ascii.eqb "-" c = false -> Ascii.eqb "+" c = false ->
  has_value (int_field s) = true -> free_of c s = true.
Proof.
  intros Hc Hm Hp. unfold int_field, unsigned_field.
  destruct s as [|c' u]; [done|].
  assert (forall v, has_value (if bool_decide (v <> "") && all_digits v then Some (fold_digits v 0) else None) = true ->
    all_digits v = true) as Hall by (intros v; by destruct (_ && all_digits v) eqn:E; [apply andb_prop in E as [_ ?]|]).
  destruct (Ascii.eqb_spec c' "-") as [->|_]; [|destruct (Ascii.eqb_spec c' "+") as [->|_]].
  - intros Hv. cbn [free_of]. rewrite Hm. apply all_digits_free; [done|].
    apply Hall. by destruct (_ && _).
  - intros Hv. cbn [free_of]. rewrite Hp. by apply all_digits_free, Hall.
  - intros Hv. by apply all_digits_free, Hall.
Qed.

Lemma pretty_free_sep c (z : Z) :
  c ∈ [comma; nl; slash] -> free_of c (pretty z) = true.
Proof. intros Hc. apply pretty_free; repeat (apply elem_of_cons in Hc as [->|Hc]; [done|]); set_solver. Qed.

Lemma ratio_split (n : Z) (d : positive) :
  split_on slash (pretty n +:+ String slash (pretty (Z.pos d))) = [pretty n; pretty (Z.pos d)].
Proof. by rewrite split_on_app, split_on_free by (apply pretty_free_sep; set_solver). Qed.

(** An NA string split at its slashes is not two integers. *)
Local Ltac na_absurd Hna Hs :=
  rewrite Hna in Hs;
  match type of Hs with split_on slash ?v = _ =>
    let r := eval vm_compute in (split_on slash v) in change (split_on slash v) with r in Hs end;
  first [discriminate Hs | injection Hs; intros _ Hd; apply (f_equal int_field) in Hd;
         rewrite int_field_pretty in Hd; vm_compute in Hd; discriminate Hd].

Lemma ratio_not_na (n : Z) (d : positive) : is_na (pretty n +:+ String slash (pretty (Z.pos d))) = false.
Proof.
  apply bool_decide_eq_false. intros Hna. pose proof (ratio_split n d) as Hs.
  repeat (apply elem_of_cons in Hna as [Hna|Hna]; [na_absurd Hna Hs|]).
  by apply not_elem_of_nil in Hna.
Qed.

#[export] Instance ratio_text_spec : FloatTextSpec.
Proof.
  split; intros [n d]; cbn [float_repr float_parse ratio_text Qnum Qden].
  - by rewrite ratio_split, !int_field_pretty.
  - by destruct (pretty n).
  - rewrite !free_of_app. cbn [free_of]. by rewrite !pretty_free_sep by set_solver.
  - destruct (int_field _) eqn:E; [exfalso|done].
    assert (free_of slash (pretty n +:+ String slash (pretty (Z.pos d))) = true) as Hf
      by (apply int_field_free; [done..| by rewrite E]).
    rewrite free_of_app in Hf. cbn [free_of] in Hf. rewrite Ascii.eqb_refl in Hf.
    by rewrite andb_false_r in Hf.
  - apply ratio_not_na.
Qed.

End RatioText.

(** ** Concrete runs *)

Import RatioText.

Lemma transport_output_roundtrip_witness :
  exists es : list Entry,
    transport_output (H := indep_solver) ToyCell.run_read_csv 1995 =
      Ok (match_file 1995, to_csv (matches_table (has_value (scf_file 1995)) es)) /\
    pd_read_csv (to_csv (matches_table (has_value (scf_file 1995)) es)) =
      Ok (matches_table (has_value (scf_file 1995)) es) /\
    qsum (map e_weight es) == qsum (weights (ToyCell.run_read_csv (dina_file 1995))).
Proof.
  exact (@transport_output_roundtrip indep_solver _ ratio_text _ (fun _ _ _ _ => eq_refl)
           ToyCell.run_read_csv 1995 _ run_inputs_ok_toy).
Defined.

(** A header of two names, a first line of two fields and a line of
    three. *)
Definition ragged_file : string := "a,b" +:+ String nl ("1,2" +:+ String nl ("1,2,3" +:+ String nl "")).

(** A header of two names and a first line of three fields. *)
Definition indexed_file : string := "a,b" +:+ String nl ("1,2,3" +:+ String nl ("4,5" +:+ String nl "")).

Lemma pd_read_csv_errors_witness :
  pd_read_csv ragged_file = Err (ValueError "Error tokenizing data") /\
  exists t, pd_read_csv indexed_file = Ok t /\ header t = split_on comma "a,b" /\
    (exists idx, index t = Some idx /\
       Forall (fun x => length x = length (split_on comma "1,2,3") - length (split_on comma "a,b"))%nat idx) /\
    Forall (fun row => length row = length (split_on comma "a,b")) (body t).
Proof.
  split.
  - apply (proj1 (proj2 (pd_read_csv_errors ragged_file)) "a,b" "1,2" ["1,2,3"] "1,2,3");
      [vm_compute; reflexivity | by left | vm_compute; lia].
  - apply (proj2 (proj2 (pd_read_csv_errors indexed_file)) "a,b" "1,2,3" ["4,5"]);
      [vm_compute; reflexivity | vm_compute; lia | repeat constructor; vm_compute; lia].
Defined.
