(* ===== verification/Locality.v ===== *)
(** * Locality: the cells are independent

    The spec (section 5) says the cells are independent by construction:
    no state is shared across cells, so they could be processed in
    parallel.  In the code, the body of [for group in dina_groups]
    (transport.py lines 68-179, [Chain.process_cell]) reads the three
    frames only through [f.iloc[groups[group], :]].  [cell_subset_local]
    shows that this selection depends only on the columns of the frame
    and on the rows of the cell (in file order): two frames that agree on
    those give the same subset, or the same [KeyError].  Hence the output
    of a cell is a function of the rows of that cell alone
    ([process_cell_local]): adding, removing or changing rows of other
    cells, anywhere in the files, leaves it unchanged.

    The same reasoning shows that a DINA row with a missing cell value,
    which [groupby] leaves out ([dropna=True]), changes nothing in the
    whole run ([run_drops_rows_without_key]): its weight is lost without
    an error. *)

From S2P Require Import Prelude Config Frame Groupby Cost Transport Extract Chain.

(** A key is a group of the frame exactly when some row has it. *)
Lemma groupby_key_cell_rows f cells g k :
  groupby f cells = Ok g -> k ∈ map fst g <-> cell_rows f cells k <> [].
Proof.
  intros Hg. rewrite (groupby_row_key _ _ _ _ Hg). unfold cell_rows. split.
  - intros (r & Hr & Hk) Hnil.
    assert (In r (List.filter (fun r => bool_decide (row_key cells r = Some k)) (rows f))) as Hin.
    { apply filter_In. split; [by apply list_elem_of_In | by apply bool_decide_eq_true]. }
    by rewrite Hnil in Hin.
  - destruct (List.filter _ (rows f)) as [|r rs] eqn:E; [done|]. intros _.
    assert (In r (List.filter (fun r => bool_decide (row_key cells r = Some k)) (rows f))) as Hin
      by (rewrite E; by left).
    apply filter_In in Hin as [Hin Hk]. apply bool_decide_eq_true in Hk.
    exists r. split; [by apply list_elem_of_In | done].
Qed.

Lemma frame_eq (f f' : Frame) : columns f = columns f' -> rows f = rows f' -> f = f'.
Proof. destruct f, f'. simpl. by intros -> ->. Qed.

(** [f.iloc[groups[k], :]] depends only on the columns and the rows of
    the cell. *)
Lemma cell_subset_local f f' cells g g' k :
  groupby f cells = Ok g -> groupby f' cells = Ok g' ->
  columns f = columns f' -> cell_rows f cells k = cell_rows f' cells k ->
  cell_subset f g k = cell_subset f' g' k.
Proof.
  intros Hg Hg' Hc Hr. destruct (decide (k ∈ map fst g)) as [Hk|Hk].
  - assert (k ∈ map fst g') as Hk'
      by (apply (groupby_key_cell_rows _ _ _ _ Hg'); rewrite <- Hr; by apply (groupby_key_cell_rows _ _ _ _ Hg)).
    destruct (cell_subset_rows _ _ _ _ Hg Hk) as (s & -> & Hsc & Hsr).
    destruct (cell_subset_rows _ _ _ _ Hg' Hk') as (s' & -> & Hsc' & Hsr').
    f_equal. apply frame_eq; congruence.
  - assert (k ∉ map fst g') as Hk'.
    { intros Hk'. apply Hk, (groupby_key_cell_rows _ _ _ _ Hg). rewrite Hr.
      by apply (groupby_key_cell_rows _ _ _ _ Hg'). }
    unfold cell_subset. by rewrite !groups_get_none.
Qed.

(** Two frames, with their groups, that agree on the cell [k]: the same
    columns and the same rows of the cell, in the same order. *)
Definition agree_on_cell (cells : list string) (k : Key) (f : Frame) (g : Groups) (f' : Frame) (g' : Groups)
    : Prop :=
  groupby f cells = Ok g /\ groupby f' cells = Ok g' /\
  columns f = columns f' /\ cell_rows f cells k = cell_rows f' cells k.

Section Locality.
Context `{EMDSolver}.

(** C13: Cells are independent (spec, section 5): the loop body for a cell
    [k] gives the same result, rows or exception, on any two sets of input
    files that agree on the rows of [k] (and on their columns), whatever
    the other cells hold; so the cells can be processed separately, in
    any order or in parallel, and a change to one cell only changes that
    cell's rows of the output. *)
Theorem process_cell_local dina dina' cps cps' dg dg' cg cg' scf scf' cells mcps mscf k :
  agree_on_cell cells k dina dg dina' dg' -> agree_on_cell cells k cps cg cps' cg' ->
  option_Forall2 (fun p p' => agree_on_cell cells k p.1 p.2 p'.1 p'.2) scf scf' ->
  process_cell dina cps dg cg scf mcps mscf k = process_cell dina' cps' dg' cg' scf' mcps mscf k.
Proof.
  intros (Hd & Hd' & Hdc & Hdr) (Hc & Hc' & Hcc & Hcr) Hs. unfold process_cell.
  rewrite (cell_subset_local _ _ _ _ _ _ Hd Hd' Hdc Hdr), (cell_subset_local _ _ _ _ _ _ Hc Hc' Hcc Hcr).
  destruct Hs as [[f g] [f' g'] (Hf & Hf' & Hfc & Hfr)|]; [|done]. simpl in Hf, Hf', Hfc, Hfr.
  by rewrite (cell_subset_local _ _ _ _ _ _ Hf Hf' Hfc Hfr).
Qed.

End Locality.

Lemma process_cell_local_witness :
  process_cell (H := indep_solver) Toy.dina Toy.cps (ToyCell.groups_of Toy.dina) (ToyCell.groups_of Toy.cps)
    None ToyCell.mcps [] ToyCell.key101 =
  process_cell (H := indep_solver) Toy.dina2 Toy.cps (ToyCell.groups_of Toy.dina2) (ToyCell.groups_of Toy.cps)
    None ToyCell.mcps [] ToyCell.key101.
Proof.
  apply (process_cell_local _ _ _ _ _ _ _ _ _ _ cells); [split_and!; solve_concrete.. | constructor].
Defined.

(** ** Rows without a key

    [groupby] leaves out the rows with a missing cell value (pandas'
    [dropna=True]), and the loop only reads the frames through the groups:
    such a row of the DINA file changes nothing in the run, and its weight
    is lost without an error. *)

(** The frame with one more row at the end. *)
Definition add_row (f : Frame) (r : Row) : Frame := mkFrame (columns f) (rows f ++ [r]).

Lemma group_positions_app_none keys k : group_positions (keys ++ [None]) k = group_positions keys k.
Proof.
  unfold group_positions. replace (length (keys ++ [None])) with (S (length keys)) by (rewrite length_app; simpl; lia).
  rewrite seq_S, List.filter_app. cbn [List.filter]. rewrite Nat.add_0_l, list_lookup_middle by done.
  rewrite bool_decide_false by done. rewrite app_nil_r. apply filter_ext_in.
  intros i Hi%in_seq. by rewrite lookup_app_l by lia.
Qed.

Lemma group_dict_app_none keys : group_dict (keys ++ [None]) = group_dict keys.
Proof.
  unfold group_dict. rewrite omap_app. simpl. rewrite app_nil_r.
  apply map_ext. intros k. by rewrite group_positions_app_none.
Qed.

Lemma groupby_add_row f cells r : row_key cells r = None -> groupby (add_row f r) cells = groupby f cells.
Proof.
  intros Hr. unfold groupby. change (check_columns (add_row f r) cells) with (check_columns f cells).
  cbn [add_row rows]. rewrite map_app. cbn [map]. by rewrite Hr, group_dict_app_none.
Qed.

Lemma cell_rows_add_row f cells r k : row_key cells r = None -> cell_rows (add_row f r) cells k = cell_rows f cells k.
Proof.
  intros Hr. unfold cell_rows. cbn [add_row rows]. rewrite List.filter_app. cbn [List.filter].
  rewrite Hr, bool_decide_false by done. apply app_nil_r.
Qed.

Lemma rmapM_ext_in {A B} (f g : A -> result B) l : (forall x, x ∈ l -> f x = g x) -> rmapM f l = rmapM g l.
Proof.
  induction l as [|x l IH]; intros Hfg; [done|]. simpl. rewrite Hfg by (by left). by rewrite IH by (intros y Hy; apply Hfg; by right).
Qed.

Lemma dina_file_not_cps year : String.eqb (cps_file year) (dina_file year) = false.
Proof. reflexivity. Qed.

Section DropNA.
Context `{EMDSolver}.

Lemma process_cell_add_row dina r cps dg cg sg mcps mscf k :
  row_key cells r = None -> groupby dina cells = Ok dg ->
  process_cell (add_row dina r) cps dg cg sg mcps mscf k = process_cell dina cps dg cg sg mcps mscf k.
Proof.
  intros Hr Hdg. unfold process_cell.
  rewrite (cell_subset_local (add_row dina r) dina cells dg dg k); [done | | done | done |].
  - by rewrite groupby_add_row.
  - by apply cell_rows_add_row.
Qed.

(** C18: A DINA row with a missing cell value is silently ignored
    ([groupby]'s [dropna=True], line 61): the run on the DINA file with
    such a row added gives the same result, rows or exception, as without
    it, so the row's weight is missing from the output and no error is
    raised, where the spec (section 4.1) calls a missing stratification
    value an error. *)
Theorem run_drops_rows_without_key (read_csv : string -> Frame) year r :
  row_key cells r = None ->
  run (fun name => if String.eqb name (dina_file year) then add_row (read_csv name) r else read_csv name) year =
  run read_csv year.
Proof.
  intros Hr. unfold run. cbv beta zeta. rewrite String.eqb_refl, dina_file_not_cps.
  replace (option_map _ (scf_file year)) with (option_map read_csv (scf_file year))
    by (unfold scf_file; by destruct (1989 <=? year)%Z).
  rewrite groupby_add_row by done.
  destruct (groupby (read_csv (dina_file year)) cells) as [dg|e] eqn:Hdg; simpl; [|done].
  destruct (groupby (read_csv (cps_file year)) cells) as [cg|e]; simpl; [|done].
  destruct (option_map read_csv (scf_file year)) as [f|]; simpl;
    [destruct (groupby f cells) as [sg|e]; simpl; [|done]|];
    (f_equal; apply rmapM_ext_in; intros k _; by apply process_cell_add_row).
Qed.

End DropNA.

(** A DINA row of the 1980 run without an [old] value. *)
Definition row_no_old : Row := Toy.row 9 1 [("married", 1%Q); ("employed", 1%Q); ("dina_v", 0%Q)].

Lemma run_drops_rows_without_key_witness :
  row_key cells row_no_old = None /\
  run (H := indep_solver)
    (fun name => if String.eqb name (dina_file 1980) then add_row (ToyCell.read_csv name) row_no_old
                 else ToyCell.read_csv name) 1980 =
  run (H := indep_solver) ToyCell.read_csv 1980.
Proof.
  assert (row_key cells row_no_old = None) as Hr by (vm_compute; reflexivity).
  split; [exact Hr | exact (run_drops_rows_without_key ToyCell.read_csv 1980 row_no_old Hr)].
Defined.
