(* ===== verification/Optimality.v ===== *)
(** * Optimality: what the least-cost contract of [ot.emd] adds

    [Transport.EMDSolverSpec] only asks the solver for a coupling; the
    spec (sections 3 and 4.3) asks for a coupling of least total cost
    ([Transport.optimal_plan]).  Under that contract the city-block cost
    makes the first stage prefer exact matches: when the DINA and CPS
    cells can be coupled using only pairs of records that agree on every
    variable of [matching_cps], every position [np.nonzero] yields, hence
    every (dina_id, cps_id, weight) row of the cell, pairs two such
    records.  The hypothesis is stated on the one call the cell makes, so
    that it holds for any solver that answers that problem optimally. *)

From S2P Require Import Prelude Config Frame Cost Transport Extract Chain.
Local Open Scope Q_scope.

Section ExactMatch.
Context `{EMDSolver}.

(** A coupling that only uses pairs of records with the same values has
    zero cost. *)
Lemma exact_coupling_cost ds cs mcps C P :
  frame_wf ds -> frame_wf cs -> dict_fits mcps ds cs ->
  cost_matrix ds cs (map fst mcps) (map snd mcps) = Ok C ->
  is_plan (normalize (weights ds)) (normalize (weights cs)) P ->
  (forall i j ra rb, rows ds !! i = Some ra -> rows cs !! j = Some rb -> ~ plan_val P (i, j) == 0 ->
     same_values mcps ra rb) ->
  total_cost C P == 0.
Proof.
  intros Hwd Hwc (_ & Hcd & Hcc) HC HP Hex.
  apply total_cost_zero; [by eapply cost_matrix_nonneg_all | apply HP |].
  intros i j m p Hm Hp. destruct (decide (p == 0)) as [Hz|Hnz]; [rewrite Hz; lra|].
  assert (plan_val P (i, j) = p) as Hv by (unfold plan_val; simpl; by rewrite Hp).
  assert ((i, j) ∈ nonzero P) as Hij by (apply nonzero_spec; eauto).
  destruct HP as [HPs _]. rewrite length_normalize, length_normalize, !length_weights in HPs.
  destruct (nonzero_in_shape _ _ _ _ _ HPs Hij) as (Hi & Hj & _).
  destruct (lookup_lt_is_Some_2 _ _ Hi) as [ra Hra]. destruct (lookup_lt_is_Some_2 _ _ Hj) as [rb Hrb].
  rewrite (cost_matrix_at _ _ _ _ _ _ _ _ _ Hwd Hwc Hcd Hcc HC Hra Hrb) in Hm. injection Hm as <-.
  rewrite combine_map_fst_snd, (proj2 (pair_dist_zero _ _ _)); [lra|].
  apply (Hex i j); [done | done | by rewrite Hv].
Qed.

(** C11: When the solver answers the cell's first problem with a
    least-cost coupling and the two cells admit a coupling that only pairs
    records agreeing on every variable of the dictionary, the first stage
    succeeds with the DINA mass and every position the extraction loop
    visits pairs two records that agree on every variable: the code
    matches exactly whenever an exact match is possible. *)
Theorem stage1_exact_matches ds cs mcps C :
  frame_wf ds -> frame_wf cs -> dict_fits mcps ds cs ->
  cost_matrix ds cs (map fst mcps) (map snd mcps) = Ok C ->
  optimal_plan (normalize (weights ds)) (normalize (weights cs)) C
    (ot_emd (normalize (weights ds)) (normalize (weights cs)) C numItermax) ->
  (exists P, is_plan (normalize (weights ds)) (normalize (weights cs)) P /\
     forall i j ra rb, rows ds !! i = Some ra -> rows cs !! j = Some rb -> ~ plan_val P (i, j) == 0 ->
       same_values mcps ra rb) ->
  exists G, stage1 ds cs mcps = Ok (G, qsum (weights ds)) /\
    Forall (fun ij => exists ra rb, rows ds !! ij.1 = Some ra /\ rows cs !! ij.2 = Some rb /\
      same_values mcps ra rb) (nonzero G).
Proof.
  intros Hwd Hwc Hfit HC Hopt (P & HP & Hex).
  set (G := ot_emd _ _ C numItermax) in Hopt.
  assert (total_cost C G == 0) as HG0.
  { apply (optimal_plan_zero _ _ _ _ P (cost_matrix_nonneg_all _ _ _ _ _ HC) Hopt HP).
    by apply (exact_coupling_cost ds cs mcps). }
  exists G. split.
  { unfold stage1. rewrite paired_columns_ok by apply Hfit. simpl. by rewrite HC. }
  destruct Hfit as (_ & Hcd & Hcc). destruct Hopt as [HGp _].
  apply Forall_forall. intros [i j] Hij.
  pose proof (proj1 HGp) as HGs. rewrite length_normalize, length_normalize, !length_weights in HGs.
  destruct (nonzero_in_shape _ _ _ _ _ HGs Hij) as (Hi & Hj & g & Hg & _).
  destruct (lookup_lt_is_Some_2 _ _ Hi) as [ra Hra]. destruct (lookup_lt_is_Some_2 _ _ Hj) as [rb Hrb].
  exists ra, rb. split_and!; [done | done |].
  apply nonzero_spec in Hij as (g' & Hg' & Hnz). rewrite Hg in Hg'. injection Hg' as <-.
  pose proof (cost_matrix_at _ _ _ _ _ _ _ _ _ Hwd Hwc Hcd Hcc HC Hra Hrb) as Hm.
  pose proof (proj1 (total_cost_zero _ _ (cost_matrix_nonneg_all _ _ _ _ _ HC) (proj1 (proj2 HGp))) HG0
    i j _ _ Hm Hg) as Hprod.
  rewrite combine_map_fst_snd in Hprod. apply pair_dist_zero.
  destruct (Qmult_integral _ _ Hprod); [done | contradiction].
Qed.

End ExactMatch.

(** ** A cell that can be matched exactly *)

Module ExactToy.

(** DINA: ids 1, 2, 3, weights 1, 1, 2, [v = 0, 0, 2]; CPS: ids 11, 12,
    weights 2, 2, [v = 0, 2]. *)
Definition dina : Frame := mkFrame ["dina_v"]
  [Toy.row 1 1 [("dina_v", 0)]; Toy.row 2 1 [("dina_v", 0)]; Toy.row 3 2 [("dina_v", 2)]].
Definition cps : Frame := mkFrame ["cps_v"]
  [Toy.row 11 2 [("cps_v", 0)]; Toy.row 12 2 [("cps_v", 2)]].
Definition mcps : list (string * string) := [("dina_v", "cps_v")].
Definition C : Matrix := ok_or [] (cost_matrix dina cps ["dina_v"] ["cps_v"]).

(** The exact coupling. *)
Definition plan : Matrix := [[1#4; 0]; [1#4; 0]; [0; 2#4]].

End ExactToy.

(** A solver that answers with the exact coupling. *)
Definition exact_solver : EMDSolver := fun _ _ _ _ => (ExactToy.plan, OPTIMAL).

Lemma exact_plan_optimal :
  optimal_plan (normalize (weights ExactToy.dina)) (normalize (weights ExactToy.cps)) ExactToy.C ExactToy.plan.
Proof. apply zero_cost_optimal; [decide_concrete | unfold is_plan, has_shape; decide_concrete | solve_concrete]. Qed.

Lemma exact_plan_exact i j ra rb :
  rows ExactToy.dina !! i = Some ra -> rows ExactToy.cps !! j = Some rb ->
  ~ plan_val ExactToy.plan (i, j) == 0 -> same_values ExactToy.mcps ra rb.
Proof.
  intros Hra Hrb Hnz.
  destruct i as [|[|[|i]]], j as [|[|j]]; try (exfalso; apply Hnz; vm_compute; reflexivity);
    vm_compute in Hra, Hrb; try discriminate; injection Hra as <-; injection Hrb as <-;
    repeat constructor; vm_compute; reflexivity.
Qed.

Lemma stage1_exact_matches_witness :
  exists G, stage1 (H := exact_solver) ExactToy.dina ExactToy.cps ExactToy.mcps = Ok (G, qsum (weights ExactToy.dina)) /\
    Forall (fun ij => exists ra rb, rows ExactToy.dina !! ij.1 = Some ra /\ rows ExactToy.cps !! ij.2 = Some rb /\
      same_values ExactToy.mcps ra rb) (nonzero G).
Proof.
  apply (stage1_exact_matches (H := exact_solver) _ _ _ ExactToy.C); [solve_concrete.. | |].
  - exact exact_plan_optimal.
  - exists ExactToy.plan. split; [apply exact_plan_optimal | apply exact_plan_exact].
Defined.
