(* ===== verification/Scenario.v ===== *)
(** * Scenario: the end-to-end example of the spec (section 8) under an
      optimal solver

    The spec's toy cell: DINA records with weights [1, 1, 2] and matching
    variable [v = 0, 1, 2], CPS records with weights [2, 1] and
    [v = 0, 2] ([Frame.Toy.dina], [Frame.Toy.cps], one cell 101).  With
    a solver that meets the full contract of [ot.emd]
    ([Transport.optimal_plan]: a least-cost coupling), the plan of the
    cell is forced: the couplings of the marginals [1/4, 1/4, 1/2] and
    [2/3, 1/3] form a two-parameter family, and the city-block cost
    [3/4 - 2 p00 + 2 p20] has a unique minimum, [7/12].  [process_cell]
    then emits exactly the rows (1, 11, 1), (2, 11, 1), (3, 11, 2/3),
    (3, 12, 4/3), whatever the solver's internal method; the weights are
    equal up to [Qeq], through the [Proper] extraction of [Extract]. *)

From S2P Require Import Prelude Config Frame Groupby Cost Transport Extract Chain.
Local Open Scope Q_scope.

Module ToyOpt.

(** The two marginals and the cost matrix of the cell, as
    [process_cell] computes them. *)
Definition a : list Q := normalize (weights Toy.dina).
Definition b : list Q := normalize (weights Toy.cps).
Definition C : Matrix := ok_or [] (cost_matrix Toy.dina Toy.cps ["dina_v"] ["cps_v"]).

(** The least-cost coupling. *)
Definition plan : Matrix := [[1#4; 0]; [1#4; 0]; [1#6; 1#3]].

(** The rows the cell yields. *)
Definition expected : list Entry :=
  [mkEntry 1 11 None 1; mkEntry 2 11 None 1; mkEntry 3 11 None (2#3); mkEntry 3 12 None (4#3)].

End ToyOpt.

Lemma toy_a : ToyOpt.a = [1#4; 1#4; 2#4].
Proof. vm_compute. reflexivity. Qed.

Lemma toy_b : ToyOpt.b = [2#3; 1#3].
Proof. vm_compute. reflexivity. Qed.

Lemma toy_C : ToyOpt.C = [[0; 2]; [1; 1]; [2; 0]].
Proof. vm_compute. reflexivity. Qed.

Lemma has_shape_3x2 (P : Matrix) :
  has_shape P 3 2 -> exists p00 p01 p10 p11 p20 p21, P = [[p00; p01]; [p10; p11]; [p20; p21]].
Proof.
  intros [Hl Hr]. destruct P as [|r0 [|r1 [|r2 [|? ?]]]]; try discriminate.
  rewrite !Forall_cons in Hr. destruct Hr as (H0 & H1 & H2 & _).
  destruct r0 as [|? [|? [|]]], r1 as [|? [|? [|]]], r2 as [|? [|? [|]]]; try discriminate.
  eauto 10.
Qed.

(** The couplings of the two marginals, as linear constraints. *)
Lemma toy_coupling P :
  is_plan ToyOpt.a ToyOpt.b P ->
  exists p00 p01 p10 p11 p20 p21, P = [[p00; p01]; [p10; p11]; [p20; p21]] /\
    0 <= p00 /\ 0 <= p01 /\ 0 <= p10 /\ 0 <= p11 /\ 0 <= p20 /\ 0 <= p21 /\
    p00 + p01 == 1#4 /\ p10 + p11 == 1#4 /\ p20 + p21 == 2#4 /\
    p00 + p10 + p20 == 2#3 /\ p01 + p11 + p21 == 1#3.
Proof.
  rewrite toy_a, toy_b. intros (Hs & Hnn & Hrows & Hcols).
  destruct (has_shape_3x2 P Hs) as (p00 & p01 & p10 & p11 & p20 & p21 & ->).
  rewrite !Forall_cons in Hnn. destruct Hnn as (H0 & H1 & H2 & _).
  rewrite !Forall2_cons in Hrows. simpl in Hcols. rewrite !Forall2_cons in Hcols.
  unfold col_sum in Hcols. simpl in Hrows, Hcols.
  exists p00, p01, p10, p11, p20, p21. split; [done|]. split_and!; try tauto; lra.
Qed.

Lemma toy_plan_coupling : is_plan ToyOpt.a ToyOpt.b ToyOpt.plan.
Proof. unfold is_plan, has_shape. decide_concrete. Qed.

(** [ToyOpt.plan] is a least-cost coupling... *)
Lemma toy_plan_optimal : optimal_plan ToyOpt.a ToyOpt.b ToyOpt.C ToyOpt.plan.
Proof.
  split; [apply toy_plan_coupling|]. intros P HP.
  destruct (toy_coupling P HP) as (p00 & p01 & p10 & p11 & p20 & p21 & -> & Hc).
  rewrite toy_C. unfold total_cost, ToyOpt.plan. simpl. lra.
Qed.

(** ... and the only one, up to [Qeq]. *)
Lemma toy_optimal_unique G : optimal_plan ToyOpt.a ToyOpt.b ToyOpt.C G -> mat_equiv G ToyOpt.plan.
Proof.
  intros [HG Hopt]. specialize (Hopt _ toy_plan_coupling).
  destruct (toy_coupling G HG) as (p00 & p01 & p10 & p11 & p20 & p21 & -> & Hc).
  rewrite toy_C in Hopt. unfold total_cost, ToyOpt.plan in Hopt. simpl in Hopt.
  unfold mat_equiv, ToyOpt.plan. repeat constructor; lra.
Qed.

Section ToyCellOptimal.
Context `{EMDSolver}.

(** The cell computation reduces to the extraction of the solver's plan
    on [ToyOpt.a], [ToyOpt.b], [ToyOpt.C]. *)
Lemma toy_process_cell :
  process_cell Toy.dina Toy.cps (ToyCell.groups_of Toy.dina) (ToyCell.groups_of Toy.cps) None
    ToyCell.mcps [] ToyCell.key101 =
  extract_matches Toy.dina Toy.cps (qsum (weights Toy.dina))
    (ot_emd ToyOpt.a ToyOpt.b ToyOpt.C numItermax).
Proof. vm_compute. reflexivity. Qed.

(** C12: The spec's two-stage example (section 8): on the toy cell, when
    the solver returns a least-cost coupling, the cell yields exactly the
    rows (1, 11, 1), (2, 11, 1), (3, 11, 2/3), (3, 12, 4/3): the plan
    minimises the total city-block distance, and the weights add up to
    the DINA mass 4. *)
Theorem toy_cell_optimal_match :
  optimal_plan ToyOpt.a ToyOpt.b ToyOpt.C (ot_emd ToyOpt.a ToyOpt.b ToyOpt.C numItermax) ->
  exists es, process_cell Toy.dina Toy.cps (ToyCell.groups_of Toy.dina) (ToyCell.groups_of Toy.cps)
      None ToyCell.mcps [] ToyCell.key101 = Ok es /\
    Forall2 entry_equiv es ToyOpt.expected.
Proof.
  intros Hopt. rewrite toy_process_cell.
  pose proof (extract_matches_equiv Toy.dina Toy.cps _ _ _ _ (Qeq_refl (qsum (weights Toy.dina)))
    (toy_optimal_unique _ Hopt)) as Hr.
  assert (extract_matches Toy.dina Toy.cps (qsum (weights Toy.dina)) ToyOpt.plan =
    Ok [mkEntry 1 11 None (4#4); mkEntry 2 11 None (4#4); mkEntry 3 11 None (4#6); mkEntry 3 12 None (4#3)])
    as Hplan by (vm_compute; reflexivity).
  rewrite Hplan in Hr. destruct (extract_matches _ _ _ _) as [es|e]; [|done].
  exists es. split; [done|]. etransitivity; [exact Hr|]. decide_concrete.
Qed.

End ToyCellOptimal.

(** A solver that returns the least-cost coupling of the toy cell. *)
Definition toy_solver : EMDSolver := fun _ _ _ _ => (ToyOpt.plan, OPTIMAL).

Lemma toy_cell_optimal_match_witness :
  exists es, process_cell (H := toy_solver) Toy.dina Toy.cps (ToyCell.groups_of Toy.dina)
      (ToyCell.groups_of Toy.cps) None ToyCell.mcps [] ToyCell.key101 = Ok es /\
    Forall2 entry_equiv es ToyOpt.expected.
Proof. apply (toy_cell_optimal_match (H := toy_solver)). exact toy_plan_optimal. Defined.
